(** * SeismoTrack earthquake dashboard: the fetch / cache / summary service

    A shallow embedding of [src/app/services/earthquake.service.ts]
    (class [EarthquakeService]) and of the data contracts of
    [src/app/models/earthquake.model.ts], followed by the properties of the
    service that the specification states.

    Conventions of the embedding.
    - A JavaScript [number] that the service only compares, adds or divides
      (magnitudes, coordinates, limits) is a rational [Q]: the records come
      out of [JSON.parse], which yields no NaN, and the order of finite
      doubles is the order of the rationals they denote.  Rounding of the
      average is not modelled.
    - Byte sizes, epoch milliseconds and day differences are integers [Z].
    - A JavaScript [Map] is an insertion-ordered association list with
      unique keys ([JsMap]): iteration order is observable in the service
      (the stable sort of [cleanupCache], the order of [frequencyPerDay]).
    - [Date.now()] is an explicit argument of every operation that reads
      the clock.
    - The functions of [date-fns] and the JavaScript built-ins
      ([JSON.stringify], [Number.prototype.toString]) are interfaces
      ([DateFns], [JsBuiltins]); a UTC instance is given for the examples. *)

From Stdlib Require Import List ZArith QArith Qround String Ascii Bool Lia Arith.
From Stdlib Require Import DecimalString Lqa Permutation Sorted.
Import ListNotations.

Local Open Scope string_scope.
Local Open Scope Z_scope.

(** ** JavaScript [Map] with string keys *)

Module JsMap.

Section WithValue.

Context {V : Type}.

Definition t : Type := list (string * V).

Definition empty : t := [].

(** [Map.prototype.get]: [None] stands for [undefined]. *)
Fixpoint get (k : string) (m : t) : option V :=
  match m with
  | [] => None
  | (k', v) :: m' => if String.eqb k k' then Some v else get k m'
  end.

(** [Map.prototype.set]: an existing key keeps its position and takes the
    new value, a new key goes last. *)
Fixpoint set (k : string) (v : V) (m : t) : t :=
  match m with
  | [] => [(k, v)]
  | (k', v') :: m' =>
      if String.eqb k k' then (k, v) :: m' else (k', v') :: set k v m'
  end.

(** [Map.prototype.delete]. *)
Fixpoint delete (k : string) (m : t) : t :=
  match m with
  | [] => []
  | (k', v') :: m' =>
      if String.eqb k k' then m' else (k', v') :: delete k m'
  end.

Definition keys (m : t) : list string := map fst m.

Definition has (k : string) (m : t) : bool :=
  match get k m with Some _ => true | None => false end.

(** Keys of a [Map] are unique. *)
Definition wf (m : t) : Prop := NoDup (keys m).

End WithValue.

Arguments t : clear implicits.

End JsMap.

(** ** Data model ([earthquake.model.ts]) *)

(** [EarthquakeFeature.properties]; only the fields the service reads. *)
Record EarthquakeProperties : Type := {
  mag : Q;          (* magnitude *)
  place : string;   (* location label *)
  time : Z          (* UTC milliseconds *)
}.

Record EarthquakeFeature : Type := {
  properties : EarthquakeProperties;
  id : string
}.

Record EarthquakeResponse : Type := {
  features : list EarthquakeFeature
}.

Record EarthquakeFilters : Type := {
  startTime : string;
  endTime : string;
  minMagnitude : Q;
  maxMagnitude : option Q;
  minLatitude : option Q;
  maxLatitude : option Q;
  minLongitude : option Q;
  maxLongitude : option Q;
  limit : Q;
  offset : Q
}.

(** [frequencyPerDay] and [magnitudeDistribution] hold two-field objects
    [{date, count}] and [{range, count}]: pairs here. *)
Record EarthquakeSummary : Type := {
  count : nat;
  averageMagnitude : Q;
  strongestEarthquake : option EarthquakeFeature;
  frequencyPerDay : list (string * nat);
  magnitudeDistribution : list (string * nat)
}.

(** ** Library interfaces *)

(** The functions of [date-fns] that the service calls.  [differenceInDays]
    is the number of full days, an integer; on invalid dates the library
    returns NaN, which every comparison of the service treats as a negative
    difference does. *)
Class DateFns : Type := {
  Date : Type;
  parseISO : string -> Date;
  newDate : Z -> Date;                    (* [new Date(ms)] *)
  differenceInDays : Date -> Date -> Z;
  addDays : Date -> Z -> Date;
  format_yyyy_MM_dd : Date -> string      (* [format(d, "yyyy-MM-dd")] *)
}.

(** JavaScript built-ins whose result the service stores or measures. *)
Class JsBuiltins : Type := {
  Number_toString : Q -> string;
  JSON_stringify_filters : EarthquakeFilters -> string;
  (* [JSON.stringify(response).length] *)
  JSON_stringify_length : EarthquakeResponse -> N
}.

(** ** Numbers *)

(** [a > b] on numbers. *)
Definition Qgtb (a b : Q) : bool := negb (Qle_bool a b).

(** [a >= b] and [a < b]. *)
Definition Qgeb (a b : Q) : bool := Qle_bool b a.
Definition Qltb (a b : Q) : bool := negb (Qle_bool b a).

(** Truthiness of an optional number: [undefined], [null] and [0] are
    falsy. *)
Definition truthy (x : option Q) : bool :=
  match x with
  | Some q => negb (Qeq_bool q 0)
  | None => false
  end.

(** [Math.round]. *)
Definition Math_round (q : Q) : Z := Qfloor (q + (1 # 2)).

(** ** Summary statistics ([generateSummary]) *)

(** [Array.prototype.reduce] without an initial value, on a non-empty
    array: the accumulator starts at the first element. *)
Definition reduce1 {A : Type} (f : A -> A -> A) (x : A) (xs : list A) : A :=
  fold_left f xs x.

Definition stronger (strongest current : EarthquakeFeature)
  : EarthquakeFeature :=
  if Qgtb (mag (properties strongest)) (mag (properties current))
  then strongest else current.

Definition totalMagnitude (earthquakes : list EarthquakeFeature) : Q :=
  fold_left (fun sum eq => (sum + mag (properties eq))%Q) earthquakes 0%Q.

Record MagnitudeRange : Type := {
  range_min : Q;
  range_max : Q;
  range_label : string
}.

Definition magnitudeRanges : list MagnitudeRange :=
  [ {| range_min := 0; range_max := 2; range_label := "0-2" |};
    {| range_min := 2; range_max := 4; range_label := "2-4" |};
    {| range_min := 4; range_max := 6; range_label := "4-6" |};
    {| range_min := 6; range_max := 8; range_label := "6-8" |};
    {| range_min := 8; range_max := 10; range_label := "8+" |} ]%Q.

(** The filter predicate of one histogram bucket. *)
Definition in_range (range : MagnitudeRange) (eq : EarthquakeFeature) : bool :=
  Qgeb (mag (properties eq)) (range_min range)
  && (Qeq_bool (range_max range) 10
      || Qltb (mag (properties eq)) (range_max range)).

Definition magnitudeDistributionOf (earthquakes : list EarthquakeFeature)
  : list (string * nat) :=
  map (fun range =>
         (range_label range, List.length (filter (in_range range) earthquakes)))
      magnitudeRanges.

Definition emptySummary : EarthquakeSummary :=
  {| count := 0;
     averageMagnitude := 0;
     strongestEarthquake := None;
     frequencyPerDay := [];
     magnitudeDistribution := [] |}.

Section Summary.

Context {DF : DateFns}.

(** The day key of a record: [format(new Date(eq.properties.time),
    "yyyy-MM-dd")]. *)
Definition dayOf (eq : EarthquakeFeature) : string :=
  format_yyyy_MM_dd (newDate (time (properties eq))).

(** [daysDiff > 90 ? Math.ceil(daysDiff / 90) : 1]. *)
Definition sampleIntervalOf (daysDiff : Z) : Z :=
  if 90 <? daysDiff then Qceiling (inject_Z daysDiff / 90) else 1.

(** The seeding loop [for (i = 0; i <= daysDiff; i += sampleInterval)].
    [fuel] bounds the number of iterations; [daysDiff + 1] is always
    enough (lemma [seedDays_fuel]). *)
Fixpoint seedDays (fuel : nat) (startDate : Date)
    (daysDiff sampleInterval i : Z) (dateMap : JsMap.t nat)
  : JsMap.t nat :=
  match fuel with
  | O => dateMap
  | S fuel' =>
      if i <=? daysDiff then
        let date := addDays startDate i in
        let dateStr := format_yyyy_MM_dd date in
        seedDays fuel' startDate daysDiff sampleInterval
                 (i + sampleInterval) (JsMap.set dateStr 0%nat dateMap)
      else dateMap
  end.

(** One step of [earthquakes.forEach]: [dateMap.set(date,
    (dateMap.get(date) || 0) + 1)]. *)
Definition countDay (dateMap : JsMap.t nat) (eq : EarthquakeFeature)
  : JsMap.t nat :=
  let date := dayOf eq in
  JsMap.set date
            (match JsMap.get date dateMap with
             | Some c => c
             | None => 0
             end + 1)%nat
            dateMap.

Definition frequencyPerDayOf (earthquakes : list EarthquakeFeature)
    (filters : EarthquakeFilters) : list (string * nat) :=
  let startDate := parseISO (startTime filters) in
  let endDate := parseISO (endTime filters) in
  let daysDiff := differenceInDays endDate startDate in
  let sampleInterval := sampleIntervalOf daysDiff in
  let seeded :=
    seedDays (Z.to_nat (daysDiff + 1)) startDate daysDiff sampleInterval 0
             JsMap.empty in
  fold_left countDay earthquakes seeded.

(** The value that [generateSummary] publishes on the summary channel. *)
Definition generateSummary (earthquakes : list EarthquakeFeature)
    (filters : EarthquakeFilters) : EarthquakeSummary :=
  match earthquakes with
  | [] => emptySummary
  | first :: rest =>
      {| count := List.length earthquakes;
         averageMagnitude :=
           (totalMagnitude earthquakes
            / inject_Z (Z.of_nat (List.length earthquakes)))%Q;
         strongestEarthquake := Some (reduce1 stronger first rest);
         frequencyPerDay := frequencyPerDayOf earthquakes filters;
         magnitudeDistribution := magnitudeDistributionOf earthquakes |}
  end.

End Summary.


(** ** The response cache *)

Record CacheEntry : Type := {
  data : EarthquakeResponse;
  timestamp : Z;
  size : Z                    (* approximate size in bytes *)
}.

(** The two fields of the service that make up the cache: the [Map] and the
    running total [currentCacheSize]. *)
Record Cache : Type := {
  cache : JsMap.t CacheEntry;
  currentCacheSize : Z
}.

Definition CACHE_DURATION : Z := 30 * 60 * 1000.
Definition MAX_CACHE_SIZE : Z := 50 * 1024 * 1024.

Definition emptyCache : Cache := {| cache := JsMap.empty; currentCacheSize := 0 |}.

(** The body shared by every removal: [this.currentCacheSize -= entry.size;
    this.cache.delete(key)]. *)
Definition removeEntry (key : string) (entry : CacheEntry) (c : Cache) : Cache :=
  {| cache := JsMap.delete key (cache c);
     currentCacheSize := currentCacheSize c - size entry |}.

(** First loop of [cleanupCache], over the entries in [Map] order.  Deleting
    the entry under the iterator does not disturb a [Map] iteration, so the
    loop runs over the entries present at its start.  ([entriesRemoved] only
    feeds a log line and is left out.) *)
Fixpoint removeExpired (now : Z) (entries : list (string * CacheEntry))
    (c : Cache) : Cache :=
  match entries with
  | [] => c
  | (key, entry) :: rest =>
      if now - timestamp entry >? CACHE_DURATION
      then removeExpired now rest (removeEntry key entry c)
      else removeExpired now rest c
  end.

(** [entries.sort((a, b) => a[1].timestamp - b[1].timestamp)]: a stable
    ascending sort. *)
Fixpoint insertByTimestamp (e : string * CacheEntry)
    (sorted : list (string * CacheEntry)) : list (string * CacheEntry) :=
  match sorted with
  | [] => [e]
  | e' :: rest =>
      if timestamp (snd e) <=? timestamp (snd e')
      then e :: sorted
      else e' :: insertByTimestamp e rest
  end.

Definition sortByTimestamp (entries : list (string * CacheEntry))
  : list (string * CacheEntry) :=
  fold_right insertByTimestamp [] entries.

(** [this.currentCacheSize <= this.MAX_CACHE_SIZE * 0.8].  The product is
    41 943 040, which the double arithmetic of JavaScript yields exactly. *)
Definition reducedEnough (c : Cache) : bool :=
  Qle_bool (inject_Z (currentCacheSize c)) (inject_Z MAX_CACHE_SIZE * 0.8)%Q.

(** Second loop of [cleanupCache]: remove, then test, then [break]. *)
Fixpoint evictOldest (entries : list (string * CacheEntry)) (c : Cache)
  : Cache :=
  match entries with
  | [] => c
  | (key, entry) :: rest =>
      let c' := removeEntry key entry c in
      if reducedEnough c' then c' else evictOldest rest c'
  end.

Definition cleanupCache (now : Z) (c : Cache) : Cache :=
  let c1 := removeExpired now (cache c) c in
  if currentCacheSize c1 >? MAX_CACHE_SIZE
  then evictOldest (sortByTimestamp (cache c1)) c1
  else c1.

(** [getFromCache]: the result ([None] for [null]) and the cache after the
    call. *)
Definition getFromCache (key : string) (now : Z) (c : Cache)
  : option EarthquakeResponse * Cache :=
  match JsMap.get key (cache c) with
  | None => (None, c)
  | Some cached =>
      if now - timestamp cached >? CACHE_DURATION
      then (None, removeEntry key cached c)
      else (Some (data cached), c)
  end.

Section CacheAdmission.

Context {JS : JsBuiltins}.

(** [jsonString.length * 2]. *)
Definition estimateObjectSize (obj : EarthquakeResponse) : Z :=
  Z.of_N (JSON_stringify_length obj) * 2.

(** The last two statements of [addToCache]. *)
Definition storeEntry (key : string) (entry : CacheEntry) (c : Cache) : Cache :=
  {| cache := JsMap.set key entry (cache c);
     currentCacheSize := currentCacheSize c + size entry |}.

(** [addToCache].  The clock is read twice: by [cleanupCache] (when it is
    called) at [nowCleanup] and for the new entry's timestamp at [nowSet]. *)
Definition addToCache (key : string) (response : EarthquakeResponse)
    (nowCleanup nowSet : Z) (c : Cache) : Cache :=
  let sz := estimateObjectSize response in
  let entry := {| data := response; timestamp := nowSet; size := sz |} in
  if currentCacheSize c + sz >? MAX_CACHE_SIZE then
    let c1 := cleanupCache nowCleanup c in
    if currentCacheSize c1 + sz >? MAX_CACHE_SIZE
    then c1                                   (* "Data too large to cache" *)
    else storeEntry key entry c1
  else storeEntry key entry c.

(** ** Request parameters ([buildRequestParams]) *)

(** [Math.max]. *)
Definition Math_max (a b : Q) : Q := if Qle_bool a b then b else a.

(** [x.toString()] on an optional number.  The service calls it only under
    a truthiness guard on [x], so the [None] branch is never reached. *)
Definition toStringOf (x : option Q) : string :=
  match x with
  | Some q => Number_toString q
  | None => EmptyString
  end.

(** [HttpParams] is an immutable map from parameter names to strings; [set]
    returns the extended map. *)
Definition buildRequestParams (filters : EarthquakeFilters) : JsMap.t string :=
  let params := JsMap.set "format" "geojson" JsMap.empty in
  let params := JsMap.set "starttime" (startTime filters) params in
  let params := JsMap.set "endtime" (endTime filters) params in
  let params :=
    JsMap.set "minmagnitude" (Number_toString (minMagnitude filters)) params in
  let params := JsMap.set "limit" (Number_toString (limit filters)) params in
  let params :=
    JsMap.set "offset" (Number_toString (Math_max (offset filters) 1)) params in
  let params := JsMap.set "orderby" "time" params in
  let params :=
    if truthy (maxMagnitude filters)
    then JsMap.set "maxmagnitude" (toStringOf (maxMagnitude filters)) params
    else params in
  if truthy (minLatitude filters) && truthy (maxLatitude filters)
     && truthy (minLongitude filters) && truthy (maxLongitude filters)
  then
    let params :=
      JsMap.set "minlatitude" (toStringOf (minLatitude filters)) params in
    let params :=
      JsMap.set "maxlatitude" (toStringOf (maxLatitude filters)) params in
    let params :=
      JsMap.set "minlongitude" (toStringOf (minLongitude filters)) params in
    JsMap.set "maxlongitude" (toStringOf (maxLongitude filters)) params
  else params.

(** [createCacheKey]. *)
Definition createCacheKey (filters : EarthquakeFilters) : string :=
  JSON_stringify_filters filters.

End CacheAdmission.


(** ** The service as an event-driven state machine

    The service runs on the single-threaded event loop: every method call
    and every callback (HTTP notification, timer) runs to completion.  A
    [BehaviorSubject] is its current value; the subscription to the HTTP
    observable is the field [inflight]. *)

(** Calls to [toastr], by message. *)
Inductive Toast : Type :=
| ToastCacheHit                 (* info: Data loaded from cache *)
| ToastLargeRange               (* warning: Large date range detected *)
| ToastTimeout                  (* error: Request timed out *)
| ToastFailed                   (* error: Failed to fetch earthquake data *)
| ToastBatches (n : nat)        (* info: Processing n earthquakes in batches *)
| ToastNoResults                (* info: No earthquakes found *)
| ToastLimit (lim : Q)          (* warning: Showing maximum of lim results *)
| ToastFound (n : nat).         (* success: Found n earthquakes *)

(** Callbacks handed to [setTimeout] and not yet run. *)
Inductive TimerTask : Type :=
| StartBatches (earthquakes : list EarthquakeFeature)
               (filters : EarthquakeFilters)
| NextBatch (earthquakes : list EarthquakeFeature)
            (filters : EarthquakeFilters) (totalBatches currentBatch : nat).

(** One [http.get(...).pipe(...).subscribe(...)]: the request, with the
    variables its callbacks close over. *)
Record Request : Type := {
  req_id : nat;
  req_params : JsMap.t string;
  req_key : string;
  req_filters : EarthquakeFilters
}.

Record Service : Type := {
  loadingSubject : bool;
  earthquakesSubject : list EarthquakeFeature;
  summarySubject : option EarthquakeSummary;
  errorSubject : option string;
  progressSubject : Z;
  store : Cache;                    (* [cache] and [currentCacheSize] *)
  progressSimulation : option Z;    (* start time of the running interval *)
  inflight : option Request;        (* live subscription to the HTTP call *)
  issued : nat;                     (* HTTP requests made so far *)
  timers : list TimerTask;
  toasts : list Toast               (* latest first *)
}.

Definition initialService : Service :=
  {| loadingSubject := false;
     earthquakesSubject := [];
     summarySubject := None;
     errorSubject := None;
     progressSubject := 0;
     store := emptyCache;
     progressSimulation := None;
     inflight := None;
     issued := 0;
     timers := [];
     toasts := [] |}.

Definition setLoading (v : bool) (s : Service) : Service :=
  let '(Build_Service _ b c d e f g h i j k) := s in
  Build_Service v b c d e f g h i j k.
Definition setEarthquakes (v : list EarthquakeFeature) (s : Service) : Service :=
  let '(Build_Service a _ c d e f g h i j k) := s in
  Build_Service a v c d e f g h i j k.
Definition setSummary (v : option EarthquakeSummary) (s : Service) : Service :=
  let '(Build_Service a b _ d e f g h i j k) := s in
  Build_Service a b v d e f g h i j k.
Definition setError (v : option string) (s : Service) : Service :=
  let '(Build_Service a b c _ e f g h i j k) := s in
  Build_Service a b c v e f g h i j k.
Definition setProgress (v : Z) (s : Service) : Service :=
  let '(Build_Service a b c d _ f g h i j k) := s in
  Build_Service a b c d v f g h i j k.
Definition setStore (v : Cache) (s : Service) : Service :=
  let '(Build_Service a b c d e _ g h i j k) := s in
  Build_Service a b c d e v g h i j k.
Definition setProgressSimulation (v : option Z) (s : Service) : Service :=
  let '(Build_Service a b c d e f _ h i j k) := s in
  Build_Service a b c d e f v h i j k.
Definition setInflight (v : option Request) (s : Service) : Service :=
  let '(Build_Service a b c d e f g _ i j k) := s in
  Build_Service a b c d e f g v i j k.
Definition setIssued (v : nat) (s : Service) : Service :=
  let '(Build_Service a b c d e f g h _ j k) := s in
  Build_Service a b c d e f g h v j k.
Definition setTimers (v : list TimerTask) (s : Service) : Service :=
  let '(Build_Service a b c d e f g h i _ k) := s in
  Build_Service a b c d e f g h i v k.
Definition toast (t : Toast) (s : Service) : Service :=
  let '(Build_Service a b c d e f g h i j k) := s in
  Build_Service a b c d e f g h i j (t :: k).

Definition BATCH_SIZE : nat := 500.

(** The curve of [startProgressSimulation]: (time, progress). *)
Definition progressCurve : list (Z * Z) :=
  [ (0, 0); (1000, 5); (3000, 15); (8000, 30); (15000, 50); (30000, 70);
    (60000, 85); (90000, 90); (120000, 94) ].

(** The segment search of the interval callback; [progress] stays 0 when no
    segment holds [elapsed]. *)
Fixpoint interpolate (curve : list (Z * Z)) (elapsed : Z) : Q :=
  match curve with
  | current :: ((next :: _) as rest) =>
      if (fst current <=? elapsed) && (elapsed <? fst next) then
        let timeRatio :=
          (inject_Z (elapsed - fst current)
           / inject_Z (fst next - fst current))%Q in
        (inject_Z (snd current)
         + timeRatio * inject_Z (snd next - snd current))%Q
      else interpolate rest elapsed
  | _ => 0%Q
  end.

Definition simulatedProgress (elapsed : Z) : Z :=
  let progress := interpolate progressCurve elapsed in
  let progress := if elapsed >=? 120000 then 94%Q else progress in
  Math_round progress.

Definition errorMessage : string :=
  "Error fetching earthquake data. Please try again or refine your filters.".

Section ServiceOperations.

Context {DF : DateFns} {JS : JsBuiltins}.

Definition stopProgressSimulation (s : Service) : Service :=
  setProgressSimulation None s.

(** [startProgressSimulation]; [now] is the [startTime] of the interval. *)
Definition startProgressSimulation (now : Z) (s : Service) : Service :=
  setProgressSimulation (Some now) (stopProgressSimulation s).

(** The [finalize] callback of the request pipeline. *)
Definition finalizeRequest (s : Service) : Service :=
  setProgress 100 (setLoading false (stopProgressSimulation s)).

(** [cancelCurrentRequest].  [cancelSubject.next()] completes, through
    [takeUntil], the progress interval and the live request pipeline: the
    HTTP subscription is dropped and the pipeline's [finalize] runs. *)
Definition cancelCurrentRequest (s : Service) : Service :=
  let s :=
    match inflight s with
    | Some _ => finalizeRequest (setInflight None s)
    | None => s
    end in
  setLoading false (stopProgressSimulation s).

Definition isLargeDateRange (filters : EarthquakeFilters) : bool :=
  let startDate := parseISO (startTime filters) in
  let endDate := parseISO (endTime filters) in
  let daysDiff := differenceInDays endDate startDate in
  90 <? daysDiff.

Definition processResponse (response : EarthquakeResponse)
    (filters : EarthquakeFilters) (s : Service) : Service :=
  let earthquakes := features response in
  let s := setEarthquakes earthquakes s in
  let s := setSummary (Some (generateSummary earthquakes filters)) s in
  if (List.length earthquakes =? 0)%nat then toast ToastNoResults s
  else if Qgtb (inject_Z (Z.of_nat (List.length earthquakes))) (limit filters)
  then toast (ToastLimit (limit filters)) s
  else toast (ToastFound (List.length earthquakes)) s.

Definition processResponseInBatches (response : EarthquakeResponse)
    (filters : EarthquakeFilters) (s : Service) : Service :=
  let earthquakes := features response in
  if (List.length earthquakes <? BATCH_SIZE)%nat
  then processResponse response filters s
  else
    let s := toast (ToastBatches (List.length earthquakes)) s in
    let initialBatch := firstn 100 earthquakes in
    let initialResponse := {| features := initialBatch |} in
    let s := processResponse initialResponse filters s in
    setTimers (timers s ++ [StartBatches earthquakes filters]) s.

(** The closure [processNextBatch] of [processBatchesSequentially], with its
    captured counter as an argument. *)
Definition processNextBatch (earthquakes : list EarthquakeFeature)
    (filters : EarthquakeFilters) (totalBatches currentBatch : nat)
    (s : Service) : Service :=
  if (totalBatches <=? currentBatch)%nat then setProgress 100 s
  else
    let start := (currentBatch * BATCH_SIZE)%nat in
    let end_ := Nat.min (start + BATCH_SIZE) (List.length earthquakes) in
    let batchEarthquakes := firstn end_ earthquakes in
    let s := setEarthquakes batchEarthquakes s in
    let s :=
      if (currentBatch =? totalBatches - 1)%nat
      then setSummary (Some (generateSummary earthquakes filters)) s
      else s in
    let s :=
      setProgress
        (95 + Qfloor (inject_Z (Z.of_nat currentBatch)
                      / inject_Z (Z.of_nat totalBatches) * 5)%Q) s in
    setTimers
      (timers s ++ [NextBatch earthquakes filters totalBatches (S currentBatch)])
      s.

Definition processBatchesSequentially (earthquakes : list EarthquakeFeature)
    (filters : EarthquakeFilters) (s : Service) : Service :=
  let totalBatches :=
    Z.to_nat (Qceiling (inject_Z (Z.of_nat (List.length earthquakes))
                        / inject_Z (Z.of_nat BATCH_SIZE))%Q) in
  processNextBatch earthquakes filters totalBatches 0 s.

(** [fetchEarthquakes].  On a cache miss the request is made and its
    subscription recorded; the response comes later, as an event.  The call
    runs within one turn of the event loop: [now] serves both clock reads,
    of [getFromCache] and of [startProgressSimulation]. *)
Definition fetchEarthquakes (filters : EarthquakeFilters) (now : Z)
    (s : Service) : Service :=
  let s := cancelCurrentRequest s in
  let s := setLoading true s in
  let s := setError None s in
  let s := setProgress 0 s in
  let cacheKey := createCacheKey filters in
  let (cachedData, store') := getFromCache cacheKey now (store s) in
  let s := setStore store' s in
  match cachedData with
  | Some cachedData =>
      let s := processResponse cachedData filters s in
      let s := setProgress 100 s in
      let s := setLoading false s in
      toast ToastCacheHit s
  | None =>
      let s := if isLargeDateRange filters then toast ToastLargeRange s else s in
      let s := startProgressSimulation now s in
      let params := buildRequestParams filters in
      let request :=
        {| req_id := issued s; req_params := params;
           req_key := cacheKey; req_filters := filters |} in
      setInflight (Some request) (setIssued (S (issued s)) s)
  end.

(** The [subscribe] callback of the request, followed by the completion of
    the HTTP observable, which runs [finalize]. *)
Definition onResponse (request : Request) (response : EarthquakeResponse)
    (nowCleanup nowSet : Z) (s : Service) : Service :=
  let s := stopProgressSimulation s in
  let s := setProgress 95 s in
  let s :=
    setStore (addToCache (req_key request) response nowCleanup nowSet (store s))
             s in
  let s := processResponseInBatches response (req_filters request) s in
  finalizeRequest (setInflight None s).

(** The [catchError] handler, followed by [finalize] as the rethrown error
    tears the pipeline down.  The pipeline has already left [cancelSubject]
    when the handler runs. *)
Definition onError (isTimeout : bool) (s : Service) : Service :=
  let s := setInflight None s in
  let s := stopProgressSimulation s in
  let s := setProgress 0 s in
  let s := setError (Some errorMessage) s in
  let s :=
    if isTimeout
    then cancelCurrentRequest (toast ToastTimeout s)
    else toast ToastFailed s in
  finalizeRequest s.

(** What the event loop can deliver to the service. *)
Inductive Event : Type :=
| FetchEarthquakes (filters : EarthquakeFilters) (now : Z)
| CancelCurrentRequest
| HttpResponse (rid : nat) (response : EarthquakeResponse)
               (nowCleanup nowSet : Z)
| HttpFailure (rid : nat) (isTimeout : bool)
| ProgressTick (now : Z)
| CacheCleanupTick (now : Z)
| TimerFires (n : nat).

(** Is [rid] the request whose subscription is live? *)
Definition subscribed (rid : nat) (s : Service) : option Request :=
  match inflight s with
  | Some request => if (req_id request =? rid)%nat then Some request else None
  | None => None
  end.

Definition runTimer (task : TimerTask) (s : Service) : Service :=
  match task with
  | StartBatches earthquakes filters =>
      processBatchesSequentially earthquakes filters s
  | NextBatch earthquakes filters totalBatches currentBatch =>
      processNextBatch earthquakes filters totalBatches currentBatch s
  end.

(** Removes the [n]-th pending timer. *)
Fixpoint dropNth {A : Type} (n : nat) (l : list A) : list A :=
  match n, l with
  | _, [] => []
  | O, _ :: l' => l'
  | S n', x :: l' => x :: dropNth n' l'
  end.

(** One turn of the event loop.  A notification of an HTTP call reaches the
    service only through a live subscription. *)
Definition step (s : Service) (e : Event) : Service :=
  match e with
  | FetchEarthquakes filters now => fetchEarthquakes filters now s
  | CancelCurrentRequest => cancelCurrentRequest s
  | HttpResponse rid response nowCleanup nowSet =>
      match subscribed rid s with
      | Some request => onResponse request response nowCleanup nowSet s
      | None => s
      end
  | HttpFailure rid isTimeout =>
      match subscribed rid s with
      | Some _ => onError isTimeout s
      | None => s
      end
  | ProgressTick now =>
      match progressSimulation s with
      | Some started => setProgress (simulatedProgress (now - started)) s
      | None => s
      end
  | CacheCleanupTick now => setStore (cleanupCache now (store s)) s
  | TimerFires n =>
      match nth_error (timers s) n with
      | Some task => runTimer task (setTimers (dropNth n (timers s)) s)
      | None => s
      end
  end.

Definition run (s : Service) (events : list Event) : Service :=
  fold_left step events s.

End ServiceOperations.


(** ** An instance of the library interfaces, for the examples

    Dates are day numbers since 1970-01-01 in UTC (proleptic Gregorian
    calendar); a response is taken to serialise to 200 characters plus 700
    per feature, the order of magnitude of a USGS feature. *)

Module Sample.

Definition digit (n : Z) : string :=
  String (ascii_of_nat (48 + Z.to_nat n)) EmptyString.

Definition pad2 (n : Z) : string := digit (n / 10) ++ digit (n mod 10).

Definition pad4 (n : Z) : string := pad2 (n / 100) ++ pad2 (n mod 100).

Definition digitValue (c : ascii) : Z := Z.of_nat (nat_of_ascii c) - 48.

Fixpoint numberOf (acc : Z) (s : string) : Z :=
  match s with
  | EmptyString => acc
  | String c s' => numberOf (acc * 10 + digitValue c) s'
  end.

Definition daysFromCivil (y m d : Z) : Z :=
  let y := if m <=? 2 then y - 1 else y in
  let era := y / 400 in
  let yoe := y - era * 400 in
  let mp := if 2 <? m then m - 3 else m + 9 in
  let doy := (153 * mp + 2) / 5 + d - 1 in
  let doe := yoe * 365 + yoe / 4 - yoe / 100 + doy in
  era * 146097 + doe - 719468.

Definition civilFromDays (z : Z) : Z * Z * Z :=
  let z := z + 719468 in
  let era := z / 146097 in
  let doe := z - era * 146097 in
  let yoe := (doe - doe / 1460 + doe / 36524 - doe / 146096) / 365 in
  let doy := doe - (365 * yoe + yoe / 4 - yoe / 100) in
  let mp := (5 * doy + 2) / 153 in
  let d := doy - (153 * mp + 2) / 5 + 1 in
  let m := if mp <? 10 then mp + 3 else mp - 9 in
  let y := yoe + era * 400 in
  (if m <=? 2 then y + 1 else y, m, d).

Definition parseDay (s : string) : Z :=
  daysFromCivil (numberOf 0 (substring 0 4 s)) (numberOf 0 (substring 5 2 s))
                (numberOf 0 (substring 8 2 s)).

Definition formatDay (z : Z) : string :=
  let '(y, m, d) := civilFromDays z in
  pad4 y ++ "-" ++ pad2 m ++ "-" ++ pad2 d.

#[export] Instance utcDates : DateFns :=
  {| Date := Z;
     parseISO := parseDay;
     newDate := fun ms => ms / 86400000;
     differenceInDays := fun later earlier => later - earlier;
     addDays := fun d n => d + n;
     format_yyyy_MM_dd := formatDay |}.

Definition showZ (z : Z) : string := NilZero.string_of_int (Z.to_int z).

Definition showQ (q : Q) : string :=
  let q := Qred q in
  if (Qden q =? 1)%positive then showZ (Qnum q)
  else showZ (Qnum q) ++ "/" ++ showZ (Zpos (Qden q)).

Definition showOpt (x : option Q) : string :=
  match x with Some q => showQ q | None => "null" end.

Definition showFilters (f : EarthquakeFilters) : string :=
  startTime f ++ "," ++ endTime f ++ "," ++ showQ (minMagnitude f) ++ ","
  ++ showOpt (maxMagnitude f) ++ "," ++ showOpt (minLatitude f) ++ ","
  ++ showOpt (maxLatitude f) ++ "," ++ showOpt (minLongitude f) ++ ","
  ++ showOpt (maxLongitude f) ++ "," ++ showQ (limit f) ++ ","
  ++ showQ (offset f).

#[export] Instance builtins : JsBuiltins :=
  {| Number_toString := showQ;
     JSON_stringify_filters := showFilters;
     JSON_stringify_length :=
       fun r => (200 + 700 * N.of_nat (List.length (features r)))%N |}.

Definition quake (name : string) (m : Q) (ms : Z) : EarthquakeFeature :=
  {| properties := {| mag := m; place := name; time := ms |}; id := name |}.

Definition filtersFor (from to : string) : EarthquakeFilters :=
  {| startTime := from; endTime := to; minMagnitude := 0;
     maxMagnitude := None; minLatitude := None; maxLatitude := None;
     minLongitude := None; maxLongitude := None; limit := 100; offset := 0 |}.

(** 2024-03-01T00:00:00Z in epoch milliseconds. *)
Definition march1 : Z := 1709251200000.

Definition threeQuakes : list EarthquakeFeature :=
  [ quake "a" 2.5 march1; quake "b" 6.1 (march1 + 1000);
    quake "c" 4.0 (march1 + 2000) ].

End Sample.


(** ** Vocabulary of the properties *)

Definition magnitude (eq : EarthquakeFeature) : Q := mag (properties eq).

(** No record of [l] is stronger than [s]. *)
Definition dominates (s : EarthquakeFeature) (l : list EarthquakeFeature)
  : Prop :=
  forall r, In r l -> (magnitude r <= magnitude s)%Q.

(** [s] stands in [l] at the first position that holds the maximum. *)
Definition firstMaximum (s : EarthquakeFeature) (l : list EarthquakeFeature)
  : Prop :=
  exists before after,
    l = (before ++ s :: after)%list
    /\ (forall r, In r before -> (magnitude r < magnitude s)%Q)
    /\ (forall r, In r after -> (magnitude r <= magnitude s)%Q).

(** [s] stands in [l] at the last position that holds the maximum. *)
Definition lastMaximum (s : EarthquakeFeature) (l : list EarthquakeFeature)
  : Prop :=
  exists before after,
    l = (before ++ s :: after)%list
    /\ (forall r, In r before -> (magnitude r <= magnitude s)%Q)
    /\ (forall r, In r after -> (magnitude r < magnitude s)%Q).

(** The buckets that hold a record. *)
Definition bucketsOf (eq : EarthquakeFeature) : list MagnitudeRange :=
  filter (fun range => in_range range eq) magnitudeRanges.

Definition bucketTotal (distribution : list (string * nat)) : nat :=
  list_sum (map snd distribution).

Definition nonNegative (eq : EarthquakeFeature) : bool :=
  Qle_bool 0 (magnitude eq).

Definition seriesTotal (series : list (string * nat)) : nat :=
  list_sum (map snd series).

(** [dateMap.get(day) || 0]. *)
Definition countOn (day : string) (dateMap : JsMap.t nat) : nat :=
  match JsMap.get day dateMap with Some c => c | None => 0%nat end.

Section FrequencyVocabulary.

Context {DF : DateFns}.

(** The number of records of [earthquakes] whose calendar day is [day]. *)
Definition recordsOn (day : string) (earthquakes : list EarthquakeFeature)
  : nat :=
  List.length (filter (fun eq => String.eqb (dayOf eq) day) earthquakes).

End FrequencyVocabulary.

(** The seeded map: unique days, all at zero. *)
Definition seeded (dateMap : JsMap.t nat) : Prop :=
  JsMap.wf dateMap /\ forall day, countOn day dateMap = 0%nat.

(** The sum of the [size] fields of the stored entries. *)
Definition sizeTotal (m : JsMap.t CacheEntry) : Z :=
  fold_right (fun e acc => size (snd e) + acc) 0 m.

(** The tracked total is the sum of the stored sizes, keys are unique and
    no size is negative. *)
Record consistent (c : Cache) : Prop := {
  consistent_wf : JsMap.wf (cache c);
  consistent_total : currentCacheSize c = sizeTotal (cache c);
  consistent_sizes : forall k e, In (k, e) (cache c) -> 0 <= size e
}.

Definition expired (now : Z) (entry : CacheEntry) : bool :=
  now - timestamp entry >? CACHE_DURATION.

(** The entries handed to a removal loop are entries of the cache, under
    distinct keys. *)
Definition current (entries : list (string * CacheEntry)) (c : Cache) : Prop :=
  NoDup (JsMap.keys entries)
  /\ forall k e, In (k, e) entries -> JsMap.get k (cache c) = Some e.

(** Operations on the cache, for sequences of calls. *)
Inductive CacheOp : Type :=
| OpAdd (key : string) (response : EarthquakeResponse) (nowCleanup nowSet : Z)
| OpGet (key : string) (now : Z)
| OpCleanup (now : Z).

Section CacheOperations.

Context {JS : JsBuiltins}.

Definition applyOp (c : Cache) (op : CacheOp) : Cache :=
  match op with
  | OpAdd key response nowCleanup nowSet =>
      addToCache key response nowCleanup nowSet c
  | OpGet key now => snd (getFromCache key now c)
  | OpCleanup now => cleanupCache now c
  end.

Definition runOps (c : Cache) (ops : list CacheOp) : Cache :=
  fold_left applyOp ops c.

(** Every [OpAdd] of the sequence is made with a key the cache does not
    hold at that moment. *)
Fixpoint freshKeys (c : Cache) (ops : list CacheOp) : bool :=
  match ops with
  | [] => true
  | op :: ops' =>
      match op with
      | OpAdd key _ _ _ => negb (JsMap.has key (cache c))
      | _ => true
      end
      && freshKeys (applyOp c op) ops'
  end.

End CacheOperations.

(** Payloads of the examples: [n] copies of one feature. *)
Definition responseOf (n : Z) : EarthquakeResponse :=
  {| features := repeat (Sample.quake "q" 5 Sample.march1) (Z.to_nat n) |}.

Definition bboxParams : list string :=
  ["minlatitude"; "maxlatitude"; "minlongitude"; "maxlongitude"].

(** All four bounding-box fields of the filter are present. *)
Definition bboxPresent (filters : EarthquakeFilters) : bool :=
  match minLatitude filters, maxLatitude filters,
        minLongitude filters, maxLongitude filters with
  | Some _, Some _, Some _, Some _ => true
  | _, _, _, _ => false
  end.

(** All four bounding-box fields are present and none of them is 0. *)
Definition bboxTruthy (filters : EarthquakeFilters) : bool :=
  truthy (minLatitude filters) && truthy (maxLatitude filters)
  && truthy (minLongitude filters) && truthy (maxLongitude filters).

(** A filter whose bounding box touches the equator. *)
Definition equatorFilters : EarthquakeFilters :=
  {| startTime := "2024-03-01"; endTime := "2024-03-31";
     minMagnitude := 3; maxMagnitude := None;
     minLatitude := Some 0%Q; maxLatitude := Some 10%Q;
     minLongitude := Some 20%Q; maxLongitude := Some 30%Q;
     limit := 100; offset := 0 |}.

(** Request [rid] has been made and its subscription is gone. *)
Definition retired (rid : nat) (s : Service) : Prop :=
  (rid < issued s)%nat
  /\ forall request, inflight s = Some request -> req_id request <> rid.


(** ** Magnitude classes

    [getMagnitudeColor], [getMagnitudeDescription] and [getMarkerRadius] of
    the service, [getColorForRange] of the magnitude chart
    ([magnitude-chart.component.ts]) and [getRowClass] of the table
    ([EarthquakeTableComponent]). *)

Definition getMagnitudeColor (magnitude : Q) : string :=
  if Qltb magnitude 2 then "#1976D2"
  else if Qltb magnitude 4 then "#43A047"
  else if Qltb magnitude 6 then "#FFC107"
  else if Qltb magnitude 8 then "#FF9800"
  else "#F44336".

Definition getMagnitudeDescription (magnitude : Q) : string :=
  if Qltb magnitude 2 then "Minor"
  else if Qltb magnitude 4 then "Light"
  else if Qltb magnitude 6 then "Moderate"
  else if Qltb magnitude 8 then "Strong"
  else "Major".

(** [Math.max(5, magnitude * 3)]. *)
Definition getMarkerRadius (magnitude : Q) : Q :=
  Math_max 5 (magnitude * 3).

(** The [switch] of [getColorForRange], with its [default]. *)
Definition getColorForRange (range : string) : string :=
  if String.eqb range "0-2" then "#1976D2"
  else if String.eqb range "2-4" then "#43A047"
  else if String.eqb range "4-6" then "#FFC107"
  else if String.eqb range "6-8" then "#FF9800"
  else if String.eqb range "8+" then "#F44336"
  else "#9E9E9E".

Definition getRowClass (earthquake : EarthquakeFeature) : string :=
  let magnitude := mag (properties earthquake) in
  if Qgeb magnitude 6 then "alert-danger"
  else if Qgeb magnitude 4.5 then "alert-warning"
  else EmptyString.


(** ** Vocabulary of the progress curve *)

(** Times strictly increasing, progress values not decreasing. *)
Fixpoint rising (curve : list (Z * Z)) : bool :=
  match curve with
  | current :: ((next :: _) as rest) =>
      (fst current <? fst next) && (snd current <=? snd next) && rising rest
  | _ => true
  end.

(** The last point of a curve. *)
Definition lastPoint (curve : list (Z * Z)) : Z * Z := last curve (0, 0).


(** ** Vocabulary of the batches *)

(** The number of batches of [processBatchesSequentially]. *)
Definition totalBatchesOf (earthquakes : list EarthquakeFeature) : nat :=
  Z.to_nat (Qceiling (inject_Z (Z.of_nat (List.length earthquakes))
                      / inject_Z (Z.of_nat BATCH_SIZE))%Q).

(** The timers that a batched response has pending: none, the start of the
    batches, or the next batch. *)
Definition batchTimers (earthquakes : list EarthquakeFeature)
    (filters : EarthquakeFilters) (pending : list TimerTask) : Prop :=
  pending = []
  \/ pending = [StartBatches earthquakes filters]
  \/ exists k,
       pending = [NextBatch earthquakes filters (totalBatchesOf earthquakes) k].


(** ** Vocabulary of the service invariants *)

Section ServiceVocabulary.

Context {JS : JsBuiltins}.

(** The loading flag is up exactly while a request is in flight, the
    progress simulation runs only then, the progress is a percentage, and
    the request in flight is the one its filter asks for. *)
Definition coherent (s : Service) : Prop :=
  (loadingSubject s = true <-> inflight s <> None)
  /\ (progressSimulation s <> None -> inflight s <> None)
  /\ 0 <= progressSubject s <= 100
  /\ forall request,
       inflight s = Some request ->
       (req_id request < issued s)%nat
       /\ req_key request = createCacheKey (req_filters request)
       /\ req_params request = buildRequestParams (req_filters request).

End ServiceVocabulary.


(** ** Vocabulary of the cleanup *)

Definition live (now : Z) (e : string * CacheEntry) : bool :=
  negb (expired now (snd e)).

Definition stale (now : Z) (e : string * CacheEntry) : bool :=
  expired now (snd e).

(** [a] was stored no later than [b]. *)
Definition notLater (a b : string * CacheEntry) : Prop :=
  timestamp (snd a) <= timestamp (snd b).


(** ** The markers of the map ([earthquake-map.component.ts])

    The choice of the records that [renderMarkers] turns into markers. *)

Definition MARKER_LIMIT_WITHOUT_CLUSTERING : nat := 1000.

(** [earthquakes.filter((_, index) => index % samplingRate === 0)], with the
    index of the first element as an argument. *)
Fixpoint sampleEvery (samplingRate index : Z)
    (earthquakes : list EarthquakeFeature) : list EarthquakeFeature :=
  match earthquakes with
  | [] => []
  | eq :: rest =>
      if index mod samplingRate =? 0
      then eq :: sampleEvery samplingRate (index + 1) rest
      else sampleEvery samplingRate (index + 1) rest
  end.

(** The value of [earthquakesToRender] when [renderMarkers] hands it to
    [processMarkerBatches]. *)
Definition earthquakesToRender (enableClustering : bool)
    (earthquakes : list EarthquakeFeature) : list EarthquakeFeature :=
  if negb enableClustering
     && (MARKER_LIMIT_WITHOUT_CLUSTERING <? List.length earthquakes)%nat
  then
    let samplingRate :=
      Qceiling (inject_Z (Z.of_nat (List.length earthquakes))
                / inject_Z (Z.of_nat MARKER_LIMIT_WITHOUT_CLUSTERING))%Q in
    sampleEvery samplingRate 0 earthquakes
  else earthquakes.


(** ** The performance monitor ([PerformanceMonitorService])

    [performance.now()] and [new Date()] are arguments; the [timers] object
    is a map from operation names to start times. *)

Record PerformanceMetrics : Type := {
  dataLoadTime : Q;     (* ms *)
  renderTime : Q;       (* ms *)
  memoryUsage : Q;      (* bytes *)
  dataSize : Q;         (* bytes *)
  lastUpdated : Z
}.

Record PerformanceMonitor : Type := {
  metricsSubject : PerformanceMetrics;
  operationTimers : JsMap.t Q
}.

Definition startTimer (operation : string) (now : Q) (s : PerformanceMonitor)
  : PerformanceMonitor :=
  {| metricsSubject := metricsSubject s;
     operationTimers := JsMap.set operation now (operationTimers s) |}.

(** The [switch] of [endTimer] on the operation. *)
Definition recordDuration (operation : string) (duration : Q)
    (size : option Q) (m : PerformanceMetrics) : PerformanceMetrics :=
  if String.eqb operation "dataLoad" then
    {| dataLoadTime := duration;
       renderTime := renderTime m;
       memoryUsage := memoryUsage m;
       dataSize := match size with
                   | Some sz => if truthy size then sz else dataSize m
                   | None => dataSize m
                   end;
       lastUpdated := lastUpdated m |}
  else if String.eqb operation "render" then
    {| dataLoadTime := dataLoadTime m;
       renderTime := duration;
       memoryUsage := memoryUsage m;
       dataSize := dataSize m;
       lastUpdated := lastUpdated m |}
  else m.

(** [endTimer]: the returned duration and the monitor after the call.  A
    start time that is missing or 0 is falsy: "no timer started". *)
Definition endTimer (operation : string) (size : option Q) (now : Q)
    (today : Z) (s : PerformanceMonitor) : Q * PerformanceMonitor :=
  if truthy (JsMap.get operation (operationTimers s)) then
    match JsMap.get operation (operationTimers s) with
    | Some started =>
        let duration := (now - started)%Q in
        let currentMetrics :=
          recordDuration operation duration size (metricsSubject s) in
        let currentMetrics :=
          {| dataLoadTime := dataLoadTime currentMetrics;
             renderTime := renderTime currentMetrics;
             memoryUsage := memoryUsage currentMetrics;
             dataSize := dataSize currentMetrics;
             lastUpdated := today |} in
        (duration,
         {| metricsSubject := currentMetrics;
            operationTimers := JsMap.delete operation (operationTimers s) |})
    | None => (0%Q, s)
    end
  else (0%Q, s).

Definition genericRecommendation : string :=
  "For best performance with large datasets, use specific date ranges and geographic filters.".

Definition getPerformanceRecommendations (metrics : PerformanceMetrics)
  : list string :=
  let recommendations : list string := [] in
  let recommendations :=
    if Qgtb (dataLoadTime metrics) 10000 then
      (recommendations
       ++ ["This query took a long time. Consider reducing the date range significantly."])%list
    else if Qgtb (dataLoadTime metrics) 5000 then
      (recommendations
       ++ ["For faster loading, try reducing the date range or adding geographic filters."])%list
    else if Qgtb (dataLoadTime metrics) 3000 then
      (recommendations
       ++ ["To improve load times, use more specific search criteria."])%list
    else recommendations in
  let recommendations :=
    if Qgtb (dataSize metrics) (10 * 1024 * 1024) then
      (recommendations
       ++ ["Very large dataset detected. This may impact browser performance."])%list
    else if Qgtb (dataSize metrics) (5 * 1024 * 1024) then
      (recommendations
       ++ ["Large dataset loaded. For better performance, narrow your search criteria."])%list
    else recommendations in
  let recommendations :=
    if Qgtb (renderTime metrics) 2000 then
      (recommendations
       ++ ["Map rendering is slow. Enable clustering for better performance with large datasets."])%list
    else if Qgtb (renderTime metrics) 1000 then
      (recommendations
       ++ ["For smoother map interaction, try enabling clustering."])%list
    else recommendations in
  let recommendations :=
    if Qgtb (memoryUsage metrics) (200 * 1024 * 1024) then
      (recommendations
       ++ ["High memory usage detected. Consider refreshing the browser."])%list
    else if Qgtb (memoryUsage metrics) (100 * 1024 * 1024) then
      (recommendations
       ++ ["Memory usage is increasing. You may need to refresh the browser after several large queries."])%list
    else recommendations in
  if (List.length recommendations =? 0)%nat
  then (recommendations ++ [genericRecommendation])%list
  else recommendations.


(** ** Sanity checks of the embedding on concrete inputs *)

Example formatDay_epoch : Sample.formatDay 0 = "1970-01-01".
Proof. reflexivity. Qed.

Example parseDay_march1 :
  Sample.formatDay (Sample.parseDay "2024-03-01") = "2024-03-01"
  /\ Sample.parseDay "2024-03-01" * 86400000 = Sample.march1.
Proof. split; reflexivity. Qed.

(** The scenario of the specification: three events of magnitudes 2.5, 6.1
    and 4.0 on one day. *)
Example summary_threeQuakes :
  let s := generateSummary (DF := Sample.utcDates) Sample.threeQuakes
             (Sample.filtersFor "2024-03-01" "2024-03-01") in
  count s = 3%nat
  /\ Qred (averageMagnitude s) = (21 # 5)%Q
  /\ option_map id (strongestEarthquake s) = Some "b"
  /\ frequencyPerDay s = [("2024-03-01", 3%nat)]
  /\ magnitudeDistribution s
     = [("0-2", 0); ("2-4", 1); ("4-6", 1); ("6-8", 1); ("8+", 0)]%nat.
Proof. vm_compute. repeat split; reflexivity. Qed.

(** A span of 200 days is sampled every [ceil(200 / 90) = 3] days: 67 seeded
    days, and a record on an unseeded day gets a bucket of its own. *)
Example sampled_span :
  let s := generateSummary (DF := Sample.utcDates)
             [Sample.quake "x" 5 (Sample.march1 + 86400000)]
             (Sample.filtersFor "2024-03-01" "2024-09-17") in
  List.length (frequencyPerDay s) = 68%nat
  /\ JsMap.get "2024-03-02" (frequencyPerDay s) = Some 1%nat
  /\ JsMap.get "2024-03-04" (frequencyPerDay s) = Some 0%nat.
Proof. vm_compute. repeat split; reflexivity. Qed.


(** [cleanupCache] on a cache over its budget (three entries of 20 MB):
    nothing is older than the TTL at time 40, the oldest entry goes and the
    loop stops at 40 MB, under 80 % of the budget; at time 1 800 025 the two
    entries stored at 10 and 20 have expired. *)
Example cleanup_evicts_oldest_first :
  let entry ts :=
    {| data := {| features := [] |}; timestamp := ts; size := 20000000 |} in
  let c := {| cache := [("a", entry 30); ("b", entry 10); ("c", entry 20)];
              currentCacheSize := 60000000 |} in
  JsMap.keys (cache (cleanupCache 40 c)) = ["a"; "c"]
  /\ currentCacheSize (cleanupCache 40 c) = 40000000
  /\ JsMap.keys (cache (cleanupCache 1800025 c)) = ["a"]
  /\ currentCacheSize (cleanupCache 1800025 c) = 20000000.
Proof. vm_compute. repeat split; reflexivity. Qed.

(** The request of a filter whose four bounds are all non-zero carries the
    bounding box, after the seven fixed parameters. *)
Example params_with_bounding_box :
  JsMap.keys
    (buildRequestParams (JS := Sample.builtins)
       {| startTime := "2024-03-01"; endTime := "2024-03-31";
          minMagnitude := 3; maxMagnitude := Some 7%Q;
          minLatitude := Some (-5)%Q; maxLatitude := Some 10%Q;
          minLongitude := Some 20%Q; maxLongitude := Some 30%Q;
          limit := 100; offset := 0 |})
  = [ "format"; "starttime"; "endtime"; "minmagnitude"; "limit"; "offset";
      "orderby"; "maxmagnitude"; "minlatitude"; "maxlatitude";
      "minlongitude"; "maxlongitude" ].
Proof. reflexivity. Qed.

(** ** Facts about [JsMap] *)

Module JsMapFacts.

Section WithValue.

Context {V : Type}.

Implicit Types (m : JsMap.t V) (k : string) (v : V).

Lemma get_set_same k v m : JsMap.get k (JsMap.set k v m) = Some v.
Proof.
  induction m as [|[k' v'] m IH]; simpl.
  - now rewrite String.eqb_refl.
  - destruct (String.eqb k k') eqn:E; simpl; rewrite ?E, ?String.eqb_refl; auto.
Qed.

Lemma get_set_other k k' v m :
  k <> k' -> JsMap.get k (JsMap.set k' v m) = JsMap.get k m.
Proof.
  intros Hne. apply String.eqb_neq in Hne.
  induction m as [|[k0 v0] m IH]; simpl.
  - now rewrite Hne.
  - destruct (String.eqb k' k0) eqn:E; simpl.
    + apply String.eqb_eq in E; subst k0. now rewrite Hne.
    + now rewrite IH.
Qed.

Lemma get_none_not_in k m : JsMap.get k m = None <-> ~ In k (JsMap.keys m).
Proof.
  induction m as [|[k' v'] m IH]; simpl.
  - tauto.
  - destruct (String.eqb k k') eqn:E.
    + apply String.eqb_eq in E; subst. split; [discriminate | tauto].
    + apply String.eqb_neq in E. rewrite IH. split; intros H.
      * intros [->|?]; tauto.
      * tauto.
Qed.

Lemma get_some_in k v m : JsMap.get k m = Some v -> In (k, v) m.
Proof.
  induction m as [|[k' v'] m IH]; simpl; [discriminate|].
  destruct (String.eqb k k') eqn:E.
  - apply String.eqb_eq in E; subst. intros [= ->]. now left.
  - auto.
Qed.

Lemma in_get_wf k v m : JsMap.wf m -> In (k, v) m -> JsMap.get k m = Some v.
Proof.
  unfold JsMap.wf, JsMap.keys.
  induction m as [|[k' v'] m IH]; simpl; [tauto|].
  intros Hnd [Heq|Hin]; inversion Hnd; subst.
  - inversion Heq; subst. now rewrite String.eqb_refl.
  - destruct (String.eqb k k') eqn:E; auto.
    apply String.eqb_eq in E; subst.
    exfalso. apply H1. now apply (in_map fst) in Hin.
Qed.

Lemma keys_delete_subset k k' m :
  In k (JsMap.keys (JsMap.delete k' m)) -> In k (JsMap.keys m).
Proof.
  induction m as [|[k0 v0] m IH]; simpl; auto.
  destruct (String.eqb k' k0); simpl; tauto.
Qed.

Lemma in_delete k' m (e : string * V) :
  In e (JsMap.delete k' m) -> In e m.
Proof.
  induction m as [|[k0 v0] m IH]; simpl; auto.
  destruct (String.eqb k' k0); simpl; tauto.
Qed.

Lemma wf_delete k m : JsMap.wf m -> JsMap.wf (JsMap.delete k m).
Proof.
  unfold JsMap.wf.
  induction m as [|[k0 v0] m IH]; simpl; auto.
  intros Hnd. inversion Hnd; subst.
  destruct (String.eqb k k0); simpl; auto.
  constructor; auto. intros Hin. apply H1. eapply keys_delete_subset; eauto.
Qed.

Lemma get_delete_same k m : JsMap.wf m -> JsMap.get k (JsMap.delete k m) = None.
Proof.
  unfold JsMap.wf.
  induction m as [|[k0 v0] m IH]; simpl; auto.
  intros Hnd. inversion Hnd; subst.
  destruct (String.eqb k k0) eqn:E; simpl.
  - apply String.eqb_eq in E; subst. now apply get_none_not_in.
  - rewrite E. auto.
Qed.

Lemma get_delete_other k k' m :
  k <> k' -> JsMap.get k (JsMap.delete k' m) = JsMap.get k m.
Proof.
  intros Hne.
  induction m as [|[k0 v0] m IH]; simpl; auto.
  destruct (String.eqb k' k0) eqn:E; simpl.
  - apply String.eqb_eq in E; subst. apply String.eqb_neq in Hne. now rewrite Hne.
  - now rewrite IH.
Qed.

Lemma keys_set k v m :
  JsMap.keys (JsMap.set k v m)
  = if JsMap.has k m then JsMap.keys m else (JsMap.keys m ++ [k])%list.
Proof.
  unfold JsMap.has.
  induction m as [|[k0 v0] m IH]; simpl; auto.
  destruct (String.eqb k k0) eqn:E; simpl.
  - apply String.eqb_eq in E; now subst.
  - rewrite IH. now destruct (JsMap.get k m).
Qed.

Lemma wf_set k v m : JsMap.wf m -> JsMap.wf (JsMap.set k v m).
Proof.
  unfold JsMap.wf. intros Hnd. rewrite keys_set. unfold JsMap.has.
  destruct (JsMap.get k m) eqn:E; auto.
  apply get_none_not_in in E.
  apply NoDup_app; auto.
  - constructor; [tauto | constructor].
  - intros x Hx [<-|[]]. tauto.
Qed.

Lemma set_absent k v m : JsMap.get k m = None -> JsMap.set k v m = (m ++ [(k, v)])%list.
Proof.
  induction m as [|[k0 v0] m IH]; simpl; auto.
  destruct (String.eqb k k0); [discriminate|].
  intros H. now rewrite IH.
Qed.

End WithValue.

End JsMapFacts.

(** ** Comparisons of numbers *)

Lemma Qgtb_true a b : Qgtb a b = true <-> (b < a)%Q.
Proof.
  unfold Qgtb. rewrite negb_true_iff.
  split; intros H.
  - apply Qnot_le_lt. intros Hle. apply Qle_bool_iff in Hle. congruence.
  - destruct (Qle_bool a b) eqn:E; auto.
    apply Qle_bool_iff in E. exfalso. eapply Qlt_not_le; eauto.
Qed.

Lemma Qgtb_false a b : Qgtb a b = false <-> (a <= b)%Q.
Proof.
  unfold Qgtb. rewrite negb_false_iff. apply Qle_bool_iff.
Qed.

Lemma Qltb_true a b : Qltb a b = true <-> (a < b)%Q.
Proof. apply Qgtb_true. Qed.

Lemma Qgeb_true a b : Qgeb a b = true <-> (b <= a)%Q.
Proof. apply Qle_bool_iff. Qed.

(** ** The strongest earthquake *)

Lemma stronger_cases strongest current :
  (stronger strongest current = strongest
   /\ (magnitude current < magnitude strongest)%Q)
  \/ (stronger strongest current = current
      /\ (magnitude strongest <= magnitude current)%Q).
Proof.
  unfold stronger, magnitude.
  destruct (Qgtb (mag (properties strongest)) (mag (properties current))) eqn:E.
  - left. split; auto. now apply Qgtb_true.
  - right. split; auto. now apply Qgtb_false.
Qed.

(** The loop invariant of the reduction: the accumulator is the last maximum
    of the part of the array already visited. *)
Lemma reduce_stronger_last xs :
  forall before acc after,
    (forall r, In r before -> (magnitude r <= magnitude acc)%Q) ->
    (forall r, In r after -> (magnitude r < magnitude acc)%Q) ->
    lastMaximum (fold_left stronger xs acc)
                (before ++ acc :: after ++ xs)%list.
Proof.
  induction xs as [|y ys IH]; intros before acc after Hb Ha; simpl.
  - exists before, after. now rewrite app_nil_r.
  - destruct (stronger_cases acc y) as [[-> Hlt]|[-> Hle]].
    + replace (before ++ acc :: after ++ y :: ys)%list
        with (before ++ acc :: (after ++ [y]) ++ ys)%list
        by now rewrite <- app_assoc.
      apply IH; auto.
      intros r Hr. apply in_app_or in Hr as [Hr|[<-|[]]]; auto.
    + replace (before ++ acc :: after ++ y :: ys)%list
        with ((before ++ acc :: after) ++ y :: [] ++ ys)%list
        by now rewrite <- app_assoc.
      apply IH; [|intros r []].
      intros r Hr. apply in_app_or in Hr as [Hr|[<-|Hr]]; auto.
      * eapply Qle_trans; eauto.
      * apply Qlt_le_weak. eapply Qlt_le_trans; eauto.
Qed.

Lemma lastMaximum_dominates s l : lastMaximum s l -> dominates s l.
Proof.
  intros (before & after & -> & Hb & Ha) r Hr.
  apply in_app_or in Hr as [Hr|[<-|Hr]]; auto.
  - apply Qle_refl.
  - now apply Qlt_le_weak, Ha.
Qed.

(** C1, as the code has it.  For every non-empty list of records the
    summary's strongest earthquake has a magnitude greater than or equal to
    that of every record of the list, and when several records share the
    maximum magnitude the strongest is the LAST of them in input order: the
    reduction keeps its accumulator only when it is strictly greater than
    the current record. *)
Theorem strongest_is_last_maximum (DF : DateFns)
    (earthquakes : list EarthquakeFeature) (filters : EarthquakeFilters) :
  earthquakes <> [] ->
  exists s,
    strongestEarthquake (generateSummary earthquakes filters) = Some s
    /\ dominates s earthquakes
    /\ lastMaximum s earthquakes.
Proof.
  intros Hne. destruct earthquakes as [|first rest]; [congruence|].
  exists (reduce1 stronger first rest). simpl.
  assert (Hlast : lastMaximum (reduce1 stronger first rest) (first :: rest)).
  { apply (reduce_stronger_last rest [] first []); intros r []. }
  split; [reflexivity|]. split; auto using lastMaximum_dominates.
Qed.

Lemma strongest_is_last_maximum_witness :
  [Sample.quake "a" 5 0; Sample.quake "b" 5 0] <> []
  /\ exists s,
       strongestEarthquake
         (generateSummary (DF := Sample.utcDates)
            [Sample.quake "a" 5 0; Sample.quake "b" 5 0]
            (Sample.filtersFor "2024-03-01" "2024-03-01")) = Some s
       /\ dominates s [Sample.quake "a" 5 0; Sample.quake "b" 5 0]
       /\ lastMaximum s [Sample.quake "a" 5 0; Sample.quake "b" 5 0].
Proof.
  split; [discriminate|].
  apply (strongest_is_last_maximum Sample.utcDates). discriminate.
Defined.

(** C1 as stated fails: of two records of magnitude 5 the summary reports
    the second, which is not the first record holding the maximum. *)
Lemma strongest_tie_takes_last :
  let a := Sample.quake "a" 5 0 in
  let b := Sample.quake "b" 5 0 in
  strongestEarthquake
    (generateSummary (DF := Sample.utcDates) [a; b]
       (Sample.filtersFor "2024-03-01" "2024-03-01")) = Some b
  /\ ~ firstMaximum b [a; b].
Proof.
  split; [reflexivity|].
  intros (before & after & Heq & Hb & _).
  destruct before as [|x before].
  - simpl in Heq. inversion Heq.
  - inversion Heq; subst x.
    specialize (Hb (Sample.quake "a" 5 0) (or_introl eq_refl)).
    vm_compute in Hb. discriminate.
Qed.

(** ** The magnitude histogram *)

Lemma Qle_bool_false a b : Qle_bool a b = false -> (b < a)%Q.
Proof.
  intros H. apply Qnot_le_lt. intros Hle. apply Qle_bool_iff in Hle. congruence.
Qed.

(** A record is in one bucket when its magnitude is at least 0 and in none
    otherwise. *)
Lemma bucketsOf_length eq :
  List.length (bucketsOf eq) = if nonNegative eq then 1%nat else 0%nat.
Proof.
  unfold bucketsOf, nonNegative, magnitudeRanges, in_range, Qgeb, Qltb,
    magnitude.
  cbn [filter range_min range_max].
  set (m := mag (properties eq)).
  change (Qeq_bool 2 10) with false. change (Qeq_bool 4 10) with false.
  change (Qeq_bool 6 10) with false. change (Qeq_bool 8 10) with false.
  change (Qeq_bool 10 10) with true.
  destruct (Qle_bool 0 m) eqn:E0; destruct (Qle_bool 2 m) eqn:E2;
    destruct (Qle_bool 4 m) eqn:E4; destruct (Qle_bool 6 m) eqn:E6;
    destruct (Qle_bool 8 m) eqn:E8; cbn; try reflexivity; exfalso;
    repeat match goal with
      | H : Qle_bool _ _ = true |- _ => apply Qle_bool_iff in H
      | H : Qle_bool _ _ = false |- _ => apply Qle_bool_false in H
      end; lra.
Qed.

Lemma countsOver_cons (ranges : list MagnitudeRange) eq earthquakes :
  list_sum
    (map snd
       (map (fun range =>
               (range_label range,
                List.length (filter (in_range range) (eq :: earthquakes))))
            ranges))
  = (List.length (filter (fun range => in_range range eq) ranges)
     + list_sum
         (map snd
            (map (fun range =>
                    (range_label range,
                     List.length (filter (in_range range) earthquakes)))
                 ranges)))%nat.
Proof.
  induction ranges as [|range ranges IH]; [reflexivity|].
  simpl in *. rewrite IH.
  destruct (in_range range eq); simpl; lia.
Qed.

Lemma bucketTotal_cons eq earthquakes :
  bucketTotal (magnitudeDistributionOf (eq :: earthquakes))
  = (List.length (bucketsOf eq)
     + bucketTotal (magnitudeDistributionOf earthquakes))%nat.
Proof. apply countsOver_cons. Qed.

(** The bucket counts add up to the number of records of magnitude at
    least 0. *)
Lemma bucketTotal_nonNegative earthquakes :
  bucketTotal (magnitudeDistributionOf earthquakes)
  = List.length (filter nonNegative earthquakes).
Proof.
  induction earthquakes as [|eq earthquakes IH].
  - reflexivity.
  - rewrite bucketTotal_cons, bucketsOf_length, IH. simpl.
    destruct (nonNegative eq); reflexivity.
Qed.

Lemma filter_all {A : Type} (p : A -> bool) (l : list A) :
  (forall x, In x l -> p x = true) -> filter p l = l.
Proof.
  induction l as [|x l IH]; simpl; intros H; auto.
  rewrite (H x) by auto. f_equal. auto.
Qed.

(** C2, as the code has it.  For every non-empty list of records whose
    magnitudes are all at least 0, each record falls into exactly one of the
    five buckets [0,2), [2,4), [4,6), [6,8), [8,oo), and the five bucket
    counts add up to the record count.  (The first bucket is bounded below
    by 0: a record of negative magnitude is in no bucket.) *)
Theorem histogram_partitions_nonnegative (DF : DateFns)
    (earthquakes : list EarthquakeFeature) (filters : EarthquakeFilters) :
  earthquakes <> [] ->
  (forall eq, In eq earthquakes -> (0 <= magnitude eq)%Q) ->
  (forall eq, In eq earthquakes -> List.length (bucketsOf eq) = 1%nat)
  /\ bucketTotal (magnitudeDistribution (generateSummary earthquakes filters))
     = count (generateSummary earthquakes filters).
Proof.
  intros Hne Hpos.
  assert (Hall : forall eq, In eq earthquakes -> nonNegative eq = true).
  { intros eq Hin. apply Qle_bool_iff. auto. }
  split.
  - intros eq Hin. rewrite bucketsOf_length, Hall; auto.
  - destruct earthquakes as [|first rest]; [congruence|].
    cbn [generateSummary magnitudeDistribution count].
    rewrite bucketTotal_nonNegative, filter_all; auto.
Qed.

Lemma histogram_partitions_nonnegative_witness :
  Sample.threeQuakes <> []
  /\ (forall eq, In eq Sample.threeQuakes -> (0 <= magnitude eq)%Q)
  /\ (forall eq, In eq Sample.threeQuakes
                 -> List.length (bucketsOf eq) = 1%nat)
  /\ bucketTotal
       (magnitudeDistribution
          (generateSummary (DF := Sample.utcDates) Sample.threeQuakes
             (Sample.filtersFor "2024-03-01" "2024-03-01")))
     = count
         (generateSummary (DF := Sample.utcDates) Sample.threeQuakes
            (Sample.filtersFor "2024-03-01" "2024-03-01")).
Proof.
  assert (Hne : Sample.threeQuakes <> []) by discriminate.
  assert (Hpos : forall eq, In eq Sample.threeQuakes -> (0 <= magnitude eq)%Q).
  { intros eq [<-|[<-|[<-|[]]]]; vm_compute; discriminate. }
  split; [exact Hne|]. split; [exact Hpos|].
  exact (histogram_partitions_nonnegative Sample.utcDates Sample.threeQuakes
           (Sample.filtersFor "2024-03-01" "2024-03-01") Hne Hpos).
Defined.

(** C2 as stated fails: a record of magnitude -1/2 is in none of the five
    buckets, and the bucket counts of a summary of that record alone add up
    to 0, not to the record count 1. *)
Lemma histogram_misses_negative_magnitude :
  let eq := Sample.quake "micro" (-1 # 2) Sample.march1 in
  let s := generateSummary (DF := Sample.utcDates) [eq]
             (Sample.filtersFor "2024-03-01" "2024-03-01") in
  bucketsOf eq = []
  /\ bucketTotal (magnitudeDistribution s) = 0%nat
  /\ count s = 1%nat.
Proof. vm_compute. repeat split; reflexivity. Qed.

(** ** The per-day frequency series *)

Section Frequency.

Context {DF : DateFns}.

Lemma seriesTotal_set day v (dateMap : JsMap.t nat) :
  (seriesTotal (JsMap.set day v dateMap) + countOn day dateMap
   = seriesTotal dateMap + v)%nat.
Proof.
  unfold seriesTotal, countOn.
  induction dateMap as [|[k c] dateMap IH]; simpl.
  - lia.
  - destruct (String.eqb day k) eqn:E; simpl; lia.
Qed.

(** One record adds one to the series ... *)
Lemma countDay_total dateMap eq :
  seriesTotal (countDay dateMap eq) = S (seriesTotal dateMap).
Proof.
  unfold countDay.
  pose proof (seriesTotal_set (dayOf eq) (countOn (dayOf eq) dateMap + 1)
                dateMap) as H.
  unfold countOn in *. lia.
Qed.

(** ... in the bucket of its own day, and in no other. *)
Lemma countDay_get dateMap eq day :
  JsMap.get day (countDay dateMap eq)
  = if String.eqb (dayOf eq) day
    then Some (S (countOn day dateMap))
    else JsMap.get day dateMap.
Proof.
  unfold countDay.
  destruct (String.eqb (dayOf eq) day) eqn:E.
  - apply String.eqb_eq in E; subst day.
    rewrite JsMapFacts.get_set_same. unfold countOn. f_equal. lia.
  - apply String.eqb_neq in E. apply JsMapFacts.get_set_other. congruence.
Qed.

Lemma forEach_total earthquakes :
  forall dateMap,
    seriesTotal (fold_left countDay earthquakes dateMap)
    = (seriesTotal dateMap + List.length earthquakes)%nat.
Proof.
  induction earthquakes as [|eq earthquakes IH]; intros dateMap; simpl.
  - lia.
  - rewrite IH, countDay_total. lia.
Qed.

Lemma forEach_get earthquakes day :
  forall dateMap,
    JsMap.get day (fold_left countDay earthquakes dateMap)
    = if (recordsOn day earthquakes =? 0)%nat
      then JsMap.get day dateMap
      else Some (countOn day dateMap + recordsOn day earthquakes)%nat.
Proof.
  unfold recordsOn.
  induction earthquakes as [|eq earthquakes IH]; intros dateMap; simpl.
  - reflexivity.
  - rewrite IH. unfold countOn at 1. rewrite countDay_get.
    destruct (String.eqb (dayOf eq) day) eqn:E; simpl.
    + destruct (List.length _ =? 0)%nat eqn:E0.
      * apply Nat.eqb_eq in E0. rewrite E0. f_equal. lia.
      * f_equal. lia.
    + reflexivity.
Qed.

Lemma forEach_wf earthquakes :
  forall dateMap,
    JsMap.wf dateMap -> JsMap.wf (fold_left countDay earthquakes dateMap).
Proof.
  induction earthquakes as [|eq earthquakes IH]; intros dateMap Hwf; simpl; auto.
  apply IH. now apply JsMapFacts.wf_set.
Qed.

Lemma seeded_total dateMap : seeded dateMap -> seriesTotal dateMap = 0%nat.
Proof.
  intros [Hwf Hzero]. unfold seriesTotal.
  assert (H : forall day c, In (day, c) dateMap -> c = 0%nat).
  { intros day c Hin. specialize (Hzero day). unfold countOn in Hzero.
    now rewrite (JsMapFacts.in_get_wf _ _ _ Hwf Hin) in Hzero. }
  clear Hwf Hzero.
  induction dateMap as [|[k c] dateMap IH]; simpl; auto.
  rewrite (H k c) by now left. apply IH. intros day c' Hin.
  apply (H day). now right.
Qed.

Lemma seeded_set day dateMap :
  seeded dateMap -> seeded (JsMap.set day 0%nat dateMap).
Proof.
  intros [Hwf Hzero]. split; [now apply JsMapFacts.wf_set|].
  intros day'. unfold countOn.
  destruct (String.eqb day' day) eqn:E.
  - apply String.eqb_eq in E; subst. now rewrite JsMapFacts.get_set_same.
  - apply String.eqb_neq in E. rewrite JsMapFacts.get_set_other by auto.
    apply Hzero.
Qed.

Lemma seedDays_seeded fuel startDate daysDiff sampleInterval :
  forall i dateMap,
    seeded dateMap ->
    seeded (seedDays fuel startDate daysDiff sampleInterval i dateMap).
Proof.
  induction fuel as [|fuel IH]; intros i dateMap Hs; simpl; auto.
  destruct (i <=? daysDiff); auto using seeded_set.
Qed.

(** The loop leaves by its guard, not for want of fuel: more fuel than
    [daysDiff - i + 1] changes nothing. *)
Lemma seedDays_fuel fuel startDate daysDiff sampleInterval :
  1 <= sampleInterval ->
  forall i dateMap extra,
    daysDiff - i + 1 <= Z.of_nat fuel ->
    seedDays (fuel + extra) startDate daysDiff sampleInterval i dateMap
    = seedDays fuel startDate daysDiff sampleInterval i dateMap.
Proof.
  intros Hstep.
  induction fuel as [|fuel IH]; intros i dateMap extra Hfuel.
  - destruct extra as [|extra]; simpl; auto.
    destruct (i <=? daysDiff) eqn:E; auto. apply Z.leb_le in E. lia.
  - simpl. destruct (i <=? daysDiff) eqn:E; auto.
    apply IH. lia.
Qed.

Lemma sampleIntervalOf_positive daysDiff : 1 <= sampleIntervalOf daysDiff.
Proof.
  unfold sampleIntervalOf.
  destruct (90 <? daysDiff) eqn:E; [|lia].
  apply Z.ltb_lt in E.
  assert (H : (inject_Z 0 < inject_Z daysDiff / 90)%Q).
  { apply Qlt_shift_div_l; [reflexivity|].
    rewrite Qmult_0_l. change 0%Q with (inject_Z 0).
    rewrite <- Zlt_Qlt. lia. }
  apply Qlt_le_weak in H.
  apply Qceiling_resp_le in H. rewrite Qceiling_Z in H.
  assert (Hne : Qceiling (inject_Z daysDiff / 90) <> 0).
  { intros H0.
    pose proof (Qle_ceiling (inject_Z daysDiff / 90)) as Hc.
    rewrite H0 in Hc.
    assert (Hpos : (0 < inject_Z daysDiff / 90)%Q).
    { apply Qlt_shift_div_l; [reflexivity|].
      rewrite Qmult_0_l. change 0%Q with (inject_Z 0).
      rewrite <- Zlt_Qlt. lia. }
    change (inject_Z 0) with 0%Q in Hc. lra. }
  lia.
Qed.

(** The fuel handed to [seedDays] by [frequencyPerDayOf] is enough: the
    seeding is the same with any more. *)
Lemma seeding_complete startDate daysDiff extra :
  seedDays (Z.to_nat (daysDiff + 1) + extra) startDate daysDiff
           (sampleIntervalOf daysDiff) 0 JsMap.empty
  = seedDays (Z.to_nat (daysDiff + 1)) startDate daysDiff
             (sampleIntervalOf daysDiff) 0 JsMap.empty.
Proof.
  apply seedDays_fuel; [apply sampleIntervalOf_positive | lia].
Qed.

End Frequency.

(** C6.  For every non-empty list of records and every filter, each record
    increments exactly one bucket of the per-day series, the bucket keyed by
    its own calendar day and created on demand when that day was not seeded,
    so the counts of the series add up to the record count, whatever the
    date span and the sampling interval (1, or ceil(span / 90) when the span
    exceeds 90 days). *)
Theorem frequency_counts_every_record (DF : DateFns)
    (earthquakes : list EarthquakeFeature) (filters : EarthquakeFilters) :
  earthquakes <> [] ->
  let series := frequencyPerDay (generateSummary earthquakes filters) in
  seriesTotal series = count (generateSummary earthquakes filters)
  /\ JsMap.wf series
  /\ (forall eq, In eq earthquakes ->
        JsMap.get (dayOf eq) series = Some (recordsOn (dayOf eq) earthquakes))
  /\ (forall day n, JsMap.get day series = Some n ->
        n = recordsOn day earthquakes)
  /\ (forall dateMap eq day,
        JsMap.get day (countDay dateMap eq)
        = if String.eqb (dayOf eq) day
          then Some (S (countOn day dateMap))
          else JsMap.get day dateMap).
Proof.
  intros Hne. destruct earthquakes as [|first rest]; [congruence|].
  cbn [generateSummary frequencyPerDay count]. unfold frequencyPerDayOf.
  set (earthquakes := first :: rest) in *.
  set (startDate := parseISO (startTime filters)).
  set (daysDiff := differenceInDays (parseISO (endTime filters)) startDate).
  set (seeds := seedDays _ _ _ _ _ _).
  assert (Hseeds : seeded seeds).
  { apply seedDays_seeded. split; [constructor | reflexivity]. }
  assert (Hget : forall day,
             JsMap.get day (fold_left countDay earthquakes seeds)
             = if (recordsOn day earthquakes =? 0)%nat
               then JsMap.get day seeds
               else Some (recordsOn day earthquakes)).
  { intros day. rewrite forEach_get.
    destruct Hseeds as [_ Hzero]. now rewrite Hzero. }
  split; [|split; [|split; [|split]]].
  - rewrite forEach_total, seeded_total; auto.
  - apply forEach_wf, Hseeds.
  - intros eq Hin. rewrite Hget.
    destruct (recordsOn (dayOf eq) earthquakes =? 0)%nat eqn:E; auto.
    apply Nat.eqb_eq in E. unfold recordsOn in E.
    apply length_zero_iff_nil in E.
    assert (Hf : In eq (filter (fun e => String.eqb (dayOf e) (dayOf eq))
                          earthquakes)).
    { apply filter_In. split; auto. apply String.eqb_refl. }
    rewrite E in Hf. destruct Hf.
  - intros day n. rewrite Hget.
    destruct (recordsOn day earthquakes =? 0)%nat eqn:E.
    + apply Nat.eqb_eq in E. rewrite E. intros Hs.
      destruct Hseeds as [_ Hzero]. specialize (Hzero day).
      unfold countOn in Hzero. now rewrite Hs in Hzero.
    + now intros [= <-].
  - intros dateMap eq day. apply countDay_get.
Qed.

Lemma frequency_counts_every_record_witness :
  [Sample.quake "x" 5 (Sample.march1 + 86400000)] <> []
  /\ seriesTotal
       (frequencyPerDay
          (generateSummary (DF := Sample.utcDates)
             [Sample.quake "x" 5 (Sample.march1 + 86400000)]
             (Sample.filtersFor "2024-03-01" "2024-09-17")))
     = 1%nat.
Proof.
  split; [discriminate|].
  apply (frequency_counts_every_record Sample.utcDates
           [Sample.quake "x" 5 (Sample.march1 + 86400000)]
           (Sample.filtersFor "2024-03-01" "2024-09-17")).
  discriminate.
Defined.

(** ** The empty result *)

(** C9.  For the empty list of records and any filter the summary has count
    0, average magnitude 0, no strongest record, an empty per-day series and
    an empty magnitude distribution; [processResponse] publishes it on the
    summary channel and leaves the error channel as it is, and so does the
    delivery of an empty response to its subscription. *)
Theorem empty_result_is_valid_summary (DF : DateFns) (JS : JsBuiltins)
    (filters : EarthquakeFilters) :
  generateSummary [] filters
  = {| count := 0; averageMagnitude := 0; strongestEarthquake := None;
       frequencyPerDay := []; magnitudeDistribution := [] |}
  /\ (forall s,
        let s' := processResponse {| features := [] |} filters s in
        summarySubject s' = Some (generateSummary [] filters)
        /\ earthquakesSubject s' = []
        /\ errorSubject s' = errorSubject s)
  /\ (forall s request nowCleanup nowSet,
        let s' := onResponse request {| features := [] |} nowCleanup nowSet s in
        summarySubject s' = Some emptySummary
        /\ earthquakesSubject s' = []
        /\ errorSubject s' = errorSubject s
        /\ loadingSubject s' = false).
Proof.
  split; [reflexivity|]. split.
  - intros s. destruct s; repeat split; reflexivity.
  - intros s request nowCleanup nowSet. destruct s; repeat split; reflexivity.
Qed.

(** ** The cache: consistency of the size bookkeeping *)

Lemma expired_true now entry :
  expired now entry = true <-> now - timestamp entry > CACHE_DURATION.
Proof. unfold expired. rewrite Z.gtb_ltb, Z.ltb_lt. lia. Qed.

Lemma expired_false now entry :
  expired now entry = false <-> now - timestamp entry <= CACHE_DURATION.
Proof. unfold expired. rewrite Z.gtb_ltb, Z.ltb_ge. lia. Qed.

Lemma sizeTotal_delete key entry (m : JsMap.t CacheEntry) :
  JsMap.get key m = Some entry ->
  sizeTotal (JsMap.delete key m) = sizeTotal m - size entry.
Proof.
  induction m as [|[k e] m IH]; simpl; [discriminate|].
  destruct (String.eqb key k).
  - intros [= ->]. lia.
  - intros H. simpl. rewrite IH by auto. lia.
Qed.

Lemma sizeTotal_set_absent key entry (m : JsMap.t CacheEntry) :
  JsMap.get key m = None ->
  sizeTotal (JsMap.set key entry m) = sizeTotal m + size entry.
Proof.
  induction m as [|[k e] m IH]; simpl; [lia|].
  destruct (String.eqb key k); [discriminate|].
  intros H. simpl. rewrite IH by auto. lia.
Qed.

Lemma sizeTotal_nonneg (m : JsMap.t CacheEntry) :
  (forall k e, In (k, e) m -> 0 <= size e) -> 0 <= sizeTotal m.
Proof.
  induction m as [|[k e] m IH]; simpl; intros H; [lia|].
  specialize (H k e (or_introl eq_refl)) as Hke.
  assert (0 <= sizeTotal m) by (apply IH; intros; eapply H; eauto). lia.
Qed.

Lemma consistent_empty : consistent emptyCache.
Proof. constructor; simpl; [constructor | reflexivity | tauto]. Qed.

Lemma consistent_removeEntry key entry c :
  consistent c ->
  JsMap.get key (cache c) = Some entry ->
  consistent (removeEntry key entry c).
Proof.
  intros [Hwf Htot Hsz] Hget. constructor; simpl.
  - now apply JsMapFacts.wf_delete.
  - rewrite (sizeTotal_delete _ _ _ Hget). lia.
  - intros k e Hin. apply (Hsz k). eapply JsMapFacts.in_delete; eauto.
Qed.

Lemma consistent_nonneg c : consistent c -> 0 <= currentCacheSize c.
Proof.
  intros [_ Htot Hsz]. rewrite Htot. now apply sizeTotal_nonneg.
Qed.

Lemma reducedEnough_true c :
  reducedEnough c = true <-> currentCacheSize c <= 41943040.
Proof.
  unfold reducedEnough. rewrite Qle_bool_iff.
  unfold Qle, MAX_CACHE_SIZE. cbn. lia.
Qed.

(** ** Cache retrieval *)

(** C4, as the code has it.  [getFromCache] returns a payload only if the
    key has an entry and at most the TTL has elapsed since the entry was
    stored; in that case it returns the stored payload and leaves the cache
    alone, the boundary [now - timestamp = TTL] included (the test is a
    strict "older than").  When more than the TTL has elapsed it removes the
    entry, subtracts its size from the tracked total and reports a miss. *)
Theorem getFromCache_within_ttl (key : string) (now : Z) (c : Cache) :
  JsMap.wf (cache c) ->
  (forall payload,
     fst (getFromCache key now c) = Some payload ->
     exists entry,
       JsMap.get key (cache c) = Some entry
       /\ data entry = payload
       /\ now - timestamp entry <= CACHE_DURATION)
  /\ (forall entry,
        JsMap.get key (cache c) = Some entry ->
        now - timestamp entry <= CACHE_DURATION ->
        getFromCache key now c = (Some (data entry), c))
  /\ (forall entry,
        JsMap.get key (cache c) = Some entry ->
        now - timestamp entry > CACHE_DURATION ->
        fst (getFromCache key now c) = None
        /\ JsMap.get key (cache (snd (getFromCache key now c))) = None
        /\ currentCacheSize (snd (getFromCache key now c))
           = currentCacheSize c - size entry).
Proof.
  intros Hwf. unfold getFromCache.
  destruct (JsMap.get key (cache c)) as [cached|] eqn:Hget.
  - fold (expired now cached).
    destruct (expired now cached) eqn:E; simpl.
    + apply expired_true in E.
      split; [discriminate|]. split; intros entry [= <-] H; [lia|].
      repeat split. now apply JsMapFacts.get_delete_same.
    + apply expired_false in E.
      split; [|split; intros entry [= <-] H; [reflexivity | lia]].
      intros payload [= <-]. now exists cached.
  - simpl. split; [discriminate|]. split; discriminate.
Qed.

Lemma getFromCache_within_ttl_witness :
  let c := storeEntry "k"
             {| data := {| features := [] |}; timestamp := 0; size := 400 |}
             emptyCache in
  JsMap.wf (cache c)
  /\ getFromCache "k" 1800000 c = (Some {| features := [] |}, c)
  /\ fst (getFromCache "k" 1800001 c) = None.
Proof.
  cbv zeta.
  assert (Hwf : JsMap.wf
                  (cache (storeEntry "k"
                            {| data := {| features := [] |}; timestamp := 0;
                               size := 400 |} emptyCache))).
  { repeat constructor. simpl. tauto. }
  split; [exact Hwf|].
  destruct (getFromCache_within_ttl "k" 1800000 _ Hwf) as (_ & Hhit & _).
  destruct (getFromCache_within_ttl "k" 1800001 _ Hwf) as (_ & _ & Hmiss).
  split.
  - apply (Hhit _ eq_refl). vm_compute. discriminate.
  - apply (Hmiss _ eq_refl). reflexivity.
Defined.

(** C4 as stated fails at the boundary: exactly the TTL (1 800 000 ms) after
    an entry was stored, [getFromCache] still returns its payload and keeps
    the entry, although [now - timestamp < TTL] does not hold. *)
Lemma getFromCache_hit_at_ttl :
  let payload := {| features := [] |} in
  let c := storeEntry "k" {| data := payload; timestamp := 0; size := 400 |}
             emptyCache in
  let now := CACHE_DURATION in
  ~ (now - 0 < CACHE_DURATION)
  /\ fst (getFromCache "k" now c) = Some payload
  /\ JsMap.has "k" (cache (snd (getFromCache "k" now c))) = true.
Proof. cbv zeta. split; [lia|]. split; reflexivity. Qed.

(** ** Cache cleanup *)

Lemma current_cache c : JsMap.wf (cache c) -> current (cache c) c.
Proof.
  intros Hwf. split; auto. intros k e. now apply JsMapFacts.in_get_wf.
Qed.

Lemma current_tail key entry rest c :
  current ((key, entry) :: rest) c -> current rest c.
Proof.
  intros [Hnd Hget]. inversion Hnd; subst. split; auto.
  intros k e Hin. apply Hget. now right.
Qed.

Lemma current_removeEntry key entry rest c :
  current ((key, entry) :: rest) c ->
  current rest (removeEntry key entry c).
Proof.
  intros [Hnd Hget]. inversion Hnd; subst. split; auto.
  intros k e Hin. simpl.
  rewrite JsMapFacts.get_delete_other.
  - apply Hget. now right.
  - intros ->. apply H1. now apply (in_map fst) in Hin.
Qed.

Lemma removeExpired_consistent now entries :
  forall c,
    consistent c -> current entries c ->
    consistent (removeExpired now entries c).
Proof.
  induction entries as [|[key entry] rest IH]; intros c Hc Hcur; simpl; auto.
  destruct (now - timestamp entry >? CACHE_DURATION).
  - apply IH.
    + apply consistent_removeEntry; auto. apply Hcur. now left.
    + eapply current_removeEntry; eauto.
  - apply IH; auto. eapply current_tail; eauto.
Qed.

(** What the first loop leaves was in the cache, and what it was handed and
    leaves is not older than the TTL. *)
Lemma removeExpired_live now entries :
  forall c,
    JsMap.wf (cache c) -> current entries c ->
    forall k e,
      In (k, e) (cache (removeExpired now entries c)) ->
      In (k, e) (cache c)
      /\ (In (k, e) entries -> now - timestamp e <= CACHE_DURATION).
Proof.
  induction entries as [|[key entry] rest IH]; intros c Hwf Hcur k e Hin;
    simpl in *.
  - tauto.
  - fold (expired now entry) in Hin.
    destruct (expired now entry) eqn:E.
    + destruct (IH (removeEntry key entry c)) with (k := k) (e := e)
        as [Hin' Hlive]; auto.
      * simpl. now apply JsMapFacts.wf_delete.
      * eapply current_removeEntry; eauto.
      * simpl in Hin'. split; [eapply JsMapFacts.in_delete; eauto|].
        intros [[= <- <-]|Hr]; auto.
        exfalso.
        pose proof (JsMapFacts.wf_delete key _ Hwf) as Hwf'.
        pose proof (JsMapFacts.in_get_wf _ _ _ Hwf' Hin') as Hsome.
        rewrite JsMapFacts.get_delete_same in Hsome by auto.
        discriminate.
    + destruct (IH c) with (k := k) (e := e) as [Hin' Hlive]; auto.
      * eapply current_tail; eauto.
      * split; auto. intros [[= <- <-]|Hr]; auto. now apply expired_false.
Qed.

Lemma insertByTimestamp_perm e sorted :
  Permutation (insertByTimestamp e sorted) (e :: sorted).
Proof.
  induction sorted as [|e' rest IH]; simpl; auto.
  destruct (timestamp (snd e) <=? timestamp (snd e')); auto.
  rewrite IH. apply perm_swap.
Qed.

Lemma sortByTimestamp_perm entries :
  Permutation (sortByTimestamp entries) entries.
Proof.
  induction entries as [|e rest IH]; simpl; auto.
  rewrite insertByTimestamp_perm. now constructor.
Qed.

Lemma current_sorted c :
  JsMap.wf (cache c) -> current (sortByTimestamp (cache c)) c.
Proof.
  intros Hwf. pose proof (sortByTimestamp_perm (cache c)) as Hp. split.
  - unfold JsMap.keys. eapply Permutation_NoDup.
    + apply Permutation_map, Permutation_sym, Hp.
    + exact Hwf.
  - intros k e Hin. apply JsMapFacts.in_get_wf; auto.
    eapply Permutation_in; eauto.
Qed.

(** The second loop stops at 80 % of the budget or when it has removed every
    entry it was handed. *)
Lemma evictOldest_spec entries :
  forall c,
    consistent c -> current entries c ->
    consistent (evictOldest entries c)
    /\ (forall k e, In (k, e) (cache (evictOldest entries c)) ->
                    In (k, e) (cache c))
    /\ (reducedEnough (evictOldest entries c) = true
        \/ forall k, In k (JsMap.keys entries) ->
                     JsMap.get k (cache (evictOldest entries c)) = None).
Proof.
  induction entries as [|[key entry] rest IH]; intros c Hc Hcur; simpl.
  - split; auto. split; auto. right. tauto.
  - assert (Hget : JsMap.get key (cache c) = Some entry)
      by (apply Hcur; now left).
    pose proof (consistent_removeEntry key entry c Hc Hget) as Hc'.
    destruct (reducedEnough (removeEntry key entry c)) eqn:E.
    + split; auto. split; [|now left].
      intros k e. simpl. apply JsMapFacts.in_delete.
    + destruct (IH (removeEntry key entry c) Hc')
        as (Hcons & Hsub & Hend).
      { eapply current_removeEntry; eauto. }
      split; auto. split.
      * intros k e Hin. apply Hsub in Hin. simpl in Hin.
        eapply JsMapFacts.in_delete; eauto.
      * destruct Hend as [Hend|Hend]; [now left|right].
        intros k [<-|Hin]; auto.
        destruct (JsMap.get key (cache (evictOldest rest _))) as [e|] eqn:Hk;
          auto.
        apply JsMapFacts.get_some_in, Hsub in Hk. simpl in Hk.
        destruct Hc as [Hwf _ _].
        pose proof (JsMapFacts.wf_delete key _ Hwf) as Hwf'.
        apply (JsMapFacts.in_get_wf _ _ _ Hwf') in Hk.
        now rewrite JsMapFacts.get_delete_same in Hk.
Qed.

Lemma cleanupCache_consistent now c :
  consistent c -> consistent (cleanupCache now c).
Proof.
  intros Hc. unfold cleanupCache.
  assert (Hc1 : consistent (removeExpired now (cache c) c)).
  { apply removeExpired_consistent; auto. apply current_cache, Hc. }
  destruct (currentCacheSize _ >? MAX_CACHE_SIZE); auto.
  apply evictOldest_spec; auto. apply current_sorted, Hc1.
Qed.

(** After a cleanup every entry is an entry the cache had, not older than
    the TTL. *)
Lemma cleanupCache_live now c :
  consistent c ->
  forall k e,
    In (k, e) (cache (cleanupCache now c)) ->
    In (k, e) (cache c) /\ now - timestamp e <= CACHE_DURATION.
Proof.
  intros Hc k e Hin. unfold cleanupCache in Hin.
  assert (Hc1 : consistent (removeExpired now (cache c) c)).
  { apply removeExpired_consistent; auto. apply current_cache, Hc. }
  assert (Hin1 : In (k, e) (cache (removeExpired now (cache c) c))).
  { destruct (currentCacheSize _ >? MAX_CACHE_SIZE); auto.
    eapply evictOldest_spec; eauto. apply current_sorted, Hc1. }
  destruct (removeExpired_live now (cache c) c) with (k := k) (e := e)
    as [Hin0 Hlive]; auto using current_cache, consistent_wf.
Qed.

Lemma all_absent_nil {V : Type} (m : JsMap.t V) :
  (forall k, In k (JsMap.keys m) -> JsMap.get k m = None) -> m = [].
Proof.
  destruct m as [|[k v] m]; auto. intros H.
  specialize (H k (or_introl eq_refl)). simpl in H.
  now rewrite String.eqb_refl in H.
Qed.

(** A cleanup leaves the tracked total within the budget. *)
Lemma cleanupCache_within_budget now c :
  consistent c -> currentCacheSize (cleanupCache now c) <= MAX_CACHE_SIZE.
Proof.
  intros Hc. unfold cleanupCache.
  assert (Hc1 : consistent (removeExpired now (cache c) c)).
  { apply removeExpired_consistent; auto. apply current_cache, Hc. }
  set (c1 := removeExpired now (cache c) c) in *.
  destruct (currentCacheSize c1 >? MAX_CACHE_SIZE) eqn:E.
  - destruct (evictOldest_spec (sortByTimestamp (cache c1)) c1 Hc1)
      as (Hcons & Hsub & [Hred|Hall]).
    { apply current_sorted, Hc1. }
    + apply reducedEnough_true in Hred. unfold MAX_CACHE_SIZE. lia.
    + assert (Hnil : cache (evictOldest (sortByTimestamp (cache c1)) c1) = []).
      { apply all_absent_nil. intros k Hk. apply Hall.
        unfold JsMap.keys in *. apply in_map_iff in Hk as ([k' e] & <- & Hin).
        apply Hsub in Hin.
        apply (Permutation_in _ (Permutation_sym (sortByTimestamp_perm _)))
          in Hin.
        now apply (in_map fst) in Hin. }
      rewrite (consistent_total _ Hcons), Hnil. simpl.
      unfold MAX_CACHE_SIZE. lia.
  - rewrite Z.gtb_ltb in E. apply Z.ltb_ge in E. exact E.
Qed.

(** ** Cache admission *)

Section Admission.

Context {JS : JsBuiltins}.

Lemma estimateObjectSize_nonneg response : 0 <= estimateObjectSize response.
Proof. unfold estimateObjectSize. lia. Qed.

Lemma storeEntry_consistent key entry c :
  consistent c ->
  JsMap.get key (cache c) = None ->
  0 <= size entry ->
  consistent (storeEntry key entry c).
Proof.
  intros [Hwf Htot Hsz] Hget Hpos. constructor; simpl.
  - now apply JsMapFacts.wf_set.
  - rewrite sizeTotal_set_absent by auto. lia.
  - intros k e. rewrite JsMapFacts.set_absent by auto.
    intros Hin. apply in_app_or in Hin as [Hin|[[= <- <-]|[]]]; eauto.
Qed.

Lemma cleanupCache_absent now key c :
  consistent c ->
  JsMap.get key (cache c) = None ->
  JsMap.get key (cache (cleanupCache now c)) = None.
Proof.
  intros Hc Hget.
  destruct (JsMap.get key (cache (cleanupCache now c))) as [e|] eqn:E; auto.
  apply JsMapFacts.get_some_in in E.
  apply (cleanupCache_live now c Hc) in E as [Hin _].
  apply (JsMapFacts.in_get_wf _ _ _ (consistent_wf _ Hc)) in Hin. congruence.
Qed.

(** The three ways out of [addToCache]. *)
Lemma addToCache_cases key response nowCleanup nowSet c :
  let sz := estimateObjectSize response in
  let entry := {| data := response; timestamp := nowSet; size := sz |} in
  let c1 := cleanupCache nowCleanup c in
  (currentCacheSize c + sz <= MAX_CACHE_SIZE
   /\ addToCache key response nowCleanup nowSet c = storeEntry key entry c)
  \/ (currentCacheSize c + sz > MAX_CACHE_SIZE
      /\ currentCacheSize c1 + sz <= MAX_CACHE_SIZE
      /\ addToCache key response nowCleanup nowSet c = storeEntry key entry c1)
  \/ (currentCacheSize c + sz > MAX_CACHE_SIZE
      /\ currentCacheSize c1 + sz > MAX_CACHE_SIZE
      /\ addToCache key response nowCleanup nowSet c = c1).
Proof.
  cbv zeta. unfold addToCache.
  destruct (currentCacheSize c + estimateObjectSize response >? MAX_CACHE_SIZE)
    eqn:E1; rewrite Z.gtb_ltb in E1.
  - apply Z.ltb_lt in E1.
    destruct (currentCacheSize (cleanupCache nowCleanup c)
              + estimateObjectSize response >? MAX_CACHE_SIZE) eqn:E2;
      rewrite Z.gtb_ltb in E2.
    + apply Z.ltb_lt in E2. right; right. repeat split; auto; lia.
    + apply Z.ltb_ge in E2. right; left. repeat split; auto; lia.
  - apply Z.ltb_ge in E1. left. split; auto.
Qed.

Lemma addToCache_consistent key response nowCleanup nowSet c :
  consistent c ->
  JsMap.get key (cache c) = None ->
  consistent (addToCache key response nowCleanup nowSet c).
Proof.
  intros Hc Hget.
  destruct (addToCache_cases key response nowCleanup nowSet c)
    as [(_ & ->)|[(_ & _ & ->)|(_ & _ & ->)]].
  - apply storeEntry_consistent; auto. apply estimateObjectSize_nonneg.
  - apply storeEntry_consistent.
    + now apply cleanupCache_consistent.
    + now apply cleanupCache_absent.
    + apply estimateObjectSize_nonneg.
  - now apply cleanupCache_consistent.
Qed.

Lemma addToCache_within_budget key response nowCleanup nowSet c :
  consistent c ->
  currentCacheSize (addToCache key response nowCleanup nowSet c)
  <= MAX_CACHE_SIZE.
Proof.
  intros Hc.
  destruct (addToCache_cases key response nowCleanup nowSet c)
    as [(H & ->)|[(_ & H & ->)|(_ & _ & ->)]]; simpl; auto.
  now apply cleanupCache_within_budget.
Qed.

Lemma getFromCache_consistent key now c :
  consistent c -> consistent (snd (getFromCache key now c)).
Proof.
  intros Hc. unfold getFromCache.
  destruct (JsMap.get key (cache c)) as [cached|] eqn:Hget; auto.
  destruct (now - timestamp cached >? CACHE_DURATION); auto.
  now apply consistent_removeEntry.
Qed.

Lemma runOps_consistent ops :
  forall c,
    consistent c -> freshKeys c ops = true -> consistent (runOps c ops).
Proof.
  induction ops as [|op ops IH]; intros c Hc Hfresh; simpl in *; auto.
  apply andb_prop in Hfresh as [Hop Hrest].
  apply IH; auto.
  destruct op as [key response nowCleanup nowSet|key now|now]; simpl.
  - apply addToCache_consistent; auto.
    unfold JsMap.has in Hop. now destruct (JsMap.get key (cache c)).
  - now apply getFromCache_consistent.
  - now apply cleanupCache_consistent.
Qed.

Lemma freshKeys_app before :
  forall c after,
    freshKeys c (before ++ after) = true ->
    freshKeys c before = true /\ freshKeys (runOps c before) after = true.
Proof.
  induction before as [|op before IH]; intros c after H; simpl in *; auto.
  apply andb_prop in H as [Hop Hrest].
  apply IH in Hrest as [Hb Ha]. rewrite Hop, Hb. auto.
Qed.

End Admission.

(** C10.  Starting from the empty cache, after every sequence of
    [addToCache] (each with a key the cache does not hold at that moment),
    [getFromCache] and [cleanupCache], the tracked [currentCacheSize] is the
    sum of the [size] fields of the stored entries; and right after any
    [addToCache] of the sequence returns, [currentCacheSize] is at most
    [MAX_CACHE_SIZE]. *)
Theorem cache_size_bookkeeping (JS : JsBuiltins) (ops : list CacheOp) :
  freshKeys emptyCache ops = true ->
  currentCacheSize (runOps emptyCache ops)
  = sizeTotal (cache (runOps emptyCache ops))
  /\ forall before key response nowCleanup nowSet after,
       ops = (before ++ OpAdd key response nowCleanup nowSet :: after)%list ->
       currentCacheSize
         (runOps emptyCache
            (before ++ [OpAdd key response nowCleanup nowSet])%list)
       <= MAX_CACHE_SIZE.
Proof.
  intros Hfresh. split.
  - apply consistent_total, runOps_consistent; auto using consistent_empty.
  - intros before key response nowCleanup nowSet after ->.
    apply freshKeys_app in Hfresh as [Hb _].
    unfold runOps. rewrite fold_left_app. simpl.
    apply addToCache_within_budget.
    apply runOps_consistent; auto using consistent_empty.
Qed.

Lemma cache_size_bookkeeping_witness :
  let ops := [ OpAdd "a" (responseOf 3) 0 0; OpGet "a" 10;
               OpAdd "b" (responseOf 1) 20 20; OpCleanup 1800005;
               OpGet "b" 1800030 ] in
  freshKeys (JS := Sample.builtins) emptyCache ops = true
  /\ currentCacheSize (runOps (JS := Sample.builtins) emptyCache ops)
     = sizeTotal (cache (runOps (JS := Sample.builtins) emptyCache ops)).
Proof.
  cbv zeta. split; [reflexivity|].
  apply (cache_size_bookkeeping Sample.builtins). reflexivity.
Defined.

(** C5, as the code has it.  [addToCache key payload] followed by
    [getFromCache key] returns the very payload, and leaves the cache as the
    put made it, provided the put admitted the payload (the tracked total
    plus the payload's size is within the budget, before or after the
    cleanup) and at most the TTL has elapsed since the put. *)
Theorem put_then_get_when_admitted (JS : JsBuiltins) (key : string)
    (response : EarthquakeResponse) (nowCleanup nowSet now : Z) (c : Cache) :
  currentCacheSize c + estimateObjectSize response <= MAX_CACHE_SIZE
  \/ currentCacheSize (cleanupCache nowCleanup c) + estimateObjectSize response
     <= MAX_CACHE_SIZE ->
  now - nowSet <= CACHE_DURATION ->
  getFromCache key now (addToCache key response nowCleanup nowSet c)
  = (Some response, addToCache key response nowCleanup nowSet c).
Proof.
  intros Hfits Httl.
  assert (Hstored : exists c0,
             addToCache key response nowCleanup nowSet c
             = storeEntry key
                 {| data := response; timestamp := nowSet;
                    size := estimateObjectSize response |} c0).
  { destruct (addToCache_cases key response nowCleanup nowSet c)
      as [(_ & ->)|[(_ & _ & ->)|(H1 & H2 & _)]]; eauto.
    destruct Hfits; lia. }
  destruct Hstored as [c0 ->].
  unfold getFromCache, storeEntry at 1. cbn [cache].
  rewrite JsMapFacts.get_set_same. cbn [timestamp data].
  replace (now - nowSet >? CACHE_DURATION) with false; auto.
  symmetry. rewrite Z.gtb_ltb. apply Z.ltb_ge. lia.
Qed.

Lemma put_then_get_when_admitted_witness :
  (currentCacheSize emptyCache
   + estimateObjectSize (JS := Sample.builtins) (responseOf 3)
   <= MAX_CACHE_SIZE
   \/ currentCacheSize (cleanupCache 5 emptyCache)
      + estimateObjectSize (JS := Sample.builtins) (responseOf 3)
      <= MAX_CACHE_SIZE)
  /\ 1800005 - 5 <= CACHE_DURATION
  /\ fst (getFromCache "k" 1800005
            (addToCache (JS := Sample.builtins) "k" (responseOf 3) 5 5
               emptyCache))
     = Some (responseOf 3).
Proof.
  assert (H1 : currentCacheSize emptyCache
               + estimateObjectSize (JS := Sample.builtins) (responseOf 3)
               <= MAX_CACHE_SIZE
               \/ currentCacheSize (cleanupCache 5 emptyCache)
                  + estimateObjectSize (JS := Sample.builtins) (responseOf 3)
                  <= MAX_CACHE_SIZE).
  { left. vm_compute. discriminate. }
  assert (H2 : 1800005 - 5 <= CACHE_DURATION) by (vm_compute; discriminate).
  split; [exact H1|]. split; [exact H2|].
  now rewrite (put_then_get_when_admitted Sample.builtins "k" (responseOf 3)
                 5 5 1800005 emptyCache H1 H2).
Defined.

(** C5 as stated fails: a payload of 40 000 features serialises to
    28 000 200 characters, an estimated 56 000 400 bytes, more than the
    budget of 52 428 800; the put into the empty cache skips it and the get
    that follows at once misses. *)
Lemma put_then_get_misses_oversized :
  let payload := responseOf 40000 in
  let c := addToCache (JS := Sample.builtins) "k" payload 0 0 emptyCache in
  estimateObjectSize (JS := Sample.builtins) payload = 56000400
  /\ c = emptyCache
  /\ fst (getFromCache "k" 0 c) = None.
Proof. vm_compute. repeat split; reflexivity. Qed.

(** C3, as the code has it.  For every consistent cache and every
    [addToCache key payload]: when the tracked total plus the payload's size
    is within the budget the payload is stored at once; otherwise
    [cleanupCache] runs first, after which no entry older than the TTL is
    left, and the payload is stored exactly when the tracked total after
    that cleanup plus its size is within the budget; in the remaining case
    the payload is skipped, the cache staying as the cleanup left it (not an
    error).  A payload larger than the whole budget is always skipped. *)
Theorem addToCache_admission (JS : JsBuiltins) (key : string)
    (response : EarthquakeResponse) (nowCleanup nowSet : Z) (c : Cache) :
  consistent c ->
  let sz := estimateObjectSize response in
  let entry := {| data := response; timestamp := nowSet; size := sz |} in
  let c1 := cleanupCache nowCleanup c in
  let c' := addToCache key response nowCleanup nowSet c in
  (currentCacheSize c + sz <= MAX_CACHE_SIZE -> c' = storeEntry key entry c)
  /\ (currentCacheSize c + sz > MAX_CACHE_SIZE ->
      (forall k e, In (k, e) (cache c1) ->
         In (k, e) (cache c) /\ nowCleanup - timestamp e <= CACHE_DURATION)
      /\ (currentCacheSize c1 + sz <= MAX_CACHE_SIZE ->
          c' = storeEntry key entry c1)
      /\ (currentCacheSize c1 + sz > MAX_CACHE_SIZE -> c' = c1))
  /\ (sz > MAX_CACHE_SIZE -> c' = c1).
Proof.
  intros Hc. cbv zeta.
  pose proof (consistent_nonneg c Hc) as Hpos.
  pose proof (consistent_nonneg _ (cleanupCache_consistent nowCleanup c Hc))
    as Hpos1.
  destruct (addToCache_cases key response nowCleanup nowSet c)
    as [(H & ->)|[(H1 & H2 & ->)|(H1 & H2 & ->)]];
    (split; [|split]); intros; try lia; try reflexivity;
    (split; [now apply cleanupCache_live | split; intros; try lia; auto]).
Qed.

Lemma addToCache_admission_witness :
  let c := addToCache (JS := Sample.builtins) "old" (responseOf 30000) 0 0
             emptyCache in
  consistent c
  /\ addToCache (JS := Sample.builtins) "new" (responseOf 40000) 1000 1000 c
     = cleanupCache 1000 c.
Proof.
  cbv zeta.
  assert (Hc : consistent
                 (addToCache (JS := Sample.builtins) "old" (responseOf 30000)
                    0 0 emptyCache)).
  { apply addToCache_consistent; [apply consistent_empty | reflexivity]. }
  split; [exact Hc|].
  apply (addToCache_admission Sample.builtins "new" (responseOf 40000)
           1000 1000 _ Hc).
  vm_compute. reflexivity.
Defined.

(** C3 as stated fails: with one live entry of 42 000 400 bytes in the cache
    a put of a payload of 14 000 400 bytes, well under the budget of
    52 428 800, is skipped; the live entry is not purged and the usage stays
    above 80 % of the budget (41 943 040). *)
Lemma addToCache_skips_payload_that_fits_budget :
  let c := addToCache (JS := Sample.builtins) "old" (responseOf 30000) 0 0
             emptyCache in
  let payload := responseOf 10000 in
  let c' := addToCache (JS := Sample.builtins) "new" payload 1000 1000 c in
  JsMap.keys (cache c) = ["old"]
  /\ currentCacheSize c = 42000400
  /\ estimateObjectSize (JS := Sample.builtins) payload = 14000400
  /\ 14000400 <= MAX_CACHE_SIZE
  /\ JsMap.get "new" (cache c') = None
  /\ JsMap.keys (cache c') = ["old"]
  /\ currentCacheSize c' = 42000400
  /\ reducedEnough c' = false.
Proof. vm_compute. repeat split; try reflexivity. discriminate. Qed.

Lemma runOps_within_budget (JS : JsBuiltins) (ops : list CacheOp) :
  forall c,
    consistent c -> currentCacheSize c <= MAX_CACHE_SIZE ->
    freshKeys c ops = true ->
    currentCacheSize (runOps c ops) <= MAX_CACHE_SIZE.
Proof.
  induction ops as [|op ops IH]; intros c Hc Hle Hfresh; simpl in *; auto.
  apply andb_prop in Hfresh as [Hop Hrest].
  assert (Hget : forall key, negb (JsMap.has key (cache c)) = true ->
                             JsMap.get key (cache c) = None).
  { intros key. unfold JsMap.has. now destruct (JsMap.get key (cache c)). }
  apply IH; auto;
    destruct op as [key response nowCleanup nowSet|key now|now]; simpl.
  - apply addToCache_consistent; auto.
  - now apply getFromCache_consistent.
  - now apply cleanupCache_consistent.
  - now apply addToCache_within_budget.
  - unfold getFromCache.
    destruct (JsMap.get key (cache c)) as [cached|] eqn:E; auto.
    destruct (now - timestamp cached >? CACHE_DURATION); auto. simpl.
    apply JsMapFacts.get_some_in in E.
    pose proof (consistent_sizes c Hc key cached E). lia.
  - now apply cleanupCache_within_budget.
Qed.

(** From the empty cache the tracked total never exceeds the budget, so the
    oldest-first loop of [cleanupCache] is never entered: a cleanup only
    removes the entries older than the TTL. *)
Lemma cleanupCache_never_evicts (JS : JsBuiltins) (ops : list CacheOp)
    (now : Z) :
  freshKeys emptyCache ops = true ->
  cleanupCache now (runOps emptyCache ops)
  = removeExpired now (cache (runOps emptyCache ops)) (runOps emptyCache ops).
Proof.
  intros Hfresh.
  set (c := runOps emptyCache ops).
  assert (Hc : consistent c)
    by (apply runOps_consistent; auto using consistent_empty).
  assert (Hle : currentCacheSize c <= MAX_CACHE_SIZE).
  { apply runOps_within_budget; auto using consistent_empty.
    vm_compute. discriminate. }
  unfold cleanupCache.
  assert (Hmono : forall entries c0,
             consistent c0 -> current entries c0 ->
             currentCacheSize (removeExpired now entries c0)
             <= currentCacheSize c0).
  { induction entries as [|[key entry] rest IH]; intros c0 Hc0 Hcur; simpl.
    - lia.
    - assert (Hget : JsMap.get key (cache c0) = Some entry)
        by (apply Hcur; now left).
      destruct (now - timestamp entry >? CACHE_DURATION).
      + etransitivity.
        * apply IH; [now apply consistent_removeEntry|].
          eapply current_removeEntry; eauto.
        * simpl. apply JsMapFacts.get_some_in in Hget.
          pose proof (consistent_sizes c0 Hc0 key entry Hget). lia.
      + apply IH; auto. eapply current_tail; eauto. }
  specialize (Hmono (cache c) c Hc (current_cache c (consistent_wf c Hc))).
  replace (currentCacheSize (removeExpired now (cache c) c) >? MAX_CACHE_SIZE)
    with false; auto.
  symmetry. rewrite Z.gtb_ltb. apply Z.ltb_ge. lia.
Qed.

(** ** The bounding box of the request *)

(** The four bounding-box parameters go together, and they are sent exactly
    when the four fields are truthy. *)
Lemma bbox_all_or_none (JS : JsBuiltins) (filters : EarthquakeFilters) :
  forall p, In p bboxParams ->
            JsMap.has p (buildRequestParams filters) = bboxTruthy filters.
Proof.
  intros p Hp. unfold buildRequestParams, bboxTruthy.
  destruct (truthy (maxMagnitude filters));
    destruct (truthy (minLatitude filters));
    destruct (truthy (maxLatitude filters));
    destruct (truthy (minLongitude filters));
    destruct (truthy (maxLongitude filters));
    simpl in Hp; decompose [or] Hp; subst; try contradiction; reflexivity.
Qed.

Lemma bboxTruthy_present filters :
  bboxTruthy filters = true -> bboxPresent filters = true.
Proof.
  unfold bboxTruthy, bboxPresent, truthy.
  destruct (minLatitude filters), (maxLatitude filters),
    (minLongitude filters), (maxLongitude filters); simpl;
    rewrite ?andb_false_r; auto.
Qed.

(** C8 fails on the code.  The filter [equatorFilters] has all four
    bounding-box fields (latitude 0 to 10, longitude 20 to 30), yet the
    request carries none of the four parameters: the guard of
    [buildRequestParams] tests the fields for truthiness, and the number 0
    is falsy. *)
Theorem bbox_dropped_when_a_bound_is_zero (JS : JsBuiltins) :
  bboxPresent equatorFilters = true
  /\ forall p, In p bboxParams ->
               JsMap.has p (buildRequestParams equatorFilters) = false.
Proof.
  split; [reflexivity|].
  intros p Hp. now rewrite bbox_all_or_none.
Qed.

(** ** Cancellation *)

Ltac by_cases_on_state s :=
  destruct s; simpl;
  repeat match goal with
    | |- context [if ?b then _ else _] => destruct b; simpl
    | |- context [match ?x with Some _ => _ | None => _ end] =>
        destruct x; simpl
    end;
  auto.

Section Cancellation.

Context {DF : DateFns} {JS : JsBuiltins}.

(** The subscription and the request counter are out of reach of the code
    that publishes records and summaries. *)
Lemma processResponse_frame response filters s :
  inflight (processResponse response filters s) = inflight s
  /\ issued (processResponse response filters s) = issued s.
Proof. unfold processResponse. by_cases_on_state s. Qed.

Lemma processResponseInBatches_frame response filters s :
  inflight (processResponseInBatches response filters s) = inflight s
  /\ issued (processResponseInBatches response filters s) = issued s.
Proof.
  unfold processResponseInBatches.
  destruct (List.length (features response) <? BATCH_SIZE)%nat.
  - apply processResponse_frame.
  - unfold processResponse. by_cases_on_state s.
Qed.

Lemma processNextBatch_frame earthquakes filters totalBatches currentBatch s :
  inflight (processNextBatch earthquakes filters totalBatches currentBatch s)
  = inflight s
  /\ issued (processNextBatch earthquakes filters totalBatches currentBatch s)
     = issued s.
Proof. unfold processNextBatch. by_cases_on_state s. Qed.

Lemma runTimer_frame task s :
  inflight (runTimer task s) = inflight s
  /\ issued (runTimer task s) = issued s.
Proof.
  destruct task; simpl; [unfold processBatchesSequentially|];
    apply processNextBatch_frame.
Qed.

Lemma cancelCurrentRequest_frame s :
  inflight (cancelCurrentRequest s) = None
  /\ issued (cancelCurrentRequest s) = issued s.
Proof. unfold cancelCurrentRequest, finalizeRequest. by_cases_on_state s. Qed.

Lemma onResponse_frame request response nowCleanup nowSet s :
  inflight (onResponse request response nowCleanup nowSet s) = None
  /\ issued (onResponse request response nowCleanup nowSet s) = issued s.
Proof.
  unfold onResponse, finalizeRequest.
  set (s1 := setStore _ _).
  destruct (processResponseInBatches_frame response (req_filters request) s1)
    as [_ Hiss].
  assert (Hs1 : issued s1 = issued s) by (subst s1; now destruct s).
  rewrite <- Hs1, <- Hiss.
  destruct (processResponseInBatches response (req_filters request) s1).
  simpl. auto.
Qed.

Lemma onError_frame isTimeout s :
  inflight (onError isTimeout s) = None
  /\ issued (onError isTimeout s) = issued s.
Proof.
  unfold onError, cancelCurrentRequest, finalizeRequest.
  destruct isTimeout; by_cases_on_state s.
Qed.

(** What a fetch does to the subscription: none after a cache hit, a fresh
    request after a miss. *)
Lemma fetchEarthquakes_frame filters now s :
  (inflight (fetchEarthquakes filters now s) = None
   /\ issued (fetchEarthquakes filters now s) = issued s)
  \/ (exists request,
        inflight (fetchEarthquakes filters now s) = Some request
        /\ req_id request = issued s
        /\ issued (fetchEarthquakes filters now s) = S (issued s)).
Proof.
  unfold fetchEarthquakes.
  destruct (cancelCurrentRequest_frame s) as [Hin Hiss].
  set (s1 := setProgress 0 _).
  assert (H1 : inflight s1 = None /\ issued s1 = issued s).
  { subst s1. destruct (cancelCurrentRequest s). simpl in *. auto. }
  clearbody s1. destruct H1 as [Hin1 Hiss1].
  destruct (getFromCache (createCacheKey filters) now (store s1))
    as [[cachedData|] store'].
  - left.
    destruct (processResponse_frame cachedData filters (setStore store' s1))
      as [Hi Hn].
    assert (H2 : inflight (setStore store' s1) = None
                 /\ issued (setStore store' s1) = issued s)
      by (destruct s1; simpl in *; auto).
    destruct H2 as [Hi2 Hn2]. rewrite Hi2 in Hi. rewrite Hn2 in Hn.
    destruct (processResponse cachedData filters (setStore store' s1)).
    simpl in *. auto.
  - right. rewrite <- Hiss1. clear Hin Hiss Hin1 Hiss1.
    destruct s1; simpl; destruct (isLargeDateRange filters); simpl;
      eexists; repeat split; reflexivity.
Qed.

Lemma retired_rejects rid s : retired rid s -> subscribed rid s = None.
Proof.
  intros [_ Hne]. unfold subscribed.
  destruct (inflight s) as [request|]; auto.
  destruct (req_id request =? rid)%nat eqn:E; auto.
  apply Nat.eqb_eq in E. now apply Hne in E.
Qed.

Lemma retired_of_frame rid s s' :
  retired rid s ->
  (inflight s' = None \/ inflight s' = inflight s) ->
  issued s' = issued s ->
  retired rid s'.
Proof.
  intros [Hlt Hne] Hin Hiss. split; [lia|].
  intros request Hreq. destruct Hin as [Hin|Hin]; [congruence|].
  apply Hne. congruence.
Qed.

(** Once retired, a request stays retired whatever happens next. *)
Lemma step_retired rid s e : retired rid s -> retired rid (step s e).
Proof.
  intros Hret. destruct e as [filters now| |rid' response nowCleanup nowSet
                             |rid' isTimeout|now|now|n]; simpl.
  - destruct (fetchEarthquakes_frame filters now s)
      as [[Hin Hiss]|(request & Hin & Hid & Hiss)].
    + eapply retired_of_frame; eauto.
    + destruct Hret as [Hlt _]. split; [lia|].
      intros request' Hreq. rewrite Hin in Hreq. injection Hreq as <-. lia.
  - destruct (cancelCurrentRequest_frame s). eapply retired_of_frame; eauto.
  - destruct (subscribed rid' s); auto.
    destruct (onResponse_frame r response nowCleanup nowSet s).
    eapply retired_of_frame; eauto.
  - destruct (subscribed rid' s); auto.
    destruct (onError_frame isTimeout s). eapply retired_of_frame; eauto.
  - destruct (progressSimulation s); auto.
    apply (retired_of_frame rid s); auto; [right|]; now destruct s.
  - apply (retired_of_frame rid s); auto; [right|]; now destruct s.
  - destruct (nth_error (timers s) n) as [task|]; auto.
    destruct (runTimer_frame task (setTimers (dropNth n (timers s)) s))
      as [Hin Hiss].
    eapply retired_of_frame; eauto.
    + right. rewrite Hin. now destruct s.
    + rewrite Hiss. now destruct s.
Qed.

Lemma run_retired rid events :
  forall s, retired rid s -> retired rid (run s events).
Proof.
  induction events as [|e events IH]; intros s Hret; simpl; auto.
  apply IH, step_retired, Hret.
Qed.

(** A fetch that went to the network as request [rid]. *)
Lemma fetched_request rid filters now s :
  subscribed rid (fetchEarthquakes filters now s) <> None ->
  (rid < issued (fetchEarthquakes filters now s))%nat.
Proof.
  unfold subscribed.
  destruct (fetchEarthquakes_frame filters now s)
    as [[-> _]|(request & -> & Hid & ->)]; [congruence|].
  destruct (req_id request =? rid)%nat eqn:E; [|congruence].
  apply Nat.eqb_eq in E. lia.
Qed.

End Cancellation.

(** C7.  A fetch that went to the network as request [rid] and is cancelled,
    by [cancelCurrentRequest] or by the next [fetchEarthquakes], before its
    response arrives: whatever the service does afterwards, the response of
    [rid] (or its failure) arriving later changes nothing; the records
    channel, the summary channel and the cache stay as they were. *)
Theorem cancelled_response_is_discarded (DF : DateFns) (JS : JsBuiltins)
    (s0 : Service) (filters : EarthquakeFilters) (now : Z) (rid : nat)
    (canceller : Event) (later : list Event)
    (response : EarthquakeResponse) (nowCleanup nowSet : Z) :
  let s1 := step s0 (FetchEarthquakes filters now) in
  subscribed rid s1 <> None ->
  (canceller = CancelCurrentRequest
   \/ exists filters' now', canceller = FetchEarthquakes filters' now') ->
  let s2 := run (step s1 canceller) later in
  let s3 := step s2 (HttpResponse rid response nowCleanup nowSet) in
  s3 = s2
  /\ earthquakesSubject s3 = earthquakesSubject s2
  /\ summarySubject s3 = summarySubject s2
  /\ store s3 = store s2
  /\ forall isTimeout, step s2 (HttpFailure rid isTimeout) = s2.
Proof.
  intros s1 Hsub Hcancel s2 s3.
  assert (Hlt : (rid < issued s1)%nat) by now apply fetched_request.
  assert (Hret : retired rid (step s1 canceller)).
  { destruct Hcancel as [->|(filters' & now' & ->)]; simpl.
    - destruct (cancelCurrentRequest_frame s1) as [Hin Hiss].
      split; [lia|]. intros request Hreq. congruence.
    - destruct (fetchEarthquakes_frame filters' now' s1)
        as [[Hin Hiss]|(request & Hin & Hid & Hiss)].
      + split; [lia|]. intros request Hreq. congruence.
      + split; [lia|]. intros request' Hreq.
        rewrite Hin in Hreq. injection Hreq as <-. lia. }
  apply (run_retired rid later) in Hret. fold s2 in Hret.
  apply retired_rejects in Hret.
  assert (Hsame : s3 = s2) by (subst s3; simpl; now rewrite Hret).
  rewrite Hsame. repeat split; auto.
  intros isTimeout. simpl. now rewrite Hret.
Qed.

Lemma cancelled_response_is_discarded_witness :
  let filters := Sample.filtersFor "2024-03-01" "2024-03-05" in
  let s1 := step (DF := Sample.utcDates) (JS := Sample.builtins)
              initialService (FetchEarthquakes filters 0) in
  let later := [ FetchEarthquakes equatorFilters 50;
                 HttpResponse 1 (responseOf 2) 60 60 ] in
  let s2 := run (DF := Sample.utcDates) (JS := Sample.builtins)
              (step (DF := Sample.utcDates) (JS := Sample.builtins)
                 s1 CancelCurrentRequest) later in
  subscribed 0 s1 <> None
  /\ step (DF := Sample.utcDates) (JS := Sample.builtins) s2
       (HttpResponse 0 (responseOf 3) 70 70) = s2.
Proof.
  cbv zeta.
  assert (Hsub : subscribed 0
                   (step (DF := Sample.utcDates) (JS := Sample.builtins)
                      initialService
                      (FetchEarthquakes
                         (Sample.filtersFor "2024-03-01" "2024-03-05") 0))
                 <> None) by (vm_compute; discriminate).
  split; [exact Hsub|].
  apply (cancelled_response_is_discarded Sample.utcDates Sample.builtins
           initialService (Sample.filtersFor "2024-03-01" "2024-03-05") 0
           0%nat CancelCurrentRequest
           [ FetchEarthquakes equatorFilters 50;
             HttpResponse 1 (responseOf 2) 60 60 ]
           (responseOf 3) 70 70 Hsub).
  now left.
Defined.

(** ** The service at work, on concrete runs *)

(** Without a cancellation the response is published and cached. *)
Example response_is_published :
  let filters := Sample.filtersFor "2024-03-01" "2024-03-05" in
  let s := run (DF := Sample.utcDates) (JS := Sample.builtins) initialService
             [ FetchEarthquakes filters 0; ProgressTick 2000;
               HttpResponse 0 {| features := Sample.threeQuakes |} 2500 2500 ] in
  earthquakesSubject s = Sample.threeQuakes
  /\ option_map count (summarySubject s) = Some 3%nat
  /\ JsMap.keys (cache (store s))
     = [createCacheKey (JS := Sample.builtins) filters]
  /\ loadingSubject s = false
  /\ progressSubject s = 100.
Proof. vm_compute. repeat split; reflexivity. Qed.

(** A response of 1200 records: the first 100 at once, the rest when the
    timers run; then the same filter is served from the cache. *)
Example batched_response_converges :
  let filters := Sample.filtersFor "2024-03-01" "2024-03-05" in
  let s := run (DF := Sample.utcDates) (JS := Sample.builtins) initialService
             [ FetchEarthquakes filters 0;
               HttpResponse 0 (responseOf 1200) 5 5 ] in
  let s' := run (DF := Sample.utcDates) (JS := Sample.builtins) s
              [ TimerFires 0; TimerFires 0; TimerFires 0; TimerFires 0 ] in
  let s'' := step (DF := Sample.utcDates) (JS := Sample.builtins) s'
               (FetchEarthquakes filters 100) in
  List.length (earthquakesSubject s) = 100%nat
  /\ option_map count (summarySubject s) = Some 100%nat
  /\ List.length (earthquakesSubject s') = 1200%nat
  /\ option_map count (summarySubject s') = Some 1200%nat
  /\ timers s' = []
  /\ inflight s'' = None
  /\ List.length (earthquakesSubject s'') = 1200%nat.
Proof. vm_compute. repeat split; reflexivity. Qed.

(** The simulated progress after 2 s, 45 s and past the end of the curve. *)
Example progress_curve :
  simulatedProgress 2000 = 10 /\ simulatedProgress 45000 = 78
  /\ simulatedProgress 200000 = 94.
Proof. vm_compute. repeat split; reflexivity. Qed.

(** ** Magnitude classes *)

Ltac compare_magnitudes :=
  repeat match goal with
    | H : Qle_bool _ _ = true |- _ => apply Qle_bool_iff in H
    | H : Qle_bool _ _ = false |- _ => apply Qle_bool_false in H
    end.

(** The colour and the description of a magnitude name the same class: two
    magnitudes have the same colour exactly when they have the same
    description. *)
Theorem colour_and_description_agree (m1 m2 : Q) :
  getMagnitudeColor m1 = getMagnitudeColor m2
  <-> getMagnitudeDescription m1 = getMagnitudeDescription m2.
Proof.
  unfold getMagnitudeColor, getMagnitudeDescription.
  destruct (Qltb m1 2), (Qltb m1 4), (Qltb m1 6), (Qltb m1 8),
    (Qltb m2 2), (Qltb m2 4), (Qltb m2 6), (Qltb m2 8);
    split; intros H; try reflexivity; discriminate.
Qed.

(** A stronger earthquake never gets a milder description: the classes
    follow the thresholds 2, 4, 6 and 8 in order. *)
Theorem description_is_monotone (m1 m2 : Q) :
  (m1 <= m2)%Q ->
  (getMagnitudeDescription m2 = "Minor" ->
   getMagnitudeDescription m1 = "Minor")
  /\ (getMagnitudeDescription m2 = "Light" ->
      In (getMagnitudeDescription m1) ["Minor"; "Light"])
  /\ (getMagnitudeDescription m2 = "Moderate" ->
      In (getMagnitudeDescription m1) ["Minor"; "Light"; "Moderate"])
  /\ (getMagnitudeDescription m1 = "Major" ->
      getMagnitudeDescription m2 = "Major")
  /\ (getMagnitudeDescription m1 = "Strong" ->
      In (getMagnitudeDescription m2) ["Strong"; "Major"]).
Proof.
  intros Hle. unfold getMagnitudeDescription, Qltb.
  destruct (Qle_bool 2 m1) eqn:A2, (Qle_bool 4 m1) eqn:A4,
    (Qle_bool 6 m1) eqn:A6, (Qle_bool 8 m1) eqn:A8,
    (Qle_bool 2 m2) eqn:B2, (Qle_bool 4 m2) eqn:B4,
    (Qle_bool 6 m2) eqn:B6, (Qle_bool 8 m2) eqn:B8;
    cbn [negb]; repeat split; intros H; try discriminate H;
    try (simpl; tauto); exfalso; compare_magnitudes; lra.
Qed.

Lemma description_is_monotone_witness :
  (3 <= 7)%Q
  /\ (getMagnitudeDescription 3 = "Strong" ->
      In (getMagnitudeDescription 7) ["Strong"; "Major"]).
Proof.
  assert (H : (3 <= 7)%Q) by (vm_compute; discriminate).
  split; [exact H|]. apply (description_is_monotone 3 7 H).
Defined.

(** The colour the magnitude chart gives to a histogram bucket is the colour
    the map and the table give to every record counted in that bucket. *)
Theorem bucket_colour_is_record_colour (eq : EarthquakeFeature)
    (range : MagnitudeRange) :
  In range (bucketsOf eq) ->
  getColorForRange (range_label range) = getMagnitudeColor (magnitude eq).
Proof.
  unfold bucketsOf, magnitudeRanges, getMagnitudeColor, magnitude.
  intros Hin. apply filter_In in Hin as [Hin Hr].
  unfold in_range, Qgeb, Qltb in *.
  set (m := mag (properties eq)) in *.
  simpl in Hin.
  destruct Hin as [<-|[<-|[<-|[<-|[<-|[]]]]]]; cbn in Hr |- *;
    apply andb_prop in Hr as [Hlo Hhi];
    destruct (Qle_bool 2 m) eqn:E2, (Qle_bool 4 m) eqn:E4,
      (Qle_bool 6 m) eqn:E6, (Qle_bool 8 m) eqn:E8;
    cbn in *; try reflexivity; try discriminate;
    exfalso; compare_magnitudes; lra.
Qed.

Lemma bucket_colour_is_record_colour_witness :
  let eq := Sample.quake "b" 6.1 Sample.march1 in
  let range := {| range_min := 6; range_max := 8; range_label := "6-8" |} in
  In range (bucketsOf eq)
  /\ getColorForRange "6-8" = getMagnitudeColor (magnitude eq).
Proof.
  cbv zeta.
  assert (H : In {| range_min := 6; range_max := 8; range_label := "6-8" |}
                (bucketsOf (Sample.quake "b" 6.1 Sample.march1)))
    by (vm_compute; auto).
  split; [exact H|].
  apply (bucket_colour_is_record_colour _ _ H).
Defined.

(** The marker radius is at least 5, at least three times the magnitude,
    equal to one of the two, and never shrinks when the magnitude grows. *)
Theorem marker_radius_bounds (m1 m2 : Q) :
  (5 <= getMarkerRadius m1)%Q
  /\ (m1 * 3 <= getMarkerRadius m1)%Q
  /\ (getMarkerRadius m1 = 5%Q \/ getMarkerRadius m1 = (m1 * 3)%Q)
  /\ ((m1 <= m2)%Q -> (getMarkerRadius m1 <= getMarkerRadius m2)%Q).
Proof.
  unfold getMarkerRadius, Math_max.
  destruct (Qle_bool 5 (m1 * 3)) eqn:E1, (Qle_bool 5 (m2 * 3)) eqn:E2;
    compare_magnitudes; repeat split; auto; try lra.
Qed.

(** The table marks a row as a danger exactly for the magnitudes the
    service describes as strong or major (6 and more); a row marked as a
    warning is of moderate magnitude, at least 4.5. *)
Theorem row_class_matches_description (eq : EarthquakeFeature) :
  (getRowClass eq = "alert-danger"
   <-> In (getMagnitudeDescription (magnitude eq)) ["Strong"; "Major"])
  /\ (getRowClass eq = "alert-warning" ->
      getMagnitudeDescription (magnitude eq) = "Moderate"
      /\ (4.5 <= magnitude eq)%Q).
Proof.
  unfold getRowClass, getMagnitudeDescription, magnitude, Qgeb, Qltb.
  set (m := mag (properties eq)).
  destruct (Qle_bool 6 m) eqn:E6, (Qle_bool 4.5 m) eqn:E45,
    (Qle_bool 2 m) eqn:E2, (Qle_bool 4 m) eqn:E4, (Qle_bool 8 m) eqn:E8;
    cbn; (split; [split|]); intros H;
    first [ discriminate H
          | solve [simpl in H; intuition discriminate]
          | reflexivity
          | solve [simpl; tauto]
          | solve [exfalso; compare_magnitudes; lra]
          | solve [split; [reflexivity | compare_magnitudes; assumption]] ].
Qed.

(** ** The simulated progress *)

(** One segment of the curve: the interpolated value lies between the
    progress values of its end points and grows with the elapsed time. *)
Lemma segment_between (tc pc tn pn e : Z) :
  tc <= e < tn -> pc <= pn ->
  let v := (inject_Z pc
            + inject_Z (e - tc) / inject_Z (tn - tc) * inject_Z (pn - pc))%Q in
  (inject_Z pc <= v)%Q /\ (v <= inject_Z pn)%Q.
Proof.
  intros [Hlo Hhi] Hp v. subst v.
  assert (Hd : (0 < inject_Z (tn - tc))%Q)
    by (change 0%Q with (inject_Z 0); rewrite <- Zlt_Qlt; lia).
  assert (Ha : (0 <= inject_Z (e - tc))%Q)
    by (change 0%Q with (inject_Z 0); rewrite <- Zle_Qle; lia).
  assert (Had : (inject_Z (e - tc) <= inject_Z (tn - tc))%Q)
    by (rewrite <- Zle_Qle; lia).
  assert (Hh : (0 <= inject_Z (pn - pc))%Q)
    by (change 0%Q with (inject_Z 0); rewrite <- Zle_Qle; lia).
  assert (Hr0 : (0 <= inject_Z (e - tc) / inject_Z (tn - tc))%Q).
  { apply Qle_shift_div_l; auto; now rewrite Qmult_0_l. }
  assert (Hr1 : (inject_Z (e - tc) / inject_Z (tn - tc) <= 1)%Q).
  { apply Qle_shift_div_r; auto; now rewrite Qmult_1_l. }
  assert (Hpn : (inject_Z pn == inject_Z pc + inject_Z (pn - pc))%Q).
  { rewrite <- inject_Z_plus. f_equiv. lia. }
  set (r := (inject_Z (e - tc) / inject_Z (tn - tc))%Q) in *.
  set (h := inject_Z (pn - pc)) in *.
  split; [|rewrite Hpn]; nra.
Qed.

Lemma segment_rising (tc pc tn pn e1 e2 : Z) :
  tc <= e1 -> e1 <= e2 -> e2 < tn -> pc <= pn ->
  (inject_Z pc + inject_Z (e1 - tc) / inject_Z (tn - tc) * inject_Z (pn - pc)
   <= inject_Z pc
      + inject_Z (e2 - tc) / inject_Z (tn - tc) * inject_Z (pn - pc))%Q.
Proof.
  intros H1 H12 H2 Hp.
  assert (Hd : (0 < inject_Z (tn - tc))%Q)
    by (change 0%Q with (inject_Z 0); rewrite <- Zlt_Qlt; lia).
  assert (Hh : (0 <= inject_Z (pn - pc))%Q)
    by (change 0%Q with (inject_Z 0); rewrite <- Zle_Qle; lia).
  assert (Ha : (inject_Z (e1 - tc) <= inject_Z (e2 - tc))%Q)
    by (rewrite <- Zle_Qle; lia).
  assert (Hr : (inject_Z (e1 - tc) / inject_Z (tn - tc)
                <= inject_Z (e2 - tc) / inject_Z (tn - tc))%Q).
  { unfold Qdiv. apply Qmult_le_compat_r; auto.
    apply Qinv_le_0_compat. now apply Qlt_le_weak. }
  apply Qplus_le_r. now apply Qmult_le_compat_r.
Qed.

(** On a rising curve the interpolation is 0 before the first point, stays
    between the first and the last progress value from there to the last
    point, and does not decrease on the way. *)
Lemma interpolate_rising curve :
  rising curve = true ->
  forall first rest,
    curve = first :: rest ->
    (forall e, e < fst first -> interpolate curve e = 0%Q)
    /\ (forall e, fst first <= e < fst (lastPoint curve) ->
          (inject_Z (snd first) <= interpolate curve e)%Q
          /\ (interpolate curve e <= inject_Z (snd (lastPoint curve)))%Q)
    /\ (forall e1 e2, fst first <= e1 -> e1 <= e2 ->
          e2 < fst (lastPoint curve) ->
          (interpolate curve e1 <= interpolate curve e2)%Q)
    /\ fst first <= fst (lastPoint curve)
    /\ snd first <= snd (lastPoint curve).
Proof.
  induction curve as [|current curve IH]; intros Hr first rest Heq;
    [discriminate|].
  injection Heq as <- <-.
  destruct curve as [|next tail].
  - unfold lastPoint. simpl. repeat split; intros; try lia; reflexivity.
  - cbn [rising] in Hr.
    apply andb_prop in Hr as [Hr Hrest]. apply andb_prop in Hr as [Ht Hp].
    apply Z.ltb_lt in Ht. apply Z.leb_le in Hp.
    destruct (IH Hrest next tail eq_refl) as (Hbefore & Hin & Hmono & Hlt & Hlp).
    assert (Hlast : lastPoint (current :: next :: tail)
                    = lastPoint (next :: tail)) by reflexivity.
    rewrite Hlast.
    assert (Hseg : forall e, fst current <= e < fst next ->
               interpolate (current :: next :: tail) e
               = (inject_Z (snd current)
                  + inject_Z (e - fst current)
                    / inject_Z (fst next - fst current)
                    * inject_Z (snd next - snd current))%Q).
    { intros e [Hlo Hhi]. cbn [interpolate].
      apply Z.leb_le in Hlo. apply Z.ltb_lt in Hhi. now rewrite Hlo, Hhi. }
    assert (Hlater : forall e, fst next <= e ->
               interpolate (current :: next :: tail) e
               = interpolate (next :: tail) e).
    { intros e Hlo. cbn [interpolate].
      replace (e <? fst next) with false
        by (symmetry; apply Z.ltb_ge; lia).
      now rewrite andb_false_r. }
    split; [|split; [|split; [|split]]].
    + intros e He. cbn [interpolate].
      replace (fst current <=? e) with false
        by (symmetry; apply Z.leb_gt; lia).
      cbn [andb]. apply Hbefore. lia.
    + intros e [Hlo Hhi].
      destruct (Z_lt_le_dec e (fst next)) as [Hs|Hs].
      * rewrite Hseg by lia.
        destruct (segment_between (fst current) (snd current) (fst next)
                    (snd next) e) as [H1 H2]; auto.
        split; auto. eapply Qle_trans; eauto. rewrite <- Zle_Qle. lia.
      * rewrite Hlater by lia.
        destruct (Hin e) as [H1 H2]; [lia|]. split; auto.
        eapply Qle_trans; eauto. rewrite <- Zle_Qle. lia.
    + intros e1 e2 H1 H12 H2.
      destruct (Z_lt_le_dec e2 (fst next)) as [Hs2|Hs2].
      * rewrite !Hseg by lia. apply segment_rising; lia.
      * rewrite (Hlater e2) by lia.
        destruct (Z_lt_le_dec e1 (fst next)) as [Hs1|Hs1].
        -- rewrite Hseg by lia.
           destruct (segment_between (fst current) (snd current) (fst next)
                       (snd next) e1) as [_ Hup]; auto.
           destruct (Hin e2) as [Hlo2 _]; [lia|].
           eapply Qle_trans; eauto.
        -- rewrite (Hlater e1) by lia. apply Hmono; lia.
    + lia.
    + lia.
Qed.

Lemma Math_round_monotone (a b : Q) :
  (a <= b)%Q -> Math_round a <= Math_round b.
Proof.
  intros H. unfold Math_round. apply Qfloor_resp_le. lra.
Qed.

(** The value the interval callback rounds: 0 before the start, 94 from
    120 s on, the interpolation in between. *)
Lemma progress_before_rounding (elapsed : Z) :
  let progress :=
    if elapsed >=? 120000 then 94%Q else interpolate progressCurve elapsed in
  (0 <= progress)%Q /\ (progress <= 94)%Q.
Proof.
  cbv zeta.
  destruct (interpolate_rising progressCurve eq_refl _ _ eq_refl)
    as (Hbefore & Hin & _).
  change (fst (lastPoint progressCurve)) with 120000 in Hin.
  change (inject_Z (snd (lastPoint progressCurve))) with 94%Q in Hin.
  destruct (elapsed >=? 120000) eqn:E; [split; lra|].
  rewrite Z.geb_leb in E. apply Z.leb_gt in E.
  destruct (Z_lt_le_dec elapsed 0) as [Hneg|Hpos].
  - rewrite (Hbefore elapsed Hneg). split; lra.
  - destruct (Hin elapsed) as [Hlo Hhi]; [simpl; lia|].
    split; auto.
Qed.

(** The simulated progress stays between 0 and 94, below the 95 that the
    service publishes when the response arrives, and never goes back as time
    passes. *)
Theorem simulated_progress_is_bounded_and_monotone (e1 e2 : Z) :
  0 <= simulatedProgress e1 <= 94
  /\ (e1 <= e2 -> simulatedProgress e1 <= simulatedProgress e2).
Proof.
  unfold simulatedProgress. split.
  - destruct (progress_before_rounding e1) as [Hlo Hhi].
    split.
    + change 0 with (Math_round 0). now apply Math_round_monotone.
    + change 94 with (Math_round 94). now apply Math_round_monotone.
  - intros Hle. apply Math_round_monotone.
    destruct (progress_before_rounding e1) as [Hlo1 Hhi1].
    destruct (progress_before_rounding e2) as [Hlo2 Hhi2].
    destruct (interpolate_rising progressCurve eq_refl _ _ eq_refl)
      as (Hbefore & _ & Hmono & _).
    change (fst (lastPoint progressCurve)) with 120000 in Hmono.
    destruct (e2 >=? 120000) eqn:E2; [exact Hhi1|].
    rewrite Z.geb_leb in E2. apply Z.leb_gt in E2.
    replace (e1 >=? 120000) with false in *
      by (symmetry; rewrite Z.geb_leb; apply Z.leb_gt; lia).
    destruct (Z_lt_le_dec e1 0) as [Hneg|Hpos].
    + rewrite (Hbefore e1 Hneg). exact Hlo2.
    + apply Hmono; simpl; lia.
Qed.

Lemma simulated_progress_is_bounded_and_monotone_witness :
  2000 <= 45000 /\ simulatedProgress 2000 <= simulatedProgress 45000.
Proof.
  assert (H : 2000 <= 45000) by lia.
  split; [exact H|].
  apply (simulated_progress_is_bounded_and_monotone 2000 45000). exact H.
Defined.

(** ** The size of the per-day series *)

Lemma set_length {V : Type} (k : string) (v : V) (m : JsMap.t V) :
  (List.length (JsMap.set k v m) <= S (List.length m))%nat.
Proof.
  induction m as [|[k' v'] m IH]; simpl; [lia|].
  destruct (String.eqb k k'); simpl; lia.
Qed.

(** The iterations of the seeding loop that are left at index [i]. *)
Lemma seedDays_length (DF : DateFns) fuel startDate daysDiff sampleInterval :
  1 <= sampleInterval ->
  forall i dateMap,
    Z.of_nat
      (List.length (seedDays fuel startDate daysDiff sampleInterval i dateMap))
    <= Z.of_nat (List.length dateMap)
       + (if i <=? daysDiff then (daysDiff - i) / sampleInterval + 1 else 0).
Proof.
  intros Hstep.
  induction fuel as [|fuel IH]; intros i dateMap; simpl.
  - destruct (i <=? daysDiff) eqn:E; [|lia].
    apply Z.leb_le in E.
    assert (0 <= (daysDiff - i) / sampleInterval)
      by (apply Z.div_pos; lia).
    lia.
  - destruct (i <=? daysDiff) eqn:E; [|lia].
    apply Z.leb_le in E.
    specialize (IH (i + sampleInterval)
                  (JsMap.set (format_yyyy_MM_dd (addDays startDate i)) 0%nat
                     dateMap)).
    pose proof (set_length (format_yyyy_MM_dd (addDays startDate i)) 0%nat
                  dateMap) as Hset.
    assert (Hpos : 0 <= (daysDiff - i) / sampleInterval)
      by (apply Z.div_pos; lia).
    destruct (i + sampleInterval <=? daysDiff) eqn:E'.
    + apply Z.leb_le in E'.
      assert (Hdiv : (daysDiff - i) / sampleInterval
                     = (daysDiff - (i + sampleInterval)) / sampleInterval + 1).
      { replace (daysDiff - i)
          with (daysDiff - (i + sampleInterval) + 1 * sampleInterval) by lia.
        apply Z.div_add. lia. }
      lia.
    + lia.
Qed.

(** With the sampling interval of the service at most 91 days are seeded. *)
Lemma seeded_days_bound (daysDiff : Z) :
  (if 0 <=? daysDiff
   then (daysDiff - 0) / sampleIntervalOf daysDiff + 1 else 0) <= 91.
Proof.
  destruct (0 <=? daysDiff) eqn:E; [|lia].
  apply Z.leb_le in E. rewrite Z.sub_0_r.
  pose proof (sampleIntervalOf_positive daysDiff) as Hpos.
  assert (Hcover : daysDiff <= sampleIntervalOf daysDiff * 90).
  { unfold sampleIntervalOf in *.
    destruct (90 <? daysDiff) eqn:E90.
    - pose proof (Qle_ceiling (inject_Z daysDiff / 90)) as Hc.
      apply (Qmult_le_compat_r _ _ 90) in Hc; [|discriminate].
      assert (Hq : (inject_Z daysDiff / 90 * 90 == inject_Z daysDiff)%Q)
        by (field).
      rewrite Hq in Hc.
      change 90%Q with (inject_Z 90) in Hc.
      rewrite <- inject_Z_mult in Hc. now rewrite <- Zle_Qle in Hc.
    - apply Z.ltb_ge in E90. lia. }
  assert (daysDiff / sampleIntervalOf daysDiff <= 90)
    by (apply Z.div_le_upper_bound; lia).
  lia.
Qed.

Lemma forEach_length (DF : DateFns) earthquakes :
  forall dateMap,
    (List.length (fold_left countDay earthquakes dateMap)
     <= List.length dateMap + List.length earthquakes)%nat.
Proof.
  induction earthquakes as [|eq earthquakes IH]; intros dateMap; simpl.
  - lia.
  - specialize (IH (countDay dateMap eq)).
    pose proof (set_length (dayOf eq)
                  (match JsMap.get (dayOf eq) dateMap with
                   | Some c => c
                   | None => 0
                   end + 1)%nat dateMap) as Hset.
    unfold countDay in *. lia.
Qed.

(** The per-day series never has more than 91 seeded days, however long the
    date span of the filter: its length is at most 91 plus the number of
    records. *)
Theorem frequency_series_is_bounded (DF : DateFns)
    (earthquakes : list EarthquakeFeature) (filters : EarthquakeFilters) :
  (List.length (frequencyPerDay (generateSummary earthquakes filters))
   <= 91 + List.length earthquakes)%nat.
Proof.
  destruct earthquakes as [|first rest]; [simpl; lia|].
  cbn [generateSummary frequencyPerDay]. unfold frequencyPerDayOf.
  set (earthquakes := first :: rest).
  set (startDate := parseISO (startTime filters)).
  set (daysDiff := differenceInDays (parseISO (endTime filters)) startDate).
  pose proof (forEach_length DF earthquakes
                (seedDays (Z.to_nat (daysDiff + 1)) startDate daysDiff
                   (sampleIntervalOf daysDiff) 0 JsMap.empty)) as Hcount.
  pose proof (seedDays_length DF (Z.to_nat (daysDiff + 1)) startDate daysDiff
                (sampleIntervalOf daysDiff)
                (sampleIntervalOf_positive daysDiff) 0 JsMap.empty) as Hseed.
  pose proof (seeded_days_bound daysDiff) as Hbound.
  simpl List.length in Hseed at 2. lia.
Qed.

Lemma countDay_same_day (DF : DateFns) (day : string) earthquakes :
  (forall eq, In eq earthquakes -> dayOf eq = day) ->
  forall c,
    fold_left countDay earthquakes [(day, c)]
    = [(day, (c + List.length earthquakes)%nat)].
Proof.
  induction earthquakes as [|eq earthquakes IH]; intros Hday c; simpl.
  - f_equal. f_equal. lia.
  - unfold countDay at 2. rewrite (Hday eq) by now left.
    simpl. rewrite String.eqb_refl.
    rewrite IH by (intros; apply Hday; now right).
    f_equal. f_equal. lia.
Qed.

(** A filter whose start and end are the same day, with records of that
    day only: the series is the single bucket of that day and holds all the
    records. *)
Theorem single_day_span_has_one_bucket (DF : DateFns)
    (earthquakes : list EarthquakeFeature) (filters : EarthquakeFilters) :
  earthquakes <> [] ->
  differenceInDays (parseISO (endTime filters)) (parseISO (startTime filters))
  = 0 ->
  (forall eq, In eq earthquakes ->
     dayOf eq = format_yyyy_MM_dd (addDays (parseISO (startTime filters)) 0)) ->
  frequencyPerDay (generateSummary earthquakes filters)
  = [(format_yyyy_MM_dd (addDays (parseISO (startTime filters)) 0),
      List.length earthquakes)].
Proof.
  intros Hne Hspan Hday.
  destruct earthquakes as [|first rest]; [congruence|].
  cbn [generateSummary frequencyPerDay]. unfold frequencyPerDayOf.
  rewrite Hspan.
  set (startDate := parseISO (startTime filters)) in *.
  assert (Hseed : seedDays (Z.to_nat (0 + 1)) startDate 0 (sampleIntervalOf 0)
                    0 JsMap.empty
                  = [(format_yyyy_MM_dd (addDays startDate 0), 0%nat)])
    by reflexivity.
  rewrite Hseed.
  now rewrite (countDay_same_day DF _ (first :: rest) Hday).
Qed.

Lemma single_day_span_has_one_bucket_witness :
  Sample.threeQuakes <> []
  /\ frequencyPerDay
       (generateSummary (DF := Sample.utcDates) Sample.threeQuakes
          (Sample.filtersFor "2024-03-01" "2024-03-01"))
     = [("2024-03-01", 3%nat)].
Proof.
  assert (Hne : Sample.threeQuakes <> []) by discriminate.
  split; [exact Hne|].
  apply (single_day_span_has_one_bucket Sample.utcDates Sample.threeQuakes
           (Sample.filtersFor "2024-03-01" "2024-03-01") Hne).
  - reflexivity.
  - intros eq [<-|[<-|[<-|[]]]]; reflexivity.
Defined.

(** ** Batched publication *)

Lemma totalBatchesOf_covers (earthquakes : list EarthquakeFeature) :
  (List.length earthquakes <= totalBatchesOf earthquakes * BATCH_SIZE)%nat.
Proof.
  unfold totalBatchesOf, BATCH_SIZE.
  set (n := Z.of_nat (List.length earthquakes)).
  pose proof (Qle_ceiling (inject_Z n / inject_Z (Z.of_nat 500))) as Hc.
  set (c := Qceiling (inject_Z n / inject_Z (Z.of_nat 500))) in *.
  apply (Qmult_le_compat_r _ _ (inject_Z 500)) in Hc; [|discriminate].
  assert (Hq : (inject_Z n / inject_Z (Z.of_nat 500) * inject_Z 500
                == inject_Z n)%Q) by (field; discriminate).
  rewrite Hq, <- inject_Z_mult, <- Zle_Qle in Hc.
  assert (0 <= n) by (subst n; lia).
  assert (0 <= c) by lia.
  subst n. lia.
Qed.

Section Batches.

Context {DF : DateFns} {JS : JsBuiltins}.

(** What one batch publishes. *)
Lemma processNextBatch_publishes earthquakes filters total k s :
  (k < total)%nat ->
  let s' := processNextBatch earthquakes filters total k s in
  earthquakesSubject s'
  = firstn (Nat.min (k * BATCH_SIZE + BATCH_SIZE) (List.length earthquakes))
           earthquakes
  /\ summarySubject s'
     = (if (k =? total - 1)%nat
        then Some (generateSummary earthquakes filters)
        else summarySubject s)
  /\ timers s' = (timers s ++ [NextBatch earthquakes filters total (S k)])%list.
Proof.
  intros Hk. cbv zeta. unfold processNextBatch.
  replace (total <=? k)%nat with false by (symmetry; apply Nat.leb_gt; lia).
  destruct s; destruct (k =? total - 1)%nat; simpl; auto.
Qed.

Lemma processNextBatch_done earthquakes filters total k s :
  (total <= k)%nat ->
  processNextBatch earthquakes filters total k s = setProgress 100 s.
Proof.
  intros Hk. unfold processNextBatch.
  now replace (total <=? k)%nat with true by (symmetry; apply Nat.leb_le; lia).
Qed.

Lemma firstn_whole {A : Type} (l : list A) (n : nat) :
  (List.length l <= n)%nat -> firstn (Nat.min n (List.length l)) l = l.
Proof.
  intros H. rewrite Nat.min_r by lia. apply firstn_all.
Qed.

(** The chain of batches from batch [k] on. *)
Lemma batches_finish earthquakes filters :
  let total := totalBatchesOf earthquakes in
  forall m k s,
    total = (k + m)%nat ->
    (1 <= k)%nat ->
    timers s = [NextBatch earthquakes filters total k] ->
    (m = 0%nat ->
     earthquakesSubject s = earthquakes
     /\ summarySubject s = Some (generateSummary earthquakes filters)) ->
    let s' := run s (repeat (TimerFires 0) (S m)) in
    earthquakesSubject s' = earthquakes
    /\ summarySubject s' = Some (generateSummary earthquakes filters)
    /\ timers s' = []
    /\ progressSubject s' = 100.
Proof.
  intros total. induction m as [|m IH]; intros k s Htotal Hk Htimers Hlast.
  - cbn [repeat run fold_left step]. rewrite Htimers. cbn [nth_error runTimer].
    rewrite processNextBatch_done by lia.
    destruct (Hlast eq_refl) as [He Hs].
    destruct s; simpl in *. auto.
  - cbn [repeat]. change (run s (TimerFires 0 :: ?l))
      with (run (step s (TimerFires 0)) l).
    cbn [step]. rewrite Htimers. cbn [nth_error runTimer dropNth].
    destruct (processNextBatch_publishes earthquakes filters total k
                (setTimers [] s)) as (He & Hs & Ht); [lia|].
    apply (IH (S k)); [lia | lia | |].
    + rewrite Ht. now destruct s.
    + intros ->. rewrite He, Hs. split.
      * apply firstn_whole.
        pose proof (totalBatchesOf_covers earthquakes). fold total in H. lia.
      * replace (k =? total - 1)%nat with true; auto.
        symmetry. apply Nat.eqb_eq. lia.
Qed.

Lemma step_batchTimers earthquakes filters s :
  batchTimers earthquakes filters (timers s) ->
  (exists n, earthquakesSubject s = firstn n earthquakes) ->
  batchTimers earthquakes filters (timers (step s (TimerFires 0)))
  /\ exists n, earthquakesSubject (step s (TimerFires 0)) = firstn n earthquakes.
Proof.
  intros [Ht|[Ht|[k Ht]]] Hpre; cbn [step]; rewrite Ht;
    cbn [nth_error runTimer dropNth].
  - split; [now left | exact Hpre].
  - unfold processBatchesSequentially. fold (totalBatchesOf earthquakes).
    destruct (Nat.le_gt_cases (totalBatchesOf earthquakes) 0) as [Hd|Hd].
    + rewrite processNextBatch_done by lia.
      destruct s; simpl in *. split; [now left | exact Hpre].
    + destruct (processNextBatch_publishes earthquakes filters
                  (totalBatchesOf earthquakes) 0 (setTimers [] s) Hd)
        as (He & _ & Htm).
      rewrite He, Htm. split; [|eauto].
      right; right. exists 1%nat. now destruct s.
  - destruct (Nat.le_gt_cases (totalBatchesOf earthquakes) k) as [Hd|Hd].
    + rewrite processNextBatch_done by lia.
      destruct s; simpl in *. split; [now left | exact Hpre].
    + destruct (processNextBatch_publishes earthquakes filters
                  (totalBatchesOf earthquakes) k (setTimers [] s) Hd)
        as (He & _ & Htm).
      rewrite He, Htm. split; [|eauto].
      right; right. exists (S k). now destruct s.
Qed.

End Batches.

(** A response of [BATCH_SIZE] records or more is published in two steps:
    at once its first 100 records with the summary of those 100; then, as
    the timers run, growing prefixes of the response and, with the last
    batch, the summary of the whole response.  After one timer per batch
    and one more, the records channel holds the whole response, the summary
    channel its summary, and no timer is left. *)
Theorem batches_publish_the_whole_response (DF : DateFns) (JS : JsBuiltins)
    (response : EarthquakeResponse) (filters : EarthquakeFilters)
    (s : Service) :
  timers s = [] ->
  (BATCH_SIZE <= List.length (features response))%nat ->
  let earthquakes := features response in
  let s1 := processResponseInBatches response filters s in
  let fire n := run s1 (repeat (TimerFires 0) n) in
  earthquakesSubject s1 = firstn 100 earthquakes
  /\ summarySubject s1
     = Some (generateSummary (firstn 100 earthquakes) filters)
  /\ (forall n, exists len,
        earthquakesSubject (fire n) = firstn len earthquakes)
  /\ earthquakesSubject (fire (S (totalBatchesOf earthquakes))) = earthquakes
  /\ summarySubject (fire (S (totalBatchesOf earthquakes)))
     = Some (generateSummary earthquakes filters)
  /\ timers (fire (S (totalBatchesOf earthquakes))) = []
  /\ progressSubject (fire (S (totalBatchesOf earthquakes))) = 100.
Proof.
  intros Htimers Hbig earthquakes s1 fire.
  assert (Hs1 : earthquakesSubject s1 = firstn 100 earthquakes
                /\ summarySubject s1
                   = Some (generateSummary (firstn 100 earthquakes) filters)
                /\ timers s1 = [StartBatches earthquakes filters]).
  { subst s1. unfold processResponseInBatches.
    replace (List.length (features response) <? BATCH_SIZE)%nat with false
      by (symmetry; apply Nat.ltb_ge; lia).
    unfold processResponse. cbn [features].
    destruct s; simpl in Htimers; subst.
    repeat match goal with
      | |- context [if ?b then _ else _] => destruct b
      end; simpl; repeat split; reflexivity. }
  destruct Hs1 as (He1 & Hsum1 & Ht1).
  split; [exact He1|]. split; [exact Hsum1|]. split.
  - assert (Hinv : forall n,
               batchTimers earthquakes filters (timers (fire n))
               /\ exists len,
                    earthquakesSubject (fire n) = firstn len earthquakes).
    { induction n as [|n [IHt IHe]].
      - subst fire. cbn [repeat run fold_left]. split; [|eauto].
        right; left. exact Ht1.
      - assert (Hstep : fire (S n) = step (fire n) (TimerFires 0)).
        { subst fire. cbv beta. unfold run.
          replace (S n) with (n + 1)%nat by lia.
          now rewrite repeat_app, fold_left_app. }
        rewrite Hstep. now apply step_batchTimers. }
    intros n. apply Hinv.
  - assert (Hpos : (1 <= totalBatchesOf earthquakes)%nat).
    { pose proof (totalBatchesOf_covers earthquakes) as Hc.
      unfold BATCH_SIZE in *. subst earthquakes. lia. }
    assert (Hfirst : fire (S (totalBatchesOf earthquakes))
                     = run (step s1 (TimerFires 0))
                         (repeat (TimerFires 0) (totalBatchesOf earthquakes)))
      by reflexivity.
    rewrite Hfirst. clear Hfirst.
    cbn [step]. rewrite Ht1. cbn [nth_error runTimer dropNth].
    unfold processBatchesSequentially. fold (totalBatchesOf earthquakes).
    destruct (processNextBatch_publishes earthquakes filters
                (totalBatchesOf earthquakes) 0 (setTimers [] s1) Hpos)
      as (He & Hs & Ht).
    set (s2 := processNextBatch earthquakes filters
                 (totalBatchesOf earthquakes) 0 (setTimers [] s1)) in *.
    assert (Hm : exists m, totalBatchesOf earthquakes = S m)
      by (exists (totalBatchesOf earthquakes - 1)%nat; lia).
    destruct Hm as [m Hm].
    pose proof (batches_finish earthquakes filters m 1 s2) as Hfin.
    cbv zeta in Hfin. rewrite <- Hm in Hfin.
    apply Hfin; try lia.
    + rewrite Ht. now destruct s1.
    + intros ->. rewrite He, Hs, Hm. split; [|reflexivity].
      apply firstn_whole.
      pose proof (totalBatchesOf_covers earthquakes) as Hc.
      rewrite Hm in Hc. lia.
Qed.

Lemma batches_publish_the_whole_response_witness :
  let s1 := processResponseInBatches (DF := Sample.utcDates)
              (responseOf 1200)
              (Sample.filtersFor "2024-03-01" "2024-03-05") initialService in
  timers initialService = []
  /\ (BATCH_SIZE <= List.length (features (responseOf 1200)))%nat
  /\ earthquakesSubject
       (run (DF := Sample.utcDates) (JS := Sample.builtins) s1
          (repeat (TimerFires 0)
             (S (totalBatchesOf (features (responseOf 1200))))))
     = features (responseOf 1200).
Proof.
  cbv zeta.
  assert (H1 : timers initialService = []) by reflexivity.
  assert (H2 : (BATCH_SIZE <= List.length (features (responseOf 1200)))%nat)
    by (vm_compute; repeat constructor).
  split; [exact H1|]. split; [exact H2|].
  apply (batches_publish_the_whole_response Sample.utcDates Sample.builtins
           (responseOf 1200) (Sample.filtersFor "2024-03-01" "2024-03-05")
           initialService H1 H2).
Defined.

(** ** Invariants of the service *)

Lemma simulatedProgress_range (elapsed : Z) :
  0 <= simulatedProgress elapsed <= 94.
Proof.
  unfold simulatedProgress.
  destruct (progress_before_rounding elapsed) as [Hlo Hhi]. split.
  - change 0 with (Math_round 0). now apply Math_round_monotone.
  - change 94 with (Math_round 94). now apply Math_round_monotone.
Qed.

(** The progress of a batch: between 95 and 100. *)
Lemma batch_progress_range (currentBatch totalBatches : nat) :
  (currentBatch < totalBatches)%nat ->
  95 <= 95 + Qfloor (inject_Z (Z.of_nat currentBatch)
                     / inject_Z (Z.of_nat totalBatches) * 5)%Q <= 100.
Proof.
  intros Hlt.
  set (x := (inject_Z (Z.of_nat currentBatch)
             / inject_Z (Z.of_nat totalBatches) * 5)%Q).
  assert (Hd : (0 < inject_Z (Z.of_nat totalBatches))%Q)
    by (change 0%Q with (inject_Z 0); rewrite <- Zlt_Qlt; lia).
  assert (Hk : (0 <= inject_Z (Z.of_nat currentBatch))%Q)
    by (change 0%Q with (inject_Z 0); rewrite <- Zle_Qle; lia).
  assert (Hkd : (inject_Z (Z.of_nat currentBatch)
                 <= inject_Z (Z.of_nat totalBatches))%Q)
    by (rewrite <- Zle_Qle; lia).
  assert (Hr0 : (0 <= inject_Z (Z.of_nat currentBatch)
                      / inject_Z (Z.of_nat totalBatches))%Q)
    by (apply Qle_shift_div_l; auto; now rewrite Qmult_0_l).
  assert (Hr1 : (inject_Z (Z.of_nat currentBatch)
                 / inject_Z (Z.of_nat totalBatches) <= 1)%Q)
    by (apply Qle_shift_div_r; auto; now rewrite Qmult_1_l).
  assert (H0 : (0 <= x)%Q) by (subst x; nra).
  assert (H5 : (x <= 5)%Q) by (subst x; nra).
  apply Qfloor_resp_le in H0. apply Qfloor_resp_le in H5.
  change (Qfloor 0) with 0 in H0. change (Qfloor 5) with 5 in H5. lia.
Qed.

Section Coherence.

Context {DF : DateFns} {JS : JsBuiltins}.

Ltac split_state s :=
  destruct s; unfold coherent in *; simpl in *.

Ltac close_coherent :=
  repeat match goal with
    | |- _ /\ _ => split
    | |- _ <-> _ => split
    | |- forall _, _ => intro
    | H : _ /\ _ |- _ => destruct H
    | H : _ <-> _ |- _ => destruct H
    | H : Some _ = Some _ |- _ => injection H as H; subst
    end;
  simpl in *; try congruence; try lia; try tauto; auto;
  try match goal with
    | H : forall request, ?i = Some request -> _, H0 : ?i = Some ?r |- _ =>
        destruct (H r H0) as (? & ? & ?); solve [auto | lia]
    end.

Lemma coherent_initial : coherent initialService.
Proof. unfold coherent; simpl. close_coherent. Qed.

Lemma cancelCurrentRequest_coherent s :
  coherent s -> coherent (cancelCurrentRequest s)
                /\ inflight (cancelCurrentRequest s) = None
                /\ progressSimulation (cancelCurrentRequest s) = None
                /\ loadingSubject (cancelCurrentRequest s) = false.
Proof.
  intros H. unfold cancelCurrentRequest, finalizeRequest.
  split_state s. destruct inflight0; simpl; close_coherent.
Qed.

Lemma processResponse_coherent response filters s :
  coherent s -> coherent (processResponse response filters s).
Proof.
  intros H. unfold processResponse. split_state s.
  repeat match goal with
    | |- context [if ?b then _ else _] => destruct b
    end; simpl; exact H.
Qed.

Lemma processResponseInBatches_coherent response filters s :
  coherent s -> coherent (processResponseInBatches response filters s).
Proof.
  intros H. unfold processResponseInBatches, processResponse.
  split_state s.
  repeat match goal with
    | |- context [if ?b then _ else _] => destruct b
    end; simpl; exact H.
Qed.

Lemma processNextBatch_coherent earthquakes filters total k s :
  coherent s -> coherent (processNextBatch earthquakes filters total k s).
Proof.
  intros H. unfold processNextBatch.
  destruct (total <=? k)%nat eqn:E.
  - split_state s. close_coherent.
  - apply Nat.leb_gt in E.
    pose proof (batch_progress_range k total E) as Hp.
    split_state s. destruct (k =? total - 1)%nat; simpl; close_coherent.
Qed.

Lemma fetchEarthquakes_coherent filters now s :
  coherent s -> coherent (fetchEarthquakes filters now s).
Proof.
  intros H. unfold fetchEarthquakes.
  destruct (cancelCurrentRequest_coherent s H) as (Hc & Hin & Hsim & Hload).
  set (s0 := cancelCurrentRequest s) in *. clearbody s0.
  set (s1 := setProgress 0 (setError None (setLoading true s0))).
  destruct (getFromCache (createCacheKey filters) now (store s1))
    as [[cachedData|] store'].
  - assert (Hs : coherent
                   (setError None (setLoading false (setStore store' s0)))).
    { split_state s0. subst. close_coherent. }
    assert (Hp : coherent
                   (processResponse cachedData filters
                      (setError None (setLoading false (setStore store' s0)))))
      by now apply processResponse_coherent.
    assert (Heq : toast ToastCacheHit
                    (setLoading false
                       (setProgress 100
                          (processResponse cachedData filters
                             (setStore store' s1))))
                  = toast ToastCacheHit
                      (setProgress 100
                         (processResponse cachedData filters
                            (setError None
                               (setLoading false (setStore store' s0)))))).
    { subst s1. unfold processResponse. destruct s0; simpl.
      repeat match goal with
        | |- context [if ?b then _ else _] => destruct b
        end; reflexivity. }
    rewrite Heq.
    destruct (processResponse cachedData filters
                (setError None (setLoading false (setStore store' s0)))).
    unfold coherent in *; simpl in *. close_coherent.
  - subst s1. split_state s0. subst.
    destruct (isLargeDateRange filters); simpl; close_coherent.
Qed.

Lemma onResponse_coherent request response nowCleanup nowSet s :
  coherent s -> coherent (onResponse request response nowCleanup nowSet s).
Proof.
  intros H. unfold onResponse, finalizeRequest.
  set (s1 := setStore _ _).
  assert (H1 : coherent s1) by (subst s1; split_state s; close_coherent).
  apply (processResponseInBatches_coherent response (req_filters request))
    in H1.
  destruct (processResponseInBatches response (req_filters request) s1).
  unfold coherent in *; simpl in *. close_coherent.
Qed.

Lemma onError_coherent isTimeout s :
  coherent s -> coherent (onError isTimeout s).
Proof.
  intros H. unfold onError, cancelCurrentRequest, finalizeRequest.
  split_state s. destruct isTimeout; simpl; close_coherent.
Qed.

Lemma step_coherent s e : coherent s -> coherent (step s e).
Proof.
  intros H. destruct e as [filters now| |rid response nowCleanup nowSet
                          |rid isTimeout|now|now|n]; cbn [step].
  - now apply fetchEarthquakes_coherent.
  - now apply cancelCurrentRequest_coherent.
  - destruct (subscribed rid s); auto using onResponse_coherent.
  - destruct (subscribed rid s); auto using onError_coherent.
  - destruct (progressSimulation s) as [started|] eqn:E; auto.
    pose proof (simulatedProgress_range (now - started)) as Hr.
    split_state s. close_coherent.
  - split_state s. close_coherent.
  - destruct (nth_error (timers s) n) as [task|]; auto.
    assert (H1 : coherent (setTimers (dropNth n (timers s)) s))
      by (split_state s; close_coherent).
    destruct task; cbn [runTimer]; [unfold processBatchesSequentially|];
      now apply processNextBatch_coherent.
Qed.

End Coherence.

(** Whatever sequence of events the service has gone through since its
    creation: the loading flag is up exactly while a request is in flight,
    the progress simulation runs only while one is, the published progress
    is between 0 and 100, and the request in flight carries the cache key
    and the parameters of its own filter. *)
Theorem service_stays_coherent (DF : DateFns) (JS : JsBuiltins)
    (events : list Event) :
  coherent (run initialService events).
Proof.
  unfold run.
  assert (H : forall s, coherent s -> coherent (fold_left step events s)).
  { induction events as [|e events IH]; intros s Hs; simpl; auto.
    apply IH, step_coherent, Hs. }
  apply H, coherent_initial.
Qed.

(** ** Failures and repeated fetches *)

Section FetchOutcomes.

Context {DF : DateFns} {JS : JsBuiltins}.

Lemma subscribed_inflight request s :
  inflight s = Some request -> subscribed (req_id request) s = Some request.
Proof.
  intros H. unfold subscribed. now rewrite H, Nat.eqb_refl.
Qed.

Lemma subscribed_is_inflight rid request s :
  subscribed rid s = Some request -> inflight s = Some request.
Proof.
  unfold subscribed. destruct (inflight s) as [r|]; [|discriminate].
  destruct (req_id r =? rid)%nat; [|discriminate]. now intros [= ->].
Qed.

Lemma cancelCurrentRequest_store s :
  store (cancelCurrentRequest s) = store s
  /\ issued (cancelCurrentRequest s) = issued s.
Proof.
  unfold cancelCurrentRequest, finalizeRequest.
  destruct s; destruct inflight0; simpl; auto.
Qed.

(** The round trip of the cache, as the service uses it. *)
Lemma addToCache_then_get key response nowCleanup nowSet now c :
  currentCacheSize c + estimateObjectSize response <= MAX_CACHE_SIZE
  \/ currentCacheSize (cleanupCache nowCleanup c) + estimateObjectSize response
     <= MAX_CACHE_SIZE ->
  now - nowSet <= CACHE_DURATION ->
  getFromCache key now (addToCache key response nowCleanup nowSet c)
  = (Some response, addToCache key response nowCleanup nowSet c).
Proof.
  intros Hfits Httl.
  destruct (addToCache_cases key response nowCleanup nowSet c)
    as [(_ & ->)|[(_ & _ & ->)|(H1 & H2 & _)]]; [| |destruct Hfits; lia];
    unfold getFromCache, storeEntry; cbn [cache];
    rewrite JsMapFacts.get_set_same; cbn [timestamp data];
    replace (now - nowSet >? CACHE_DURATION) with false; auto;
    symmetry; rewrite Z.gtb_ltb; apply Z.ltb_ge; lia.
Qed.

Lemma onResponse_store request response nowCleanup nowSet s :
  store (onResponse request response nowCleanup nowSet s)
  = addToCache (req_key request) response nowCleanup nowSet (store s)
  /\ issued (onResponse request response nowCleanup nowSet s) = issued s.
Proof.
  unfold onResponse, finalizeRequest, processResponseInBatches,
    processResponse.
  destruct s; simpl.
  repeat match goal with
    | |- context [if ?b then _ else _] => destruct b
    end; simpl; auto.
Qed.

(** A fetch that finds its key in the cache. *)
Lemma fetchEarthquakes_hit filters now s cachedData store' :
  getFromCache (createCacheKey filters) now (store s) = (Some cachedData, store')
  ->
  let s' := fetchEarthquakes filters now s in
  inflight s' = None
  /\ issued s' = issued s
  /\ earthquakesSubject s' = features cachedData
  /\ summarySubject s' = Some (generateSummary (features cachedData) filters)
  /\ errorSubject s' = None
  /\ loadingSubject s' = false
  /\ progressSubject s' = 100
  /\ store s' = store'
  /\ hd_error (toasts s') = Some ToastCacheHit.
Proof.
  intros Hget. cbv zeta. unfold fetchEarthquakes.
  destruct (cancelCurrentRequest_store s) as [Hst Hiss].
  destruct (cancelCurrentRequest_frame s) as [Hin _].
  set (s0 := cancelCurrentRequest s) in *. clearbody s0.
  replace (store (setProgress 0 (setError None (setLoading true s0))))
    with (store s) by (rewrite <- Hst; now destruct s0).
  rewrite Hget. unfold processResponse.
  destruct s0; simpl in *; subst.
  repeat match goal with
    | |- context [if ?b then _ else _] => destruct b
    end; simpl; repeat split; reflexivity.
Qed.

Lemma fetchEarthquakes_clears_error filters now s :
  errorSubject (fetchEarthquakes filters now s) = None.
Proof.
  unfold fetchEarthquakes.
  set (s0 := cancelCurrentRequest s). clearbody s0.
  destruct (getFromCache (createCacheKey filters) now
              (store (setProgress 0 (setError None (setLoading true s0)))))
    as [[cachedData|] store'].
  - unfold processResponse. destruct s0; simpl.
    repeat match goal with
      | |- context [if ?b then _ else _] => destruct b
      end; reflexivity.
  - destruct s0; simpl. destruct (isLargeDateRange filters); reflexivity.
Qed.

End FetchOutcomes.

(** A failed or timed-out request publishes the error message and a toast,
    ends the loading state and the progress simulation, and leaves the
    records, the summary, the cache and the pending batches as they were;
    the next fetch clears the error. *)
Theorem failure_keeps_the_published_data (DF : DateFns) (JS : JsBuiltins)
    (s : Service) (rid : nat) (isTimeout : bool) (request : Request) :
  subscribed rid s = Some request ->
  let s' := step s (HttpFailure rid isTimeout) in
  earthquakesSubject s' = earthquakesSubject s
  /\ summarySubject s' = summarySubject s
  /\ store s' = store s
  /\ timers s' = timers s
  /\ errorSubject s' = Some errorMessage
  /\ toasts s' = (if isTimeout then ToastTimeout else ToastFailed) :: toasts s
  /\ loadingSubject s' = false
  /\ progressSimulation s' = None
  /\ inflight s' = None
  /\ forall filters now,
       errorSubject (step s' (FetchEarthquakes filters now)) = None.
Proof.
  intros Hsub. cbv zeta. cbn [step]. rewrite Hsub.
  split; [|split; [|split; [|split; [|split; [|split; [|split; [|split;
    [|split]]]]]]]];
    try (intros filters now; apply fetchEarthquakes_clears_error);
    unfold onError, cancelCurrentRequest, finalizeRequest;
    destruct s, isTimeout; reflexivity.
Qed.

Lemma failure_keeps_the_published_data_witness :
  let s := step (DF := Sample.utcDates) (JS := Sample.builtins) initialService
             (FetchEarthquakes (Sample.filtersFor "2024-03-01" "2024-03-05") 0)
  in
  subscribed 0 s <> None
  /\ errorSubject
       (step (DF := Sample.utcDates) (JS := Sample.builtins) s
          (HttpFailure 0 true)) = Some errorMessage.
Proof.
  cbv zeta.
  set (s := step (DF := Sample.utcDates) (JS := Sample.builtins)
              initialService
              (FetchEarthquakes (Sample.filtersFor "2024-03-01" "2024-03-05")
                 0)).
  destruct (subscribed 0 s) as [request|] eqn:Hsub;
    [|vm_compute in Hsub; discriminate].
  split; [discriminate|].
  apply (failure_keeps_the_published_data Sample.utcDates Sample.builtins
           s 0%nat true request Hsub).
Defined.

(** A response that the cache admits is served from the cache to the next
    fetch of the same filter made within the TTL: no request is made, the
    records of the response and their summary are published, loading is off
    and the progress is 100. *)
Theorem refetch_is_served_from_cache (DF : DateFns) (JS : JsBuiltins)
    (s : Service) (filters : EarthquakeFilters) (request : Request)
    (response : EarthquakeResponse) (nowCleanup nowSet now : Z) :
  inflight s = Some request ->
  req_key request = createCacheKey filters ->
  (currentCacheSize (store s) + estimateObjectSize response <= MAX_CACHE_SIZE
   \/ currentCacheSize (cleanupCache nowCleanup (store s))
      + estimateObjectSize response <= MAX_CACHE_SIZE) ->
  now - nowSet <= CACHE_DURATION ->
  let s1 := step s (HttpResponse (req_id request) response nowCleanup nowSet) in
  let s2 := step s1 (FetchEarthquakes filters now) in
  inflight s2 = None
  /\ issued s2 = issued s
  /\ earthquakesSubject s2 = features response
  /\ summarySubject s2 = Some (generateSummary (features response) filters)
  /\ loadingSubject s2 = false
  /\ progressSubject s2 = 100
  /\ store s2 = store s1
  /\ hd_error (toasts s2) = Some ToastCacheHit.
Proof.
  intros Hin Hkey Hfits Httl. cbv zeta. cbn [step].
  rewrite (subscribed_inflight request s Hin).
  destruct (onResponse_store request response nowCleanup nowSet s)
    as [Hst Hiss].
  set (s1 := onResponse request response nowCleanup nowSet s) in *.
  assert (Hget : getFromCache (createCacheKey filters) now (store s1)
                 = (Some response, store s1)).
  { rewrite Hst, Hkey. now apply addToCache_then_get. }
  destruct (fetchEarthquakes_hit filters now s1 response (store s1) Hget)
    as (H1 & H2 & H3 & H4 & _ & H6 & H7 & H8 & H9).
  rewrite H2, Hiss. repeat split; assumption.
Qed.

Lemma refetch_is_served_from_cache_witness :
  let filters := Sample.filtersFor "2024-03-01" "2024-03-05" in
  let s := step (DF := Sample.utcDates) (JS := Sample.builtins) initialService
             (FetchEarthquakes filters 0) in
  let s2 := run (DF := Sample.utcDates) (JS := Sample.builtins) s
              [ HttpResponse 0 {| features := Sample.threeQuakes |} 10 10;
                FetchEarthquakes filters 20 ] in
  inflight s <> None
  /\ inflight s2 = None
  /\ issued s2 = issued s
  /\ earthquakesSubject s2 = Sample.threeQuakes.
Proof.
  cbv zeta.
  set (filters := Sample.filtersFor "2024-03-01" "2024-03-05").
  set (s := step (DF := Sample.utcDates) (JS := Sample.builtins)
              initialService (FetchEarthquakes filters 0)).
  destruct (inflight s) as [request|] eqn:Hin;
    [|vm_compute in Hin; discriminate].
  assert (Hid : req_id request = 0%nat)
    by (vm_compute in Hin; injection Hin as <-; reflexivity).
  assert (Hkey : req_key request
                = createCacheKey (JS := Sample.builtins) filters)
    by (vm_compute in Hin; injection Hin as <-; reflexivity).
  assert (Hfits : currentCacheSize (store s)
                  + estimateObjectSize (JS := Sample.builtins)
                      {| features := Sample.threeQuakes |}
                  <= MAX_CACHE_SIZE
                  \/ currentCacheSize (cleanupCache 10 (store s))
                     + estimateObjectSize (JS := Sample.builtins)
                         {| features := Sample.threeQuakes |}
                     <= MAX_CACHE_SIZE)
    by (left; vm_compute; discriminate).
  assert (Httl : 20 - 10 <= CACHE_DURATION) by (vm_compute; discriminate).
  split; [discriminate|].
  destruct (refetch_is_served_from_cache Sample.utcDates Sample.builtins
              s filters request {| features := Sample.threeQuakes |}
              10 10 20 Hin Hkey Hfits Httl)
    as (H1 & H2 & H3 & _).
  rewrite Hid in *. cbn [run fold_left]. auto.
Defined.

(** ** What a cleanup keeps *)

Lemma delete_app_fresh {V : Type} key (v : V) (pre rest : JsMap.t V) :
  ~ In key (JsMap.keys pre) ->
  JsMap.delete key (pre ++ (key, v) :: rest)%list = (pre ++ rest)%list.
Proof.
  induction pre as [|[k' v'] pre IH]; simpl; intros Hfresh.
  - now rewrite String.eqb_refl.
  - destruct (String.eqb key k') eqn:E.
    + apply String.eqb_eq in E. subst. exfalso. apply Hfresh. now left.
    + rewrite IH; auto.
Qed.

Lemma wf_app_fresh {V : Type} key (v : V) (pre rest : JsMap.t V) :
  JsMap.wf (pre ++ (key, v) :: rest)%list ->
  ~ In key (JsMap.keys pre) /\ JsMap.wf (pre ++ rest)%list.
Proof.
  unfold JsMap.wf, JsMap.keys. rewrite !map_app. simpl. intros H.
  split.
  - apply NoDup_remove_2 in H. intros Hin. apply H, in_or_app. now left.
  - now apply NoDup_remove_1 in H.
Qed.

(** The first loop of [cleanupCache] keeps the entries that are not older
    than the TTL, in their order, and subtracts the sizes of the others. *)
Lemma removeExpired_filter now entries :
  forall pre c,
    cache c = (pre ++ entries)%list ->
    JsMap.wf (cache c) ->
    cache (removeExpired now entries c)
    = (pre ++ filter (live now) entries)%list
    /\ currentCacheSize (removeExpired now entries c)
       = currentCacheSize c - sizeTotal (filter (stale now) entries).
Proof.
  induction entries as [|[key entry] rest IH]; intros pre c Hc Hwf; simpl.
  - rewrite Hc. split; [reflexivity | lia].
  - unfold live, stale at 1. simpl. fold (expired now entry).
    destruct (expired now entry) eqn:E; simpl.
    + rewrite Hc in Hwf. destruct (wf_app_fresh _ _ _ _ Hwf) as [Hfresh Hwf'].
      destruct (IH pre (removeEntry key entry c)) as [H1 H2].
      * simpl. rewrite Hc. now apply delete_app_fresh.
      * simpl. rewrite Hc, delete_app_fresh; auto.
      * split; [exact H1|]. rewrite H2. simpl. unfold stale. lia.
    + destruct (IH (pre ++ [(key, entry)])%list c) as [H1 H2]; auto.
      * now rewrite <- app_assoc.
      * split; [|exact H2]. now rewrite H1, <- app_assoc.
Qed.

Lemma sizeTotal_filter_nonneg now (m : JsMap.t CacheEntry) :
  (forall k e, In (k, e) m -> 0 <= size e) ->
  0 <= sizeTotal (filter (stale now) m).
Proof.
  intros H. apply sizeTotal_nonneg. intros k e Hin.
  apply filter_In in Hin as [Hin _]. eauto.
Qed.

(** A cleanup of a cache within its budget removes the entries older than
    the TTL and nothing else: the live entries stay, in their order, and the
    tracked total drops by the sizes of the removed entries. *)
Theorem cleanup_keeps_the_live_entries (now : Z) (c : Cache) :
  consistent c ->
  currentCacheSize c <= MAX_CACHE_SIZE ->
  cache (cleanupCache now c) = filter (live now) (cache c)
  /\ currentCacheSize (cleanupCache now c)
     = currentCacheSize c - sizeTotal (filter (stale now) (cache c)).
Proof.
  intros Hc Hle. unfold cleanupCache.
  destruct (removeExpired_filter now (cache c) [] c eq_refl
              (consistent_wf c Hc)) as [H1 H2].
  pose proof (sizeTotal_filter_nonneg now (cache c) (consistent_sizes c Hc)).
  replace (currentCacheSize (removeExpired now (cache c) c) >? MAX_CACHE_SIZE)
    with false by (symmetry; rewrite Z.gtb_ltb; apply Z.ltb_ge; lia).
  auto.
Qed.

Lemma cleanup_keeps_the_live_entries_witness :
  let entry ts :=
    {| data := {| features := [] |}; timestamp := ts; size := 400 |} in
  let c := {| cache := [("a", entry 30); ("b", entry 10); ("c", entry 20)];
              currentCacheSize := 1200 |} in
  consistent c
  /\ currentCacheSize c <= MAX_CACHE_SIZE
  /\ JsMap.keys (cache (cleanupCache 1800015 c)) = ["a"; "c"].
Proof.
  cbv zeta.
  set (c := {| cache := _; currentCacheSize := 1200 |}).
  assert (Hc : consistent c).
  { constructor.
    - repeat constructor; simpl; intuition discriminate.
    - reflexivity.
    - intros k e [[= <- <-]|[[= <- <-]|[[= <- <-]|[]]]]; simpl; lia. }
  assert (Hle : currentCacheSize c <= MAX_CACHE_SIZE)
    by (vm_compute; discriminate).
  split; [exact Hc|]. split; [exact Hle|].
  destruct (cleanup_keeps_the_live_entries 1800015 c Hc Hle) as [-> _].
  reflexivity.
Defined.

Lemma removeExpired_all_live now entries c :
  (forall k e, In (k, e) entries -> expired now e = false) ->
  removeExpired now entries c = c.
Proof.
  induction entries as [|[key entry] rest IH]; intros H; simpl; auto.
  fold (expired now entry). rewrite (H key entry) by now left.
  apply IH. intros k e Hin. apply (H k). now right.
Qed.

(** Cleaning up twice at the same time is cleaning up once. *)
Theorem cleanup_is_idempotent (now : Z) (c : Cache) :
  consistent c ->
  cleanupCache now (cleanupCache now c) = cleanupCache now c.
Proof.
  intros Hc.
  pose proof (cleanupCache_within_budget now c Hc) as Hle.
  pose proof (cleanupCache_live now c Hc) as Hlive.
  set (c1 := cleanupCache now c) in *.
  unfold cleanupCache at 1.
  rewrite removeExpired_all_live.
  - now replace (currentCacheSize c1 >? MAX_CACHE_SIZE) with false
      by (symmetry; rewrite Z.gtb_ltb; apply Z.ltb_ge; lia).
  - intros k e Hin. apply expired_false. now apply (Hlive k e).
Qed.

Lemma cleanup_is_idempotent_witness :
  let c := addToCache (JS := Sample.builtins) "old" (responseOf 3) 0 0
             emptyCache in
  consistent c
  /\ cleanupCache 1800001 (cleanupCache 1800001 c) = cleanupCache 1800001 c.
Proof.
  cbv zeta.
  assert (Hc : consistent
                 (addToCache (JS := Sample.builtins) "old" (responseOf 3)
                    0 0 emptyCache)).
  { apply addToCache_consistent; [apply consistent_empty | reflexivity]. }
  split; [exact Hc|]. now apply cleanup_is_idempotent.
Defined.

(** ** Replacing an entry *)

Lemma sizeTotal_set_present key entry old (m : JsMap.t CacheEntry) :
  JsMap.get key m = Some old ->
  sizeTotal (JsMap.set key entry m) = sizeTotal m - size old + size entry.
Proof.
  induction m as [|[k e] m IH]; simpl; [discriminate|].
  destruct (String.eqb key k).
  - intros [= ->]. simpl. lia.
  - intros H. simpl. rewrite IH by auto. lia.
Qed.

(** [addToCache] does not look for an entry under the same key: when the
    key is already in the cache and the payload fits, the entry is replaced
    in place but the tracked total still counts the size of the replaced
    entry.  (The service only stores under a key it has just missed.) *)
Theorem replacing_an_entry_overcounts (JS : JsBuiltins) (key : string)
    (response : EarthquakeResponse) (nowCleanup nowSet : Z) (c : Cache)
    (old : CacheEntry) :
  consistent c ->
  JsMap.get key (cache c) = Some old ->
  currentCacheSize c + estimateObjectSize response <= MAX_CACHE_SIZE ->
  let c' := addToCache key response nowCleanup nowSet c in
  JsMap.keys (cache c') = JsMap.keys (cache c)
  /\ JsMap.get key (cache c')
     = Some {| data := response; timestamp := nowSet;
               size := estimateObjectSize response |}
  /\ currentCacheSize c' = sizeTotal (cache c') + size old.
Proof.
  intros Hc Hget Hfits. cbv zeta.
  destruct (addToCache_cases key response nowCleanup nowSet c)
    as [(_ & ->)|[(H & _)|(H & _)]]; try lia.
  unfold storeEntry. cbn [cache currentCacheSize size].
  split; [|split].
  - rewrite JsMapFacts.keys_set. unfold JsMap.has. now rewrite Hget.
  - apply JsMapFacts.get_set_same.
  - rewrite (sizeTotal_set_present _ _ _ _ Hget). cbn [size].
    rewrite (consistent_total c Hc). lia.
Qed.

Lemma replacing_an_entry_overcounts_witness :
  let c := addToCache (JS := Sample.builtins) "k" (responseOf 3) 0 0
             emptyCache in
  let c' := addToCache (JS := Sample.builtins) "k" (responseOf 1) 5 5 c in
  consistent c
  /\ currentCacheSize c' = sizeTotal (cache c') + 4600
  /\ sizeTotal (cache c') = 1800.
Proof.
  cbv zeta.
  set (c := addToCache (JS := Sample.builtins) "k" (responseOf 3) 0 0
              emptyCache).
  assert (Hc : consistent c).
  { apply addToCache_consistent; [apply consistent_empty | reflexivity]. }
  split; [exact Hc|]. split; [|reflexivity].
  apply (replacing_an_entry_overcounts Sample.builtins "k" (responseOf 1)
           5 5 c
           {| data := responseOf 3; timestamp := 0; size := 4600 |} Hc).
  - reflexivity.
  - vm_compute. discriminate.
Defined.

(** ** The order of eviction *)

Lemma in_delete_iff {V : Type} key (m : JsMap.t V) k (v : V) :
  JsMap.wf m ->
  (In (k, v) (JsMap.delete key m) <-> In (k, v) m /\ k <> key).
Proof.
  intros Hwf. split.
  - intros Hin. split; [eapply JsMapFacts.in_delete; eauto|].
    intros ->.
    pose proof (JsMapFacts.wf_delete key m Hwf) as Hwf'.
    apply (JsMapFacts.in_get_wf _ _ _ Hwf') in Hin.
    rewrite JsMapFacts.get_delete_same in Hin by auto. discriminate.
  - intros [Hin Hne]. clear Hwf.
    induction m as [|[k0 v0] m IH]; simpl in *; auto.
    destruct (String.eqb key k0) eqn:E.
    + apply String.eqb_eq in E. subst k0.
      destruct Hin as [[= -> ->]|Hin]; [congruence | auto].
    + destruct Hin as [Hin|Hin]; [now left | right; auto].
Qed.

(** The second loop of [cleanupCache] removes a prefix of the entries it is
    handed. *)
Lemma evictOldest_prefix entries :
  forall c,
    consistent c -> current entries c ->
    exists n,
      forall k e,
        In (k, e) (cache (evictOldest entries c))
        <-> In (k, e) (cache c) /\ ~ In k (JsMap.keys (firstn n entries)).
Proof.
  induction entries as [|[key entry] rest IH]; intros c Hc Hcur; simpl.
  - exists 0%nat. simpl. tauto.
  - assert (Hget : JsMap.get key (cache c) = Some entry)
      by (apply Hcur; now left).
    pose proof (consistent_removeEntry key entry c Hc Hget) as Hc'.
    destruct (reducedEnough (removeEntry key entry c)).
    + exists 1%nat. intros k e. simpl.
      rewrite in_delete_iff by apply Hc. intuition congruence.
    + destruct (IH (removeEntry key entry c) Hc') as [n Hn].
      { eapply current_removeEntry; eauto. }
      exists (S n). intros k e. rewrite Hn. simpl.
      rewrite in_delete_iff by apply Hc. intuition congruence.
Qed.

Lemma insertByTimestamp_sorted e sorted :
  StronglySorted notLater sorted ->
  StronglySorted notLater (insertByTimestamp e sorted).
Proof.
  induction sorted as [|e' rest IH]; intros Hs; simpl.
  - repeat constructor.
  - inversion Hs as [|? ? Hrest Hall]; subst.
    destruct (timestamp (snd e) <=? timestamp (snd e')) eqn:E.
    + apply Z.leb_le in E. constructor; auto. constructor; auto.
      eapply Forall_impl; [|exact Hall].
      intros x Hx. unfold notLater in *. lia.
    + apply Z.leb_gt in E. constructor; auto.
      eapply Permutation_Forall.
      * apply Permutation_sym, insertByTimestamp_perm.
      * constructor; auto. unfold notLater. lia.
Qed.

Lemma sortByTimestamp_sorted entries :
  StronglySorted notLater (sortByTimestamp entries).
Proof.
  induction entries as [|e rest IH]; simpl.
  - constructor.
  - now apply insertByTimestamp_sorted.
Qed.

Lemma sorted_prefix_first (l : list (string * CacheEntry)) :
  StronglySorted notLater l ->
  forall n x y, In x (firstn n l) -> In y (skipn n l) -> notLater x y.
Proof.
  induction 1 as [|a l Hs IH Hall]; intros n x y Hx Hy.
  - destruct n; destruct Hx.
  - destruct n as [|n]; [destruct Hx|]. simpl in Hx, Hy.
    destruct Hx as [<-|Hx].
    + rewrite Forall_forall in Hall. apply Hall.
      rewrite <- (firstn_skipn n l). apply in_or_app. now right.
    + eapply IH; eauto.
Qed.

(** When [cleanupCache] evicts live entries it takes the oldest first: no
    entry it keeps was stored before a live entry it removes, and it stops
    at 80 % of the budget or with an empty cache. *)
Theorem eviction_is_oldest_first (now : Z) (c : Cache) (k : string)
    (e : CacheEntry) :
  consistent c ->
  In (k, e) (cache c) ->
  expired now e = false ->
  ~ In (k, e) (cache (cleanupCache now c)) ->
  (forall k' e', In (k', e') (cache (cleanupCache now c)) ->
                 timestamp e <= timestamp e')
  /\ (reducedEnough (cleanupCache now c) = true
      \/ cache (cleanupCache now c) = []).
Proof.
  intros Hc Hin Hlive Hgone. unfold cleanupCache in *.
  assert (Hc1 : consistent (removeExpired now (cache c) c)).
  { apply removeExpired_consistent; auto. apply current_cache, Hc. }
  destruct (removeExpired_filter now (cache c) [] c eq_refl
              (consistent_wf c Hc)) as [Hcache _].
  set (c1 := removeExpired now (cache c) c) in *.
  assert (Hin1 : In (k, e) (cache c1)).
  { rewrite Hcache. apply filter_In. split; auto.
    unfold live. simpl. now rewrite Hlive. }
  destruct (currentCacheSize c1 >? MAX_CACHE_SIZE); [|contradiction].
  pose proof (current_sorted c1 (consistent_wf c1 Hc1)) as Hcur.
  set (sorted := sortByTimestamp (cache c1)) in *.
  pose proof (sortByTimestamp_perm (cache c1)) as Hperm. fold sorted in Hperm.
  destruct (evictOldest_prefix sorted c1 Hc1 Hcur) as [n Hn].
  destruct (evictOldest_spec sorted c1 Hc1 Hcur) as (_ & Hsub & Hend).
  split.
  - assert (Hk : In k (JsMap.keys (firstn n sorted))).
    { destruct (in_dec string_dec k (JsMap.keys (firstn n sorted)));
        auto.
      exfalso. apply Hgone. apply Hn. auto. }
    unfold JsMap.keys in Hk. apply in_map_iff in Hk as ([k0 e0] & Hk0 & Hf).
    simpl in Hk0. subst k0.
    assert (He0 : e0 = e).
    { assert (Hs : In (k, e0) sorted)
        by (rewrite <- (firstn_skipn n sorted); apply in_or_app; now left).
      apply (proj2 Hcur) in Hs.
      apply (JsMapFacts.in_get_wf _ _ _ (consistent_wf c1 Hc1)) in Hin1.
      congruence. }
    subst e0.
    intros k' e' Hkept. apply Hn in Hkept as [Hin' Hnot].
    assert (Hs' : In (k', e') sorted)
      by (eapply Permutation_in; [apply Permutation_sym, Hperm | exact Hin']).
    rewrite <- (firstn_skipn n sorted) in Hs'.
    apply in_app_or in Hs' as [Hs'|Hs'].
    + exfalso. apply Hnot. unfold JsMap.keys.
      now apply (in_map fst) in Hs'.
    + exact (sorted_prefix_first sorted (sortByTimestamp_sorted _) n
               (k, e) (k', e') Hf Hs').
  - destruct Hend as [Hred|Hall]; [now left|right].
    apply all_absent_nil. intros k0 Hk0. apply Hall.
    unfold JsMap.keys in *. apply in_map_iff in Hk0 as ([k1 e1] & <- & Hin0).
    apply Hsub in Hin0.
    apply (Permutation_in _ (Permutation_sym Hperm)) in Hin0.
    now apply (in_map fst) in Hin0.
Qed.

Lemma eviction_is_oldest_first_witness :
  let entry ts :=
    {| data := {| features := [] |}; timestamp := ts; size := 20000000 |} in
  let c := {| cache := [("a", entry 30); ("b", entry 10); ("c", entry 20)];
              currentCacheSize := 60000000 |} in
  consistent c
  /\ In ("b", entry 10) (cache c)
  /\ ~ In ("b", entry 10) (cache (cleanupCache 40 c))
  /\ forall k' e', In (k', e') (cache (cleanupCache 40 c)) ->
                   10 <= timestamp e'.
Proof.
  cbv zeta.
  set (entry := fun ts =>
         {| data := {| features := [] |}; timestamp := ts;
            size := 20000000 |}).
  set (c := {| cache := _; currentCacheSize := 60000000 |}).
  assert (Hc : consistent c).
  { constructor.
    - repeat constructor; simpl; intuition discriminate.
    - reflexivity.
    - intros k e [[= <- <-]|[[= <- <-]|[[= <- <-]|[]]]]; simpl; lia. }
  assert (Hin : In ("b", entry 10) (cache c)) by (simpl; auto).
  assert (Hgone : ~ In ("b", entry 10) (cache (cleanupCache 40 c))).
  { vm_compute. intuition discriminate. }
  split; [exact Hc|]. split; [exact Hin|]. split; [exact Hgone|].
  apply (eviction_is_oldest_first 40 c "b" (entry 10) Hc Hin eq_refl Hgone).
Defined.

(** ** The fixed part of the request *)

Lemma Math_max_spec (a b : Q) :
  (a <= Math_max a b)%Q /\ (b <= Math_max a b)%Q
  /\ (Math_max a b = a \/ Math_max a b = b).
Proof.
  unfold Math_max. destruct (Qle_bool a b) eqn:E.
  - apply Qle_bool_iff in E. repeat split; auto. apply Qle_refl.
  - apply Qle_bool_false in E. repeat split; auto.
    + apply Qle_refl.
    + now apply Qlt_le_weak.
Qed.

(** Every request asks for GeoJSON ordered by time, carries the dates, the
    minimum magnitude and the limit of the filter, and an offset that is the
    filter's offset raised to 1 when it is below; no parameter is set
    twice. *)
Theorem request_fixed_parameters (JS : JsBuiltins)
    (filters : EarthquakeFilters) :
  let params := buildRequestParams filters in
  JsMap.get "format" params = Some "geojson"
  /\ JsMap.get "orderby" params = Some "time"
  /\ JsMap.get "starttime" params = Some (startTime filters)
  /\ JsMap.get "endtime" params = Some (endTime filters)
  /\ JsMap.get "minmagnitude" params
     = Some (Number_toString (minMagnitude filters))
  /\ JsMap.get "limit" params = Some (Number_toString (limit filters))
  /\ (exists sent,
        JsMap.get "offset" params = Some (Number_toString sent)
        /\ (1 <= sent)%Q /\ (offset filters <= sent)%Q
        /\ (sent = offset filters \/ sent = 1%Q))
  /\ JsMap.wf params.
Proof.
  cbv zeta.
  destruct (Math_max_spec (offset filters) 1) as (Hlo & Hhi & Hor).
  unfold buildRequestParams.
  destruct (truthy (maxMagnitude filters));
    destruct (truthy (minLatitude filters) && truthy (maxLatitude filters)
              && truthy (minLongitude filters) && truthy (maxLongitude filters));
    (split; [reflexivity|]; split; [reflexivity|]; split; [reflexivity|];
     split; [reflexivity|]; split; [reflexivity|]; split; [reflexivity|];
     split;
     [ exists (Math_max (offset filters) 1); repeat split; auto
     | unfold JsMap.wf; cbn; repeat constructor; simpl;
       intuition discriminate ]).
Qed.

(** The maximum magnitude is sent exactly when the filter has one that is
    not 0: a maximum magnitude of 0 is dropped like an absent one, and the
    request then has no upper bound. *)
Theorem max_magnitude_sent_when_truthy (JS : JsBuiltins)
    (filters : EarthquakeFilters) :
  JsMap.get "maxmagnitude" (buildRequestParams filters)
  = match maxMagnitude filters with
    | Some m => if Qeq_bool m 0 then None else Some (Number_toString m)
    | None => None
    end.
Proof.
  unfold buildRequestParams, truthy.
  destruct (maxMagnitude filters) as [m|]; [destruct (Qeq_bool m 0)|];
    cbn [negb];
    destruct (minLatitude filters) as [a|]; try destruct (Qeq_bool a 0);
    destruct (maxLatitude filters) as [b|]; try destruct (Qeq_bool b 0);
    destruct (minLongitude filters) as [c|]; try destruct (Qeq_bool c 0);
    destruct (maxLongitude filters) as [d|]; try destruct (Qeq_bool d 0);
    reflexivity.
Qed.

(** ** The markers of the map *)

Lemma ceiling_step (r i : Z) :
  1 <= r -> 0 <= i ->
  (i + 1 + r - 1) / r - (i + r - 1) / r = if i mod r =? 0 then 1 else 0.
Proof.
  intros Hr Hi.
  assert (Hdm : i = r * (i / r) + i mod r) by (apply Z.div_mod; lia).
  assert (Hm : 0 <= i mod r < r) by (apply Z.mod_pos_bound; lia).
  set (q := i / r) in *. set (m := i mod r) in *.
  assert (H1 : (i + 1 + r - 1) / r = q + 1).
  { replace (i + 1 + r - 1) with (m + (q + 1) * r) by lia.
    rewrite Z.div_add by lia. rewrite Z.div_small by lia. lia. }
  rewrite H1.
  destruct (m =? 0) eqn:E.
  - apply Z.eqb_eq in E.
    replace (i + r - 1) with (r - 1 + q * r) by lia.
    rewrite Z.div_add by lia. rewrite Z.div_small by lia. lia.
  - apply Z.eqb_neq in E.
    replace (i + r - 1) with (m - 1 + (q + 1) * r) by lia.
    rewrite Z.div_add by lia. rewrite Z.div_small by lia. lia.
Qed.

(** The number of indices from [i] on that the sampling keeps. *)
Lemma sampleEvery_length (r : Z) earthquakes :
  1 <= r ->
  forall i,
    0 <= i ->
    Z.of_nat (List.length (sampleEvery r i earthquakes))
    = (i + Z.of_nat (List.length earthquakes) + r - 1) / r - (i + r - 1) / r.
Proof.
  intros Hr. induction earthquakes as [|eq rest IH]; intros i Hi.
  - simpl. rewrite Z.add_0_r. lia.
  - cbn [sampleEvery List.length].
    pose proof (ceiling_step r i Hr Hi) as Hstep.
    specialize (IH (i + 1) ltac:(lia)).
    replace (i + Z.of_nat (S (List.length rest)) + r - 1)
      with (i + 1 + Z.of_nat (List.length rest) + r - 1) by lia.
    destruct (i mod r =? 0); cbn [List.length]; lia.
Qed.

Lemma sampleEvery_incl (r : Z) earthquakes :
  forall i eq, In eq (sampleEvery r i earthquakes) -> In eq earthquakes.
Proof.
  induction earthquakes as [|x rest IH]; intros i eq; simpl; auto.
  destruct (i mod r =? 0); simpl; intros H; [destruct H|]; eauto.
Qed.

(** Without clustering the map never draws more than 1000 markers: a larger
    list is sampled at a regular rate that starts with the first record;
    with clustering, or up to 1000 records, every record is drawn. *)
Theorem markers_are_limited (enableClustering : bool)
    (earthquakes : list EarthquakeFeature) :
  let rendered := earthquakesToRender enableClustering earthquakes in
  (enableClustering = false ->
   (List.length rendered <= MARKER_LIMIT_WITHOUT_CLUSTERING)%nat)
  /\ (forall eq, In eq rendered -> In eq earthquakes)
  /\ hd_error rendered = hd_error earthquakes
  /\ (enableClustering = true
      \/ (List.length earthquakes <= MARKER_LIMIT_WITHOUT_CLUSTERING)%nat ->
      rendered = earthquakes).
Proof.
  cbv zeta. unfold earthquakesToRender, MARKER_LIMIT_WITHOUT_CLUSTERING.
  destruct (1000 <? List.length earthquakes)%nat eqn:E.
  - apply Nat.ltb_lt in E.
    set (n := Z.of_nat (List.length earthquakes)).
    set (r := Qceiling (inject_Z n / inject_Z (Z.of_nat 1000))).
    assert (Hcover : n <= r * 1000).
    { pose proof (Qle_ceiling (inject_Z n / inject_Z (Z.of_nat 1000))) as Hc.
      fold r in Hc.
      apply (Qmult_le_compat_r _ _ (inject_Z 1000)) in Hc; [|discriminate].
      assert (Hq : (inject_Z n / inject_Z (Z.of_nat 1000) * inject_Z 1000
                    == inject_Z n)%Q) by (field; discriminate).
      now rewrite Hq, <- inject_Z_mult, <- Zle_Qle in Hc. }
    assert (Hr : 1 <= r) by (subst n; lia).
    destruct enableClustering; cbn [negb andb].
    + repeat split; auto; discriminate.
    + split; [|split; [|split]].
      * intros _.
        pose proof (sampleEvery_length r earthquakes Hr 0 ltac:(lia)) as Hlen.
        fold n in Hlen.
        rewrite (Z.div_small (0 + r - 1) r) in Hlen by lia.
        assert ((0 + n + r - 1) / r < 1001)
          by (apply Z.div_lt_upper_bound; lia).
        lia.
      * apply sampleEvery_incl.
      * destruct earthquakes as [|x rest]; [reflexivity|].
        cbn [sampleEvery]. now rewrite Z.mod_0_l by lia.
      * intros [H|H]; [discriminate | lia].
  - rewrite andb_false_r. apply Nat.ltb_ge in E.
    repeat split; auto.
Qed.

Lemma markers_are_limited_witness :
  false = false
  /\ (List.length (earthquakesToRender false (features (responseOf 2500)))
      <= MARKER_LIMIT_WITHOUT_CLUSTERING)%nat.
Proof.
  split; [reflexivity|].
  apply (markers_are_limited false (features (responseOf 2500))).
  reflexivity.
Defined.

Example sampling_of_2500_records :
  List.length (earthquakesToRender false (features (responseOf 2500)))
  = 834%nat.
Proof. vm_compute. reflexivity. Qed.

(** ** The performance monitor *)

Ltac split_thresholds :=
  repeat match goal with
    | |- context [if Qgtb ?a ?b then _ else _] =>
        let E := fresh "E" in
        destruct (Qgtb a b) eqn:E;
        [apply Qgtb_true in E | apply Qgtb_false in E]
    end.

(** There is always something to recommend: between one and four messages,
    no message twice, and the generic advice alone exactly when every metric
    is within its first threshold. *)
Theorem recommendations_are_never_empty (metrics : PerformanceMetrics) :
  let recommendations := getPerformanceRecommendations metrics in
  (1 <= List.length recommendations <= 4)%nat
  /\ NoDup recommendations
  /\ (recommendations = [genericRecommendation]
      <-> (dataLoadTime metrics <= 3000)%Q
          /\ (dataSize metrics <= 5 * 1024 * 1024)%Q
          /\ (renderTime metrics <= 1000)%Q
          /\ (memoryUsage metrics <= 100 * 1024 * 1024)%Q).
Proof.
  cbv zeta. unfold getPerformanceRecommendations.
  split_thresholds; cbn [app List.length Nat.eqb];
    (split; [lia|]; split;
     [ repeat constructor; simpl; intuition discriminate
     | split;
       [ intros H; first [discriminate H | repeat split; assumption]
       | intros (H1 & H2 & H3 & H4);
         first [reflexivity | exfalso; lra] ] ]).
Qed.

(** Timing an operation: [endTimer] after [startTimer] returns the time
    between the two calls, records it for the operation ([dataLoad] or
    [render]; any other name only refreshes the date) and forgets the timer,
    so that ending it again returns 0 and changes nothing.  The start time
    must not be 0: a timer started at 0 counts as not started. *)
Theorem timer_round_trip (operation : string) (size : option Q)
    (started now : Q) (today : Z) (s : PerformanceMonitor) :
  JsMap.wf (operationTimers s) ->
  Qeq_bool started 0 = false ->
  let '(duration, s') :=
    endTimer operation size now today (startTimer operation started s) in
  duration = (now - started)%Q
  /\ lastUpdated (metricsSubject s') = today
  /\ (operation = "dataLoad" ->
      dataLoadTime (metricsSubject s') = duration
      /\ renderTime (metricsSubject s') = renderTime (metricsSubject s))
  /\ (operation = "render" ->
      renderTime (metricsSubject s') = duration
      /\ dataLoadTime (metricsSubject s') = dataLoadTime (metricsSubject s)
      /\ dataSize (metricsSubject s') = dataSize (metricsSubject s))
  /\ (operation <> "dataLoad" -> operation <> "render" ->
      dataLoadTime (metricsSubject s') = dataLoadTime (metricsSubject s)
      /\ renderTime (metricsSubject s') = renderTime (metricsSubject s)
      /\ dataSize (metricsSubject s') = dataSize (metricsSubject s))
  /\ memoryUsage (metricsSubject s') = memoryUsage (metricsSubject s)
  /\ JsMap.get operation (operationTimers s') = None
  /\ forall size' now' today',
       endTimer operation size' now' today' s' = (0%Q, s').
Proof.
  intros Hwf Hstarted. unfold endTimer, startTimer.
  cbn [operationTimers metricsSubject].
  rewrite JsMapFacts.get_set_same. cbn [truthy]. rewrite Hstarted.
  cbn [negb].
  assert (Hgone : JsMap.get operation
                    (JsMap.delete operation
                       (JsMap.set operation started (operationTimers s)))
                  = None)
    by (apply JsMapFacts.get_delete_same, JsMapFacts.wf_set, Hwf).
  cbn [metricsSubject operationTimers lastUpdated dataLoadTime renderTime
         dataSize memoryUsage].
  unfold recordDuration.
  split; [reflexivity|]. split; [reflexivity|].
  split; [|split; [|split; [|split; [|split]]]].
  - intros ->. cbn. auto.
  - intros ->. cbn. auto.
  - intros H1 H2. apply String.eqb_neq in H1, H2. rewrite H1, H2. auto.
  - destruct (String.eqb operation "dataLoad");
      [|destruct (String.eqb operation "render")]; reflexivity.
  - exact Hgone.
  - intros size' now' today'. rewrite Hgone. reflexivity.
Qed.

Lemma timer_round_trip_witness :
  let s := {| metricsSubject :=
                {| dataLoadTime := 0; renderTime := 0; memoryUsage := 0;
                   dataSize := 0; lastUpdated := 0 |};
              operationTimers := JsMap.empty |} in
  JsMap.wf (operationTimers s)
  /\ Qeq_bool 1500 0 = false
  /\ fst (endTimer "dataLoad" None 4000 7 (startTimer "dataLoad" 1500 s))
     = (4000 - 1500)%Q.
Proof.
  cbv zeta.
  set (s := {| metricsSubject := _; operationTimers := JsMap.empty |}).
  assert (Hwf : JsMap.wf (operationTimers s)) by constructor.
  assert (Hne : Qeq_bool 1500 0 = false) by reflexivity.
  split; [exact Hwf|]. split; [exact Hne|].
  pose proof (timer_round_trip "dataLoad" None 1500 4000 7 s Hwf Hne) as H.
  destruct (endTimer "dataLoad" None 4000 7 (startTimer "dataLoad" 1500 s))
    as [duration s'].
  apply H.
Defined.

(** Ending a timer that was never started, or was started at time 0,
    returns 0 and records nothing. *)
Theorem ending_an_unstarted_timer (operation : string) (size : option Q)
    (now : Q) (today : Z) (s : PerformanceMonitor) :
  (forall started,
     JsMap.get operation (operationTimers s) = Some started ->
     (started == 0)%Q) ->
  endTimer operation size now today s = (0%Q, s).
Proof.
  intros H. unfold endTimer.
  destruct (JsMap.get operation (operationTimers s)) as [started|];
    [|reflexivity].
  cbn [truthy]. specialize (H started eq_refl).
  apply Qeq_bool_iff in H. now rewrite H.
Qed.

Lemma ending_an_unstarted_timer_witness :
  let s := {| metricsSubject :=
                {| dataLoadTime := 0; renderTime := 0; memoryUsage := 0;
                   dataSize := 0; lastUpdated := 0 |};
              operationTimers := JsMap.empty |} in
  endTimer "render" None 4000 7 (startTimer "render" 0 s)
  = (0%Q, startTimer "render" 0 s).
Proof.
  cbv zeta.
  apply (ending_an_unstarted_timer "render" None 4000 7).
  intros started. cbn. intros [= <-]. reflexivity.
Defined.
